(** * Chip volume estimation utilities: a shallow embedding

    Embedding of [chip_estimates_utils.py] (the Monte Carlo engine
    [estimate_chip_sales], [normalize_shares], [get_percentiles],
    [compute_h100_equivalents] and [summarize_quarterly_by_chip]) together
    with the properties stated about them.

    Conventions.
    - A Python [dict] is an insertion-ordered association list with unique
      keys ([PyDict]); iteration order is the list order.
    - Python numbers are reached through the interface [PyNum]; its
      instances are exact rationals ([Qc], the arithmetic the statements
      about sums and ratios are written in), IEEE binary64 ([spec_float] at
      precision 53, the arithmetic of Python's [float]) and NumPy's
      [float64] scalars (the same doubles, with a division by zero that
      returns instead of raising).
    - Percentiles, integer parts and formatted figures are computed over
      exact rationals: every value is finite, and a statement that depends
      on the values, not only on the structure, says so.
    - A raised exception is the [Raise] outcome of [result].
    - The sampling callbacks are impure (they draw random numbers), so they
      are functions on an abstract world [W]; every invocation is recorded
      in a call log, which is what the statements about "not invoking" a
      callback are about. *)

From Stdlib Require Import List String ZArith QArith Qcanon Qround Lia Bool.
From Stdlib Require Import Permutation Sorted DecimalString.
From Stdlib Require Import Floats.SpecFloat.
From Stdlib Require Import Ascii Lqa DecimalPos DecimalZ RelationClasses.
Import ListNotations.

Close Scope Qc_scope.
Close Scope Q_scope.

Set Implicit Arguments.

(** ** Exceptions and outcomes *)

Inductive exn : Type :=
| KeyError
| ZeroDivisionError
| IndexError
| ValueError
| TypeError.

Inductive result (A : Type) : Type :=
| Ok (a : A)
| Raise (e : exn).

Arguments Ok {A} a.
Arguments Raise {A} e.

Definition result_bind {A B} (m : result A) (f : A -> result B) : result B :=
  match m with
  | Ok a => f a
  | Raise e => Raise e
  end.

Definition result_map {A B} (f : A -> B) (m : result A) : result B :=
  match m with
  | Ok a => Ok (f a)
  | Raise e => Raise e
  end.

(** [for x in xs: acc = body x acc], stopping at the first exception. *)
Fixpoint result_fold {X A} (body : X -> A -> result A) (xs : list X) (acc : A)
  : result A :=
  match xs with
  | [] => Ok acc
  | x :: rest => result_bind (body x acc) (result_fold body rest)
  end.

(** [for x in xs: out.append(f(x))], stopping at the first exception. *)
Definition append_each {X Y} (f : X -> result Y) (xs : list X)
  (out : list Y) : result (list Y) :=
  result_fold (fun x out => result_bind (f x) (fun y => Ok (out ++ [y])))
    xs out.

(** ** Keys *)

Class KeyEq (K : Type) : Type := {
  key_eqb : K -> K -> bool;
  key_eqb_eq : forall x y, key_eqb x y = true <-> x = y
}.

#[export] Instance string_KeyEq : KeyEq string :=
  {| key_eqb := String.eqb; key_eqb_eq := String.eqb_eq |}.

#[export] Instance Qc_KeyEq : KeyEq Qc.
Proof.
  refine {| key_eqb := Qc_eq_bool |}.
  intros x y. split.
  - apply Qc_eq_bool_correct.
  - intros ->. unfold Qc_eq_bool. destruct (Qc_eq_dec y y); congruence.
Defined.

Definition key_eq_dec {K} `{KeyEq K} (x y : K) : {x = y} + {x <> y} :=
  match key_eqb x y as b return key_eqb x y = b -> {x = y} + {x <> y} with
  | true => fun E => left (proj1 (key_eqb_eq x y) E)
  | false => fun E =>
      right (fun Heq =>
        Bool.diff_false_true
          (eq_trans (eq_sym E) (proj2 (key_eqb_eq x y) Heq)))
  end eq_refl.

(** ** Python dictionaries *)

Module PyDict.

Section Dict.
Context {K V : Type} `{KeyEq K}.

Definition dict : Type := list (K * V).

(** [d[k]], [None] standing for the [KeyError]. *)
Fixpoint get (d : dict) (k : K) : option V :=
  match d with
  | [] => None
  | (k', v) :: rest => if key_eqb k' k then Some v else get rest k
  end.

(** [d.get(k, default)] *)
Definition get_default (d : dict) (k : K) (default : V) : V :=
  match get d k with
  | Some v => v
  | None => default
  end.

(** [d[k] = v]: an existing key keeps its position, a new key goes last. *)
Fixpoint set (d : dict) (k : K) (v : V) : dict :=
  match d with
  | [] => [(k, v)]
  | (k', v') :: rest =>
      if key_eqb k' k then (k', v) :: rest else (k', v') :: set rest k v
  end.

Definition keys (d : dict) : list K := map fst d.
Definition values (d : dict) : list V := map snd d.
Definition items (d : dict) : list (K * V) := d.

(** [{k: f(v) for k, v in d.items()}] *)
Definition map_values {V' : Type} (f : V -> V') (d : dict)
  : list (K * V') :=
  map (fun kv => (fst kv, f (snd kv))) d.

(** A dictionary holds each key once. *)
Definition well_formed (d : dict) : Prop := NoDup (keys d).

(** [{k: f(k) for k in ks}] *)
Definition comprehension (ks : list K) (f : K -> V) : dict :=
  fold_left (fun d k => set d k (f k)) ks [].

End Dict.

Arguments dict : clear implicits.

End PyDict.

Abbreviation dict := PyDict.dict.

(** ** Python numbers *)

(** What the utilities ask of a number: the literal [0], [+], [*], true
    division [/] (which raises [ZeroDivisionError], here [None]) and the
    test [x > 0]. *)
Class PyNum (num : Type) : Type := {
  num_zero : num;
  num_add : num -> num -> num;
  num_mul : num -> num -> num;
  num_div : num -> num -> option num;
  num_gt0 : num -> bool;
  num_gt0_zero : num_gt0 num_zero = false
}.

(** Exact rational arithmetic. *)
Definition Qc_div (x y : Qc) : option Qc :=
  if Qc_eq_bool y (Q2Qc 0) then None else Some (x / y)%Qc.

Definition Qc_gt0 (x : Qc) : bool :=
  match (Q2Qc 0 ?= x)%Qc with
  | Lt => true
  | _ => false
  end.

#[export] Instance Qc_PyNum : PyNum Qc := {|
  num_zero := Q2Qc 0;
  num_add := Qcplus;
  num_mul := Qcmult;
  num_div := Qc_div;
  num_gt0 := Qc_gt0;
  num_gt0_zero := eq_refl
|}.

(** IEEE binary64, the arithmetic of a Python [float]. *)
Module Binary64.

Definition prec : Z := 53.
Definition emax : Z := 1024.

Definition float : Type := spec_float.

Definition zero : float := S754_zero false.
Definition of_Z (z : Z) : float := binary_normalize prec emax z 0 false.
Definition add : float -> float -> float := SFadd prec emax.
Definition mul : float -> float -> float := SFmul prec emax.

Definition is_zero (x : float) : bool :=
  match x with
  | S754_zero _ => true
  | _ => false
  end.

(** Python raises on a zero divisor of either sign. *)
Definition div (x y : float) : option float :=
  if is_zero y then None else Some (SFdiv prec emax x y).

(** The literal written [n/d] in decimal, e.g. [0.6] as [lit 6 10]: the
    double nearest to the quotient. *)
Definition lit (n d : Z) : float := SFdiv prec emax (of_Z n) (of_Z d).

Definition gt0 (x : float) : bool := SFltb zero x.

(** The rational a finite double stands for. *)
Definition value (x : float) : option Q :=
  match x with
  | S754_zero _ => Some (0 # 1)%Q
  | S754_finite s m e =>
      Some (Qred (inject_Z (cond_Zopp s (Zpos m)) * Qpower (2 # 1) e)%Q)
  | _ => None
  end.

End Binary64.

#[export] Instance float_PyNum : PyNum Binary64.float := {|
  num_zero := Binary64.zero;
  num_add := Binary64.add;
  num_mul := Binary64.mul;
  num_div := Binary64.div;
  num_gt0 := Binary64.gt0;
  num_gt0_zero := eq_refl
|}.

(** A NumPy scalar [np.float64]: the same doubles and the same operations,
    except that a division by zero returns an infinity or a NaN (with a
    warning) where a Python [float] raises [ZeroDivisionError]. *)
Record float64 : Type := { as_float : Binary64.float }.

#[export] Instance float64_PyNum : PyNum float64 := {|
  num_zero := {| as_float := Binary64.zero |};
  num_add := fun x y =>
    {| as_float := Binary64.add (as_float x) (as_float y) |};
  num_mul := fun x y =>
    {| as_float := Binary64.mul (as_float x) (as_float y) |};
  num_div := fun x y =>
    Some {| as_float := SFdiv Binary64.prec Binary64.emax
                          (as_float x) (as_float y) |};
  num_gt0 := fun x => Binary64.gt0 (as_float x);
  num_gt0_zero := eq_refl
|}.

Definition div_or_raise {num} `{PyNum num} (x y : num) : result num :=
  match num_div x y with
  | Some z => Ok z
  | None => Raise ZeroDivisionError
  end.

(** [sum(xs)]: left to right from the integer [0] (in binary64 this is the
    plain running sum, without the error compensation that recent CPython
    versions apply to sums of floats). *)
Definition py_sum {num} `{PyNum num} (xs : list num) : num :=
  fold_left num_add xs num_zero.

(** ** The simulation engine: [estimate_chip_sales] *)

Definition quarter : Type := string.
Definition version : Type := string.

Bind Scope string_scope with quarter.
Bind Scope string_scope with version.

(** [{quarter: {version: [samples]}}] *)
Definition table (num : Type) : Type := dict quarter (dict version (list num)).

(** [results[quarter][version]], when both keys are present. *)
Definition cell {num} (results : table num) (q : quarter) (v : version)
  : option (list num) :=
  match PyDict.get results q with
  | Some row => PyDict.get row v
  | None => None
  end.

(** One entry of the call log: which callback was invoked, on what, and what
    it returned. *)
Inductive call (num : Type) : Type :=
| CallRevenue (q : quarter) (revenue : num)
| CallShares (q : quarter) (shares : dict version num)
| CallPrice (q : quarter) (v : version) (price : num).

Arguments CallRevenue {num} q revenue.
Arguments CallShares {num} q shares.
Arguments CallPrice {num} q v price.

(** The state threaded through a run: the callbacks' hidden state and the
    log of the calls made so far, oldest first. *)
Record run_state (num W : Type) : Type := {
  world : W;
  calls : list (call num)
}.

(** State and exception monad of a run. *)
Definition M (num W A : Type) : Type :=
  run_state num W -> result (A * run_state num W).

Definition ret {num W A} (a : A) : M num W A := fun st => Ok (a, st).

Definition bind {num W A B} (m : M num W A) (f : A -> M num W B) : M num W B :=
  fun st =>
    match m st with
    | Ok (a, st') => f a st'
    | Raise e => Raise e
    end.

Definition lift {num W A} (r : result A) : M num W A :=
  fun st =>
    match r with
    | Ok a => Ok (a, st)
    | Raise e => Raise e
    end.

Declare Scope run_scope.
Delimit Scope run_scope with run.
Notation "x <- m ;; k" := (bind m (fun x => k))
  (at level 61, m at next level, right associativity) : run_scope.

(** [for x in xs: body] with the loop-carried value [acc]. *)
Fixpoint for_each {num W X A} (xs : list X) (body : X -> A -> M num W A)
  (acc : A) : M num W A :=
  match xs with
  | [] => ret acc
  | x :: rest => bind (body x acc) (for_each rest body)
  end.

(** [for _ in range(n): body] *)
Fixpoint for_range {num W A} (n : nat) (body : A -> M num W A) (acc : A)
  : M num W A :=
  match n with
  | O => ret acc
  | S n' => bind (body acc) (for_range n' body)
  end.

Section Engine.

Context {num : Type} `{PyNum num} {W : Type}.

Variable sample_revenue : quarter -> W -> num * W.
Variable sample_shares : quarter -> W -> dict version num * W.
Variable sample_price : quarter -> version -> W -> num * W.

Definition call_revenue (q : quarter) : M num W num :=
  fun st =>
    let (revenue, w') := sample_revenue q (world st) in
    Ok (revenue,
        {| world := w'; calls := calls st ++ [CallRevenue q revenue] |}).

Definition call_shares (q : quarter) : M num W (dict version num) :=
  fun st =>
    let (shares, w') := sample_shares q (world st) in
    Ok (shares,
        {| world := w'; calls := calls st ++ [CallShares q shares] |}).

Definition call_price (q : quarter) (v : version) : M num W num :=
  fun st =>
    let (price, w') := sample_price q v (world st) in
    Ok (price,
        {| world := w'; calls := calls st ++ [CallPrice q v price] |}).

(** [results = {quarter: {version: [] for version in versions}
               for quarter in quarters}] *)
Definition init_results (quarters : list quarter) (versions : list version)
  : table num :=
  PyDict.comprehension quarters
    (fun _ => PyDict.comprehension versions (fun _ => [])).

(** [results[quarter][version].append(chips)] *)
Definition append_sample (results : table num) (q : quarter) (v : version)
  (chips : num) : result (table num) :=
  match PyDict.get results q with
  | None => Raise KeyError
  | Some row =>
      match PyDict.get row v with
      | None => Raise KeyError
      | Some samples =>
          Ok (PyDict.set results q (PyDict.set row v (samples ++ [chips])))
      end
  end.

(** The body of [for version in versions]. *)
Definition version_step (q : quarter) (revenue : num)
  (shares : dict version num) (v : version) (results : table num)
  : M num W (table num) :=
  (let share := PyDict.get_default shares v num_zero in
   chips <- (if num_gt0 share
             then price <- call_price q v ;;
                  lift (div_or_raise (num_mul revenue share) price)
             else ret num_zero) ;;
   lift (append_sample results q v chips))%run.

(** The body of [for quarter in quarters]. *)
Definition quarter_step (versions : list version) (q : quarter)
  (results : table num) : M num W (table num) :=
  (revenue <- call_revenue q ;;
   shares <- call_shares q ;;
   for_each versions (version_step q revenue shares) results)%run.

(** The body of [for _ in range(n_samples)]. *)
Definition trial_step (quarters : list quarter) (versions : list version)
  (results : table num) : M num W (table num) :=
  for_each quarters (quarter_step versions) results.

Definition estimate_chip_sales_from (quarters : list quarter)
  (versions : list version) (n_samples : nat) : M num W (table num) :=
  for_range n_samples (trial_step quarters versions)
    (init_results quarters versions).

(** A run from the callbacks' initial state [w], with an empty call log. *)
Definition estimate_chip_sales (quarters : list quarter)
  (versions : list version) (n_samples : nat) (w : W)
  : result (table num * run_state num W) :=
  estimate_chip_sales_from quarters versions n_samples
    {| world := w; calls := [] |}.

End Engine.

(** ** [normalize_shares] *)

Section Normalize.

Context {num : Type} `{PyNum num}.

(** [{k: v / total for k, v in raw_shares.items()}] *)
Definition normalize_item (total : num) (item : version * num)
  (out : dict version num) : result (dict version num) :=
  let (k, v) := item in
  result_bind (div_or_raise v total) (fun share => Ok (PyDict.set out k share)).

Definition normalize_shares (raw_shares : dict version num)
  : result (dict version num) :=
  let total := py_sum (PyDict.values raw_shares) in
  result_fold (normalize_item total) (PyDict.items raw_shares) [].

End Normalize.

(** ** [compute_h100_equivalents] *)

(** A value of [chip_counts]: one count, or an array of samples. *)
Inductive counts (num : Type) : Type :=
| Count (c : num)
| Samples (cs : list num).

Arguments Count {num} c.
Arguments Samples {num} cs.

Section Convert.

Context {num : Type} `{PyNum num}.

(** [counts * k], elementwise on an array. *)
Definition scale (c : counts num) (k : num) : counts num :=
  match c with
  | Count x => Count (num_mul x k)
  | Samples xs => Samples (map (fun x => num_mul x k) xs)
  end.

(** [k * counts], elementwise on an array. *)
Definition rescale (k : num) (c : counts num) : counts num :=
  match c with
  | Count x => Count (num_mul k x)
  | Samples xs => Samples (map (num_mul k) xs)
  end.

(** [chip_specs[version]['tops']] *)
Definition spec_tops (chip_specs : dict version (dict string num))
  (v : version) : result num :=
  match PyDict.get chip_specs v with
  | None => Raise KeyError
  | Some spec =>
      match PyDict.get spec "tops"%string with
      | None => Raise KeyError
      | Some tops => Ok tops
      end
  end.

Definition convert_item (chip_specs : dict version (dict string num))
  (h100_tops : num) (item : version * counts num)
  (out : dict version (counts num)) : result (dict version (counts num)) :=
  let (v, c) := item in
  result_bind (spec_tops chip_specs v) (fun tops =>
  result_bind (div_or_raise tops h100_tops) (fun ratio =>
  Ok (PyDict.set out v (scale c ratio)))).

Definition compute_h100_equivalents (chip_counts : dict version (counts num))
  (chip_specs : dict version (dict string num)) (h100_tops : num)
  : result (dict version (counts num)) :=
  result_fold (convert_item chip_specs h100_tops) (PyDict.items chip_counts) [].

End Convert.

(** ** Percentiles over exact rationals *)

Definition QcZ (z : Z) : Qc := Q2Qc (inject_Z z).

Definition Qc_leb (x y : Qc) : bool := Qle_bool x y.
Definition Qc_ltb (x y : Qc) : bool := negb (Qle_bool y x).
Definition Qc_floor (x : Qc) : Z := Qfloor x.
Definition Qc_ceiling (x : Qc) : Z := Qceiling x.

(** The default H100 throughput, [h100_tops=1979]. *)
Definition default_h100_tops : Qc := QcZ 1979.

Fixpoint insert_sorted (x : Qc) (l : list Qc) : list Qc :=
  match l with
  | [] => [x]
  | y :: rest => if Qc_leb x y then x :: l else y :: insert_sorted x rest
  end.

(** The samples in ascending order. *)
Definition sort_samples (l : list Qc) : list Qc := fold_right insert_sorted [] l.

(** NumPy's interpolation between two neighbours with weight [t]. *)
Definition lerp (a b t : Qc) : Qc :=
  if Qc_leb (Q2Qc (1 # 2)) t
  then (b - (b - a) * (Q2Qc 1 - t))%Qc
  else (a + (b - a) * t)%Qc.

(** Modelled from the spec: [numpy.percentile] is a library routine that is
    not part of the sources. This is its default ("linear") method, the one
    section 4.3 describes, laid out the way NumPy computes it: the virtual
    index [(n - 1) * p / 100], the previous index (its floor) and the next
    index (one more), both moved to the last element when the virtual index
    reaches it, and the interpolation weight. A percentile outside
    [[0, 100]] is a [ValueError]; an empty array has no percentile. *)
Definition np_percentile (samples : list Qc) (p : Qc) : result Qc :=
  if negb (Qc_leb (QcZ 0) p && Qc_leb p (QcZ 100)) then Raise ValueError
  else
    match samples with
    | [] => Raise IndexError
    | _ :: _ =>
        let arr := sort_samples samples in
        let last := (Z.of_nat (List.length samples) - 1)%Z in
        let virtual_index := (QcZ last * (p / QcZ 100))%Qc in
        let above := Qc_leb (QcZ last) virtual_index in
        let previous := if above then last else Qc_floor virtual_index in
        let next := if above then last else (Qc_floor virtual_index + 1)%Z in
        let gamma := (virtual_index - QcZ (Qc_floor virtual_index))%Qc in
        Ok (lerp (nth (Z.to_nat previous) arr (QcZ 0))
                 (nth (Z.to_nat next) arr (QcZ 0)) gamma)
    end.

(** The percentile as section 4.3 words it: with [h = p/100 * (n-1)],
    interpolate linearly between the sorted samples at [floor h] and
    [ceil h]. *)
Definition interpolated_order_statistic (sorted : list Qc) (p : Qc) : Qc :=
  let h := (p / QcZ 100 * QcZ (Z.of_nat (List.length sorted) - 1))%Qc in
  let lo := nth (Z.to_nat (Qc_floor h)) sorted (QcZ 0) in
  let hi := nth (Z.to_nat (Qc_ceiling h)) sorted (QcZ 0) in
  (lo + (h - QcZ (Qc_floor h)) * (hi - lo))%Qc.

(** [{p: np.percentile(samples, p) for p in percentiles}] *)
Definition percentile_item (samples : list Qc) (p : Qc) (out : dict Qc Qc)
  : result (dict Qc Qc) :=
  result_bind (np_percentile samples p) (fun x => Ok (PyDict.set out p x)).

Definition get_percentiles (samples : list Qc) (percentiles : list Qc)
  : result (dict Qc Qc) :=
  result_fold (percentile_item samples) percentiles [].

(** [percentiles=[5, 50, 95]] *)
Definition default_percentiles : list Qc := [QcZ 5; QcZ 50; QcZ 95].

(** ** [format_thousands] and [summarize_quarterly_by_chip] *)

(** [round(x)]: to the nearest integer, ties to the even one. *)
Definition py_round (x : Qc) : Z :=
  let f := Qc_floor x in
  let r := (x - QcZ f)%Qc in
  if Qc_ltb r (Q2Qc (1 # 2)) then f
  else if Qc_ltb (Q2Qc (1 # 2)) r then (f + 1)%Z
  else if Z.even f then f else (f + 1)%Z.

Definition str_of_Z (z : Z) : string := NilZero.string_of_int (Z.to_int z).

(** [f"{round(n / 1000)}k"], on an exact number: the quotient is exact and
    finite. (On a double the code rounds the quotient to a double before
    [round] sees it, and [round] raises on a NaN or an infinity.) *)
Definition format_thousands (n : Qc) : string :=
  (str_of_Z (py_round (n / QcZ 1000)%Qc) ++ "k")%string.

(** [total += arr] on NumPy arrays: elementwise, a one-element [arr] being
    broadcast, any other length mismatch a [ValueError]. *)
Definition add_arrays (total arr : list Qc) : result (list Qc) :=
  if Nat.eqb (List.length arr) (List.length total)
  then Ok (map (fun xy => (fst xy + snd xy)%Qc) (combine total arr))
  else
    match arr with
    | [x] => Ok (map (fun t => (t + x)%Qc) total)
    | _ => Raise ValueError
    end.

(** [np.zeros(n)] *)
Definition np_zeros (n : nat) : list Qc := repeat (QcZ 0) n.

Section Summary.

Variable format_fn : Qc -> string.

(** [p5], [p50], [p95] of an array, then [f"{p50} ({p5}-{p95})"]. The
    percentiles are exact and finite, and [format_fn] is a function that
    returns: a formatter that raises on a NaN or an infinity has no
    occasion to. *)
Definition summary_text (arr : list Qc) : result string :=
  result_bind (np_percentile arr (QcZ 5)) (fun p5 =>
  result_bind (np_percentile arr (QcZ 50)) (fun p50 =>
  result_bind (np_percentile arr (QcZ 95)) (fun p95 =>
  Ok (format_fn p50 ++ " (" ++ format_fn p5 ++ "-" ++ format_fn p95 ++ ")")
     %string))).

(** The body of [for chip_type in chip_types], carrying [row] and [total]. *)
Definition chip_step (results : table Qc) (q : quarter) (chip_type : version)
  (acc : dict string string * list Qc)
  : result (dict string string * list Qc) :=
  let (row, total) := acc in
  match cell results q chip_type with
  | None => Raise KeyError
  | Some arr =>
      result_bind (add_arrays total arr) (fun total' =>
      if Qc_gt0 (py_sum arr)
      then result_bind (summary_text arr) (fun text =>
           Ok (PyDict.set row chip_type text, total'))
      else Ok (PyDict.set row chip_type "-"%string, total'))
  end.

(** [row = {'Quarter': quarter}], [total = np.zeros(n_samples)] and the
    loop over the chip types. *)
Definition chip_loop (results : table Qc) (chip_types : list version)
  (n_samples : nat) (q : quarter)
  : result (dict string string * list Qc) :=
  result_fold (chip_step results q) chip_types
    ([("Quarter"%string, q)], np_zeros n_samples).

(** The body of [for quarter in quarters]: the row of a quarter, with its
    ['Total'] entry. *)
Definition summary_row (results : table Qc) (chip_types : list version)
  (n_samples : nat) (q : quarter) : result (dict string string) :=
  result_bind (chip_loop results chip_types n_samples q) (fun acc =>
  let (row, total) := acc in
  result_bind (summary_text total) (fun text =>
  Ok (PyDict.set row "Total"%string text))).

(** One cell of [pd.DataFrame(rows)[cols]]. *)
Definition select_cell (row : dict string string) (c : string)
  : result (string * string) :=
  match PyDict.get row c with
  | Some text => Ok (c, text)
  | None => Raise KeyError
  end.

(** [pd.DataFrame(rows)[cols]]: every row read at the columns [cols]. *)
Definition select_columns (rows : list (dict string string))
  (cols : list string) : result (list (list (string * string))) :=
  append_each (fun row => append_each (select_cell row) cols []) rows [].

Definition summarize_quarterly_by_chip (results : table Qc)
  : result (list (list (string * string))) :=
  match PyDict.keys results with
  | [] => Raise IndexError
  | (q0 :: _) as quarters =>
      match PyDict.get results q0 with
      | None => Raise KeyError
      | Some row0 =>
          match PyDict.keys row0 with
          | [] => Raise IndexError
          | (c0 :: _) as chip_types =>
              match PyDict.get row0 c0 with
              | None => Raise KeyError
              | Some samples0 =>
                  let n_samples := List.length samples0 in
                  result_bind
                    (append_each (summary_row results chip_types n_samples)
                       quarters [])
                    (fun rows =>
                       select_columns rows
                         ("Quarter"%string :: chip_types ++ ["Total"%string]))
              end
          end
      end
  end.

End Summary.

(** ** [samples_to_percentile_dict] and [export_quarterly_by_version] *)

(** [int(x)]: the integer part, rounding toward zero. *)
Definition py_int (x : Qc) : Z := Z.quot (Qnum x) (Zpos (Qden x)).

(** [f'p{p}'] for an integer percentile [p]. *)
Definition percentile_key (p : Z) : string := ("p" ++ str_of_Z p)%string.

(** [{f'p{p}': int(np.percentile(samples, p)) for p in percentiles}], for
    integer percentiles such as the default [[5, 50, 95]]. *)
Definition percentile_dict_item (samples : list Qc) (p : Z)
  (out : dict string Z) : result (dict string Z) :=
  result_bind (np_percentile samples (QcZ p)) (fun x =>
  Ok (PyDict.set out (percentile_key p) (py_int x))).

Definition samples_to_percentile_dict (samples : list Qc)
  (percentiles : list Z) : result (dict string Z) :=
  result_fold (percentile_dict_item samples) percentiles [].

(** One row of the exported table. *)
Record export_row : Type := {
  row_quarter : quarter;
  row_version : version;
  chips_p5 : Z;
  chips_p50 : Z;
  chips_p95 : Z;
  h100e_p5 : Z;
  h100e_p50 : Z;
  h100e_p95 : Z
}.

(** [arr * k] on a NumPy array. *)
Definition scale_array (arr : list Qc) (k : Qc) : list Qc :=
  map (fun x => (x * k)%Qc) arr.

(** The body of [for version in chip_specs] for one quarter, carrying
    [rows]. Over exact rationals the products, the percentiles and their
    integer parts are exact, and every value is finite: the [int()] of a
    NaN or of an infinity, which raises in the code, does not arise. *)
Definition export_step (results : table Qc)
  (chip_specs : dict version (dict string Qc)) (h100_tops : Qc) (q : quarter)
  (v : version) (rows : list export_row) : result (list export_row) :=
  match cell results q v with
  | None => Raise KeyError
  | Some arr =>
      if Qc_gt0 (py_sum arr)
      then
        result_bind (spec_tops chip_specs v) (fun tops =>
        result_bind (div_or_raise tops h100_tops) (fun ratio =>
        let h100e_arr := scale_array arr ratio in
        result_bind (np_percentile arr (QcZ 5)) (fun c5 =>
        result_bind (np_percentile arr (QcZ 50)) (fun c50 =>
        result_bind (np_percentile arr (QcZ 95)) (fun c95 =>
        result_bind (np_percentile h100e_arr (QcZ 5)) (fun h5 =>
        result_bind (np_percentile h100e_arr (QcZ 50)) (fun h50 =>
        result_bind (np_percentile h100e_arr (QcZ 95)) (fun h95 =>
        Ok (rows ++ [{| row_quarter := q; row_version := v;
                        chips_p5 := py_int c5; chips_p50 := py_int c50;
                        chips_p95 := py_int c95;
                        h100e_p5 := py_int h5; h100e_p50 := py_int h50;
                        h100e_p95 := py_int h95 |}])))))))))
      else Ok rows
  end.

(** The rows of the returned DataFrame, in the order they are appended.
    Writing them to [output_path] is left out; [n_samples] is not used by
    the code. *)
Definition export_quarterly_by_version (results : table Qc)
  (chip_specs : dict version (dict string Qc)) (h100_tops : Qc)
  : result (list export_row) :=
  result_fold
    (fun q rows =>
       result_fold (export_step results chip_specs h100_tops q)
         (PyDict.keys chip_specs) rows)
    (PyDict.keys results) [].

(** ** [print_cumulative_summary] *)

(** [s.ljust(width)] and [s.rjust(width)], the [<width] and [>width] of a
    format specification. *)
Definition ljust (s : string) (width : nat) : string :=
  (s ++ string_of_list_ascii (repeat " "%char (width - String.length s)))
  %string.

Definition rjust (s : string) (width : nat) : string :=
  (string_of_list_ascii (repeat " "%char (width - String.length s)) ++ s)
  %string.

(** Digits, least significant first, with a comma after every third one
    that has a successor. *)
Fixpoint group_thousands (digits : list Ascii.ascii) (k : nat)
  : list Ascii.ascii :=
  match digits with
  | [] => []
  | c :: rest =>
      if Nat.eqb k 3
      then ","%char :: c :: group_thousands rest 1
      else c :: group_thousands rest (S k)
  end.

(** [f"{z:,}"] *)
Definition format_commas (z : Z) : string :=
  let digits := list_ascii_of_string (str_of_Z (Z.abs z)) in
  let grouped :=
    string_of_list_ascii (rev (group_thousands (rev digits) 0)) in
  if Z.ltb z 0 then ("-" ++ grouped)%string else grouped.

(** [f"{label:<6} {a:>12,} {b:>12,} {c:>12,}"] *)
Definition summary_line (label : string) (a b c : Z) : string :=
  (ljust label 6 ++ " " ++ rjust (format_commas a) 12 ++ " "
   ++ rjust (format_commas b) 12 ++ " " ++ rjust (format_commas c) 12)
  %string.

(** [f"{'Version':<6} {'p5':>12} {'p50':>12} {'p95':>12}"] *)
Definition summary_header : string :=
  (ljust "Version" 6 ++ " " ++ rjust "p5" 12 ++ " " ++ rjust "p50" 12 ++ " "
   ++ rjust "p95" 12)%string.

(** ["-" * 45] *)
Definition summary_rule : string := string_of_list_ascii (repeat "-"%char 45).

(** The element type of a NumPy array, as far as the in-place sum depends
    on it. *)
Inductive dtype : Type := Int64 | Float64.

(** A one-dimensional NumPy array: its element type and its elements. *)
Record ndarray : Type := {
  array_dtype : dtype;
  array_data : list Qc
}.

(** [np.zeros_like(arr)]: zeros of the shape and of the element type of
    [arr]. *)
Definition np_zeros_like (arr : ndarray) : ndarray :=
  {| array_dtype := array_dtype arr;
     array_data := np_zeros (List.length (array_data arr)) |}.

(** [total += arr], in place: the sum is stored with the element type of
    [total], and NumPy refuses to store the float sum of an integer
    [total] and a float [arr] ([UFuncTypeError], a [TypeError]). *)
Definition iadd_arrays (total arr : ndarray) : result ndarray :=
  match array_dtype total, array_dtype arr with
  | Int64, Float64 => Raise TypeError
  | _, _ =>
      result_map
        (fun data => {| array_dtype := array_dtype total;
                        array_data := data |})
        (add_arrays (array_data total) (array_data arr))
  end.

(** What the function has done so far: the lines it printed, one per call
    of [print], and the grand total ([None] until a version counts). *)
Record summary_state : Type := {
  printed : list string;
  grand_total : option ndarray
}.

(** The line of an array: the integer parts of its p5, p50 and p95. The
    percentiles are exact and finite: the [int()] of a NaN or of an
    infinity, which raises in the code, does not arise. *)
Definition percentile_line (label : string) (arr : list Qc) : result string :=
  result_bind (np_percentile arr (QcZ 5)) (fun p5 =>
  result_bind (np_percentile arr (QcZ 50)) (fun p50 =>
  result_bind (np_percentile arr (QcZ 95)) (fun p95 =>
  Ok (summary_line label (py_int p5) (py_int p50) (py_int p95))))).

(** The body of [for version in chip_specs]. *)
Definition cumulative_step (cumulative : dict version ndarray)
  (v : version) (st : summary_state) : result summary_state :=
  match PyDict.get cumulative v with
  | None => Raise KeyError
  | Some arr =>
      if Qc_gt0 (py_sum (array_data arr))
      then
        let start := match grand_total st with
                     | None => np_zeros_like arr
                     | Some total => total
                     end in
        result_bind (iadd_arrays start arr) (fun total =>
        result_bind (percentile_line v (array_data arr)) (fun line =>
        Ok {| printed := printed st ++ [line];
              grand_total := Some total |}))
      else Ok st
  end.

(** The lines printed by a call that returns; an exception raised in the
    loop is the outcome instead. *)
Definition print_cumulative_summary (cumulative : dict version ndarray)
  (chip_specs : dict version (dict string Qc)) (title : string)
  : result (list string) :=
  let newline := String (Ascii.ascii_of_nat 10) EmptyString in
  result_bind
    (result_fold (cumulative_step cumulative) (PyDict.keys chip_specs)
       {| printed := [(newline ++ title)%string; summary_header; summary_rule];
          grand_total := None |})
    (fun st =>
       match grand_total st with
       | None => Ok (printed st)
       | Some total =>
           result_bind (percentile_line "TOTAL" (array_data total))
             (fun line => Ok (printed st ++ [summary_rule; line]))
       end).

(** [title="Cumulative Production"] *)
Definition default_title : string := "Cumulative Production".

(** ** Scenarios *)

Module Scenario.

Section Callbacks.

Context {num : Type}.

(** [number n d] is the number written [n/d] in decimal, e.g. [0.6] as
    [number 6 10]. *)
Variable number : Z -> positive -> num.

(** [revenue(Q1) = 1000] *)
Definition sample_revenue (q : quarter) (w : unit) : num * unit :=
  (number 1000 1, w).

(** [shares(Q1) = {"A": 0.6, "B": 0.4}] *)
Definition sample_shares (q : quarter) (w : unit)
  : dict version num * unit :=
  ([("A"%string, number 6 10); ("B"%string, number 4 10)], w).

(** [price(Q1, "A") = 10], [price(Q1, "B") = 20] *)
Definition sample_price (q : quarter) (v : version) (w : unit) : num * unit :=
  (if String.eqb v "A" then number 10 1 else number 20 1, w).

(** A share map that leaves ["B"] out: [{"A": 1.0}]. *)
Definition sample_shares_A_only (q : quarter) (w : unit)
  : dict version num * unit :=
  ([("A"%string, number 1 1)], w).

End Callbacks.

Definition float_number (n : Z) (d : positive) : Binary64.float :=
  Binary64.lit n (Zpos d).

Definition Qc_number (n : Z) (d : positive) : Qc := Q2Qc (n # d)%Q.

(** [chip_specs = {"A100": {"tops": 624}}], in binary64. *)
Definition a100_specs : dict version (dict string Binary64.float) :=
  [("A100"%string, [("tops"%string, Binary64.of_Z 624)])].

(** Two chip types whose volumes never occur in the same trial. *)
Definition uncorrelated : table Qc :=
  [("Q1"%string,
    [("A"%string, [QcZ 0; QcZ 0; QcZ 10000]);
     ("B"%string, [QcZ 10000; QcZ 0; QcZ 0])])].

End Scenario.

(** Tables for the export and the cumulative summary. *)
Module Tables.

(** One quarter, chip ["A"] with volume and chip ["B"] without. *)
Definition one_quarter : table Qc :=
  [("Q1"%string,
    [("A"%string, [QcZ 4000; QcZ 1000; QcZ 3000; QcZ 2000]);
     ("B"%string, [QcZ 0; QcZ 0; QcZ 0; QcZ 0])])].

(** [{"A": {"tops": 3958}, "B": {"tops": 1979}}] *)
Definition two_specs : dict version (dict string Qc) :=
  [("A"%string, [("tops"%string, QcZ 3958)]);
   ("B"%string, [("tops"%string, QcZ 1979)])].

(** The same with a chip ["C"] that the results do not have. *)
Definition three_specs : dict version (dict string Qc) :=
  two_specs ++ [("C"%string, [("tops"%string, QcZ 1979)])].

(** Cumulative counts, as float arrays: ["A"] and ["C"] have a positive
    sum, ["B"] has entries that cancel. *)
Definition cumulative_counts : dict version ndarray :=
  [("A"%string,
    {| array_dtype := Float64;
       array_data := [QcZ 4000; QcZ 1000; QcZ 3000; QcZ 2000] |});
   ("B"%string,
    {| array_dtype := Float64;
       array_data := [QcZ 500; QcZ (-500); QcZ 0; QcZ 0] |});
   ("C"%string,
    {| array_dtype := Float64;
       array_data := [QcZ 100; QcZ 100; QcZ 100; QcZ 100] |})].

(** An integer array followed by a float array. *)
Definition mixed_counts : dict version ndarray :=
  [("A"%string,
    {| array_dtype := Int64; array_data := [QcZ 4000; QcZ 1000] |});
   ("B"%string,
    {| array_dtype := Float64;
       array_data := [Q2Qc (1 # 2); Q2Qc (3 # 2)] |})].

(** Two quarters, the second without chip ["B"]. *)
Definition ragged : table Qc :=
  [("Q1"%string,
    [("A"%string, [QcZ 1000; QcZ 2000]); ("B"%string, [QcZ 0; QcZ 0])]);
   ("Q2"%string, [("A"%string, [QcZ 3000; QcZ 4000])])].

(** A price callback that returns 0 for every chip. *)
Definition zero_price (q : quarter) (v : version) (w : unit) : Qc * unit :=
  (QcZ 0, w).

End Tables.

(** ** Vocabulary of the statements *)

(** What a run establishes: [Q] of its value and final state when it
    returns, [E] of the exception when it raises. *)
Definition post {num W A} (r : result (A * run_state num W))
  (Q : A -> run_state num W -> Prop) (E : exn -> Prop) : Prop :=
  match r with
  | Ok (a, st) => Q a st
  | Raise e => E e
  end.

(** Every declared (quarter, version) pair has a cell. *)
Definition covers {num} (results : table num) (quarters : list quarter)
  (versions : list version) : Prop :=
  forall q v, In q quarters -> In v versions -> cell results q v <> None.

(** Number of samples in a cell ([0] for a cell that does not exist). *)
Definition cell_len {num} (results : table num) (q : quarter) (v : version)
  : nat :=
  match cell results q v with
  | Some samples => List.length samples
  | None => 0
  end.

(** Every sample of a cell satisfies [P]. *)
Definition cell_all {num} (P : num -> Prop) (results : table num)
  (q : quarter) (v : version) : Prop :=
  forall samples, cell results q v = Some samples -> Forall P samples.

(** The share map drawn by this call gives [v] a share that is not [> 0]. *)
Definition no_volume {num} `{PyNum num} (v : version) (c : call num) : Prop :=
  match c with
  | CallShares _ shares =>
      num_gt0 (PyDict.get_default shares v num_zero) = false
  | _ => True
  end.

(** The share map drawn by this call gives [v] the share [0] exactly, or
    does not mention [v]. *)
Definition zero_share {num} `{PyNum num} (v : version) (c : call num) : Prop :=
  match c with
  | CallShares _ shares => PyDict.get_default shares v num_zero = num_zero
  | _ => True
  end.

(** The call is an invocation of the price callback for [v]. *)
Definition is_price_call {num} (v : version) (c : call num) : Prop :=
  match c with
  | CallPrice _ v' _ => v' = v
  | _ => False
  end.

(** The only exception a run raises: a division by a price that the number
    type cannot divide by. *)
Definition bad_price {num W} `{PyNum num}
  (sample_price : quarter -> version -> W -> num * W) (e : exn) : Prop :=
  e = ZeroDivisionError /\
  exists q v w x, num_div x (fst (sample_price q v w)) = None.

(** As long as no share map drawn so far gave [v0] a volume, the cell
    [(q0, v0)] holds zeros only and the price callback was never invoked
    for [v0]. *)
Definition idle {num W} `{PyNum num} (q0 : quarter) (v0 : version)
  (results : table num) (st : run_state num W) : Prop :=
  Forall (no_volume v0) (calls st) ->
  cell_all (eq num_zero) results q0 v0 /\
  Forall (fun c => ~ is_price_call v0 c) (calls st).

(** A NaN or an infinity. *)
Definition nan_or_inf (x : float64) : bool :=
  match as_float x with
  | S754_nan | S754_infinity _ => true
  | _ => false
  end.

(** A number every number can be divided by. *)
Definition divisor {num} `{PyNum num} (d : num) : Prop :=
  forall x, num_div x d <> None.

(** Every version of [chip_counts] has a spec with a ['tops'] entry. *)
Definition covered_by {num} (chip_counts : dict version (counts num))
  (chip_specs : dict version (dict string num)) : Prop :=
  forall v, In v (PyDict.keys chip_counts) ->
    exists spec tops,
      PyDict.get chip_specs v = Some spec /\
      PyDict.get spec "tops"%string = Some tops.

(** [total] is the elementwise sum of [arrays], arrays of length [n]:
    [total[i] = sum(arr[i] for arr in arrays)]. *)
Definition elementwise_sum_of (arrays : list (list Qc)) (n : nat)
  (total : list Qc) : Prop :=
  List.length total = n /\
  forall i, i < n ->
    nth i total (QcZ 0) = py_sum (map (fun arr => nth i arr (QcZ 0)) arrays).

(** [list(results[quarters[0]].keys())] *)
Definition chip_types_of (results : table Qc) : list version :=
  match results with
  | [] => []
  | (_, row0) :: _ => PyDict.keys row0
  end.

(** The sample arrays of a quarter, one per chip type. *)
Definition arrays_of (results : table Qc) (chip_types : list version)
  (q : quarter) : list (list Qc) :=
  map (fun c => match cell results q c with
                | Some arr => arr
                | None => []
                end) chip_types.

(** Every quarter has, for every chip type, an array of [n] samples. *)
Definition rectangular (results : table Qc) (n : nat) : Prop :=
  forall q c,
    In q (PyDict.keys results) -> In c (chip_types_of results) ->
    exists arr, cell results q c = Some arr /\ List.length arr = n.

(** [text] is ["p50 (p5-p95)"] for the percentiles of [arr]. *)
Definition percentile_text (format_fn : Qc -> string) (arr : list Qc)
  (text : string) : Prop :=
  exists p5 p50 p95,
    np_percentile arr (QcZ 5) = Ok p5 /\
    np_percentile arr (QcZ 50) = Ok p50 /\
    np_percentile arr (QcZ 95) = Ok p95 /\
    text = (format_fn p50 ++ " (" ++ format_fn p5 ++ "-" ++ format_fn p95
            ++ ")")%string.


(** The cell exists and its samples have a positive sum: [arr.sum() > 0]. *)
Definition positive_cell (results : table Qc) (q : quarter) (v : version)
  : bool :=
  match cell results q v with
  | Some arr => Qc_gt0 (py_sum arr)
  | None => false
  end.

(** What a row says of its cell, in terms of the other utilities: the chip
    columns are the entries that [samples_to_percentile_dict] returns for
    the samples of the cell, and the H100-equivalent columns are the
    entries it returns for the array that [compute_h100_equivalents]
    returns for these samples. *)
Definition export_row_ok (results : table Qc)
  (chip_specs : dict version (dict string Qc)) (h100_tops : Qc)
  (r : export_row) : Prop :=
  exists arr h100e_arr,
    cell results (row_quarter r) (row_version r) = Some arr /\
    compute_h100_equivalents [(row_version r, Samples arr)] chip_specs
      h100_tops
    = Ok [(row_version r, Samples h100e_arr)] /\
    samples_to_percentile_dict arr [5; 50; 95]%Z
    = Ok [("p5"%string, chips_p5 r); ("p50"%string, chips_p50 r);
          ("p95"%string, chips_p95 r)] /\
    samples_to_percentile_dict h100e_arr [5; 50; 95]%Z
    = Ok [("p5"%string, h100e_p5 r); ("p50"%string, h100e_p50 r);
          ("p95"%string, h100e_p95 r)].







(** The first three lines: the title after an empty line, the column
    header, the rule. *)
Definition summary_heading (title : string) : list string :=
  [(String (Ascii.ascii_of_nat 10) EmptyString ++ title)%string;
   summary_header; summary_rule].

(** What the callbacks returned in one pass of the quarter loop: the
    revenue and the share map of the quarter, and the price of each version
    a price was asked for. *)
Record draw (num : Type) : Type := {
  draw_quarter : quarter;
  draw_revenue : num;
  draw_shares : dict version num;
  draw_prices : dict version num
}.

(** The calls of a pass, in the order they are made. *)
Definition draw_calls {num} (d : draw num) : list (call num) :=
  CallRevenue (draw_quarter d) (draw_revenue d)
  :: CallShares (draw_quarter d) (draw_shares d)
  :: map (fun vp => CallPrice (draw_quarter d) (fst vp) (snd vp))
       (draw_prices d).

(** The share map gives the version a share [> 0]. *)
Definition has_volume {num} `{PyNum num} (shares : dict version num)
  (v : version) : bool :=
  num_gt0 (PyDict.get_default shares v num_zero).

(** [chips] is the sample of version [v] in the pass [d]:
    [revenue * share / price] when the share is [> 0], and [0] otherwise. *)
Definition draw_chips {num} `{PyNum num} (v : version) (d : draw num)
  (chips : num) : Prop :=
  if has_volume (draw_shares d) v
  then exists price,
         PyDict.get (draw_prices d) v = Some price /\
         num_div (num_mul (draw_revenue d)
                    (PyDict.get_default (draw_shares d) v num_zero)) price
         = Some chips
  else chips = num_zero.

Definition of_quarter {num} (q : quarter) (d : draw num) : bool :=
  String.eqb (draw_quarter d) q.

(** The table and the call log are those of the passes [draws]: the log is
    made of their calls, a price was asked exactly for the versions with a
    share [> 0], in the order of [versions], and the cell of a quarter and
    a version holds the samples of the passes over this quarter, oldest
    first. *)
Definition explained_by {num} `{PyNum num} (quarters : list quarter)
  (versions : list version) (draws : list (draw num)) (results : table num)
  (log : list (call num)) : Prop :=
  log = List.concat (map draw_calls draws) /\
  Forall (fun d => PyDict.keys (draw_prices d)
                   = filter (has_volume (draw_shares d)) versions) draws /\
  forall q v, In q quarters -> In v versions ->
    exists samples,
      cell results q v = Some samples /\
      Forall2 (draw_chips v) (filter (of_quarter q) draws) samples.

(** The cells during the loop over the versions of quarter [q], from the
    table [r0]: the versions already visited have received one sample. *)
Definition cells_during {num} `{PyNum num} (quarters : list quarter)
  (versions : list version) (r0 r : table num) (q : quarter)
  (seen : list version) (d : draw num) : Prop :=
  forall q' v', In q' quarters -> In v' versions ->
    exists old,
      cell r0 q' v' = Some old /\
      if key_eq_dec q q'
      then if in_dec string_dec v' seen
           then exists chips,
                  cell r q' v' = Some (old ++ [chips]) /\ draw_chips v' d chips
           else cell r q' v' = Some old
      else cell r q' v' = Some old.

(** The keys of the table are [quarters] and the keys of every row are
    [versions], in this order. *)
Definition keyed_by {num} (results : table num) (quarters : list quarter)
  (versions : list version) : Prop :=
  PyDict.keys results = quarters /\
  forall q row, PyDict.get results q = Some row -> PyDict.keys row = versions.

(** Occurrences of an identifier in a list of identifiers. *)
Definition occurrences (x : string) (xs : list string) : nat :=
  count_occ string_dec xs x.

(** * Properties *)

Unset Implicit Arguments.

(** ** Dictionaries *)

Module PyDictFacts.
Import PyDict.

Section Facts.
Context {K V : Type} `{KeyEq K}.

Lemma key_eqb_refl (k : K) : key_eqb k k = true.
Proof. now apply key_eqb_eq. Qed.

Lemma key_eqb_neq (x y : K) : x <> y -> key_eqb x y = false.
Proof.
  intros Hn. destruct (key_eqb x y) eqn:E; [|reflexivity].
  apply key_eqb_eq in E. contradiction.
Qed.

Lemma get_set_same (d : dict K V) k v : get (set d k v) k = Some v.
Proof.
  induction d as [|[k' v'] rest IH]; simpl.
  - now rewrite key_eqb_refl.
  - destruct (key_eqb k' k) eqn:E; simpl; rewrite E; auto.
Qed.

Lemma get_set_other (d : dict K V) k v k' :
  k <> k' -> get (set d k v) k' = get d k'.
Proof.
  intros Hn. induction d as [|[k0 v0] rest IH]; simpl.
  - now rewrite key_eqb_neq.
  - destruct (key_eqb k0 k) eqn:E; simpl.
    + apply key_eqb_eq in E. subst k0. now rewrite key_eqb_neq.
    + now rewrite IH.
Qed.

Lemma get_set (d : dict K V) k v k' :
  get (set d k v) k' = if key_eq_dec k k' then Some v else get d k'.
Proof.
  destruct (key_eq_dec k k') as [->|Hn].
  - apply get_set_same.
  - now apply get_set_other.
Qed.

Lemma get_In_keys (d : dict K V) k : get d k <> None <-> In k (keys d).
Proof.
  induction d as [|[k' v'] rest IH]; simpl.
  - tauto.
  - destruct (key_eqb k' k) eqn:E.
    + apply key_eqb_eq in E. split; [auto | discriminate].
    + rewrite IH. split; [auto | intros [->|]; auto].
      rewrite key_eqb_refl in E. discriminate.
Qed.

Lemma keys_set_present (d : dict K V) k v :
  In k (keys d) -> keys (set d k v) = keys d.
Proof.
  induction d as [|[k' v'] rest IH]; simpl; [tauto|].
  intros Hin. destruct (key_eqb k' k) eqn:E; simpl; [reflexivity|].
  f_equal. apply IH. destruct Hin as [->|]; auto.
  rewrite key_eqb_refl in E. discriminate.
Qed.

Lemma keys_set_absent (d : dict K V) k v :
  ~ In k (keys d) -> keys (set d k v) = keys d ++ [k].
Proof.
  induction d as [|[k' v'] rest IH]; simpl; [reflexivity|].
  intros Hnin. destruct (key_eqb k' k) eqn:E; simpl.
  - apply key_eqb_eq in E. tauto.
  - f_equal. apply IH. tauto.
Qed.

Lemma set_absent (d : dict K V) k v :
  ~ In k (keys d) -> set d k v = d ++ [(k, v)].
Proof.
  induction d as [|[k' v'] rest IH]; simpl; [reflexivity|].
  intros Hnin. destruct (key_eqb k' k) eqn:E.
  - apply key_eqb_eq in E. tauto.
  - f_equal. apply IH. tauto.
Qed.


Lemma set_map_values {V'} (f : V -> V') (d : dict K V) k v :
  set (map_values f d) k (f v) = map_values f (set d k v).
Proof.
  induction d as [|[k' v'] rest IH]; simpl; [reflexivity|].
  destruct (key_eqb k' k); simpl; [reflexivity|]. now rewrite IH.
Qed.

Lemma keys_map_values {V'} (f : V -> V') (d : dict K V) :
  keys (map_values f d) = keys d.
Proof. unfold keys, map_values. now rewrite map_map. Qed.

Lemma get_fold_set (f : K -> V) ks (d : dict K V) k :
  get (fold_left (fun d k => set d k (f k)) ks d) k =
  if in_dec key_eq_dec k ks then Some (f k) else get d k.
Proof.
  revert d. induction ks as [|k0 ks IH]; intros d; simpl; [reflexivity|].
  rewrite IH. destruct (in_dec key_eq_dec k ks) as [Hin|Hnin].
  - destruct (key_eq_dec k0 k); reflexivity.
  - rewrite get_set. destruct (key_eq_dec k0 k) as [->|Hn]; reflexivity.
Qed.

Lemma get_comprehension ks (f : K -> V) k :
  get (comprehension ks f) k =
  if in_dec key_eq_dec k ks then Some (f k) else None.
Proof. unfold comprehension. now rewrite get_fold_set. Qed.

End Facts.

End PyDictFacts.

(** ** Reasoning about runs *)

Section RunLogic.

Context {num W : Type}.

Lemma post_bind {A B} (m : M num W A) (f : A -> M num W B) st
  (Q : B -> run_state num W -> Prop) (E : exn -> Prop) :
  post (m st) (fun a st' => post (f a st') Q E) E ->
  post (bind m f st) Q E.
Proof.
  unfold bind, post. destruct (m st) as [[a st']|e]; auto.
Qed.

Lemma post_weaken {A} (r : result (A * run_state num W))
  (Q Q' : A -> run_state num W -> Prop) (E E' : exn -> Prop) :
  post r Q E ->
  (forall a st, Q a st -> Q' a st) ->
  (forall e, E e -> E' e) ->
  post r Q' E'.
Proof.
  unfold post. destruct r as [[a st]|e]; auto.
Qed.

(** Loop rule: the invariant [I] is indexed by the items already visited. *)
Lemma for_each_post {X A} (body : X -> A -> M num W A)
  (I : list X -> A -> run_state num W -> Prop) (E : exn -> Prop) :
  forall xs visited,
    (forall x a st seen rest,
        visited ++ xs = seen ++ x :: rest ->
        I seen a st -> post (body x a st) (I (seen ++ [x])) E) ->
    forall a st,
      I visited a st ->
      post (for_each xs body a st) (I (visited ++ xs)) E.
Proof.
  induction xs as [|x xs IH]; intros visited Hbody a st HI.
  - simpl. now rewrite app_nil_r.
  - simpl. apply post_bind.
    eapply post_weaken; [apply (Hbody x a st visited xs eq_refl HI)| |auto].
    intros a' st' HI'.
    replace (visited ++ x :: xs) with ((visited ++ [x]) ++ xs)
      by (now rewrite <- app_assoc).
    apply IH; [|exact HI'].
    intros y b s seen rest Heq.
    apply (Hbody y b s seen rest). now rewrite <- Heq, <- app_assoc.
Qed.

(** Loop rule for [range]: the invariant is indexed by the rounds done. *)
Lemma for_range_post {A} (body : A -> M num W A)
  (I : nat -> A -> run_state num W -> Prop) (E : exn -> Prop) :
  forall n done,
    (forall k a st, I k a st -> post (body a st) (I (S k)) E) ->
    forall a st,
      I done a st ->
      post (for_range n body a st) (I (done + n)) E.
Proof.
  induction n as [|n IH]; intros done Hbody a st HI.
  - simpl. now rewrite Nat.add_0_r.
  - simpl. apply post_bind.
    eapply post_weaken; [apply (Hbody done a st HI)| |auto].
    intros a' st' HI'.
    replace (done + S n) with (S done + n) by lia.
    now apply IH.
Qed.

End RunLogic.

(** ** The result table *)

Section TableFacts.

Context {num : Type}.

Lemma cell_init_results quarters versions q v :
  cell (init_results (num:=num) quarters versions) q v =
  if in_dec key_eq_dec q quarters
  then if in_dec key_eq_dec v versions then Some [] else None
  else None.
Proof.
  unfold cell, init_results.
  rewrite PyDictFacts.get_comprehension.
  destruct (in_dec key_eq_dec q quarters); [|reflexivity].
  now rewrite PyDictFacts.get_comprehension.
Qed.

Lemma append_sample_cell (results : table num) q v x samples :
  cell results q v = Some samples ->
  exists results',
    append_sample results q v x = Ok results' /\
    forall q' v',
      cell results' q' v' =
      if key_eq_dec q q'
      then if key_eq_dec v v' then Some (samples ++ [x])
           else cell results q' v'
      else cell results q' v'.
Proof.
  unfold cell, append_sample. intros Hc.
  destruct (PyDict.get results q) as [row|] eqn:Hrow; [|discriminate].
  rewrite Hc. eexists; split; [reflexivity|].
  intros q' v'. rewrite PyDictFacts.get_set.
  destruct (key_eq_dec q q') as [<-|Hq].
  - rewrite PyDictFacts.get_set, Hrow.
    destruct (key_eq_dec v v'); reflexivity.
  - reflexivity.
Qed.

End TableFacts.

(** ** One pass of the engine's loops *)

Section EngineFacts.

Context {num : Type} `{PyNum num} {W : Type}.

Variable sample_revenue : quarter -> W -> num * W.
Variable sample_shares : quarter -> W -> dict version num * W.
Variable sample_price : quarter -> version -> W -> num * W.

Variable quarters : list quarter.
Variable versions : list version.

(** The cell under observation. *)
Variable q0 : quarter.
Variable v0 : version.

Lemma covers_append (results results' : table num) q v x :
  covers results quarters versions ->
  append_sample results q v x = Ok results' ->
  covers results' quarters versions.
Proof.
  intros Hcov Happ q' v' Hq' Hv'.
  destruct (cell results q v) as [samples|] eqn:Hc.
  - destruct (append_sample_cell results q v x _ Hc) as (r & Hr & Hcell).
    rewrite Hr in Happ. injection Happ as <-. rewrite Hcell.
    destruct (key_eq_dec q q'); [destruct (key_eq_dec v v')|];
      try discriminate; now apply Hcov.
  - unfold append_sample, cell in *.
    destruct (PyDict.get results q); [rewrite Hc in Happ|]; discriminate.
Qed.

Lemma idle_append_zero (results results' : table num) q v
  (st : run_state num W) :
  idle q0 v0 results st ->
  append_sample results q v num_zero = Ok results' ->
  idle q0 v0 results' st.
Proof.
  intros Hidle Happ Hlog. destruct (Hidle Hlog) as [Hall Hprice].
  split; [|exact Hprice].
  intros samples' Hs'.
  destruct (cell results q v) as [samples|] eqn:Hc.
  - destruct (append_sample_cell results q v num_zero _ Hc) as (r & Hr & Hcell).
    rewrite Hr in Happ. injection Happ as <-. rewrite Hcell in Hs'.
    destruct (key_eq_dec q q0) as [->|]; [destruct (key_eq_dec v v0) as [->|]|];
      try now apply Hall.
    injection Hs' as <-. apply Forall_app. split; [now apply Hall|].
    now constructor.
  - unfold append_sample, cell in *.
    destruct (PyDict.get results q); [rewrite Hc in Happ|]; discriminate.
Qed.

Lemma version_step_post q revenue shares v (results : table num)
  (st : run_state num W) n :
  In q quarters -> In v versions ->
  covers results quarters versions ->
  In (CallShares q shares) (calls st) ->
  cell_len results q0 v0 = n ->
  idle q0 v0 results st ->
  post (version_step sample_price q revenue shares v results st)
    (fun results' st' =>
       covers results' quarters versions /\
       In (CallShares q shares) (calls st') /\
       cell_len results' q0 v0 =
         n + (if key_eq_dec q q0
              then if key_eq_dec v v0 then 1 else 0
              else 0) /\
       idle q0 v0 results' st')
    (bad_price sample_price).
Proof.
  intros Hq Hv Hcov Hlogged Hlen Hidle.
  destruct (cell results q v) as [samples|] eqn:Hc;
    [|now destruct (Hcov q v Hq Hv)].
  assert (Hgrow : forall x results',
             append_sample results q v x = Ok results' ->
             cell_len results' q0 v0 =
               n + (if key_eq_dec q q0
                    then if key_eq_dec v v0 then 1 else 0
                    else 0)).
  { intros x results' Happ.
    destruct (append_sample_cell results q v x _ Hc) as (r & Hr & Hcell).
    rewrite Hr in Happ. injection Happ as <-.
    unfold cell_len in *. rewrite Hcell.
    destruct (key_eq_dec q q0) as [->|]; [destruct (key_eq_dec v v0) as [->|]|];
      try lia.
    rewrite Hc in Hlen. rewrite length_app. simpl. lia. }
  unfold version_step, bind, lift, ret, call_price, div_or_raise.
  destruct (num_gt0 (PyDict.get_default shares v num_zero)) eqn:Hshare.
  - destruct (sample_price q v (world st)) as [price w'] eqn:Hprice.
    destruct (num_div (num_mul revenue (PyDict.get_default shares v num_zero))
                price) as [chips|] eqn:Hdiv.
    + destruct (append_sample_cell results q v chips _ Hc) as (r & Hr & Hcell).
      rewrite Hr. simpl. split; [|split; [|split]].
      * eapply covers_append; eauto.
      * apply in_or_app. now left.
      * eapply Hgrow; eauto.
      * intros Hlog. apply Forall_app in Hlog. destruct Hlog as [Hlog _].
        destruct (Hidle Hlog) as [Hall Hnoprice].
        assert (Hne : v <> v0).
        { intros ->. rewrite Forall_forall in Hlog.
          specialize (Hlog _ Hlogged). simpl in Hlog. congruence. }
        split.
        -- intros samples' Hs'. rewrite Hcell in Hs'.
           destruct (key_eq_dec q q0); [destruct (key_eq_dec v v0)|];
             try contradiction; now apply Hall.
        -- apply Forall_app. split; [exact Hnoprice|].
           constructor; [|constructor]. simpl. exact Hne.
    + simpl. split; [reflexivity|].
      exists q, v, (world st),
        (num_mul revenue (PyDict.get_default shares v num_zero)).
      now rewrite Hprice.
  - destruct (append_sample_cell results q v num_zero _ Hc) as (r & Hr & Hcell).
    rewrite Hr. simpl. split; [|split; [|split]].
    + eapply covers_append; eauto.
    + exact Hlogged.
    + eapply Hgrow; eauto.
    + eapply idle_append_zero; eauto.
Qed.

Lemma occurrences_snoc (x y : string) (seen : list string) :
  occurrences x (seen ++ [y]) =
  occurrences x seen + (if key_eq_dec y x then 1 else 0).
Proof.
  unfold occurrences. rewrite count_occ_app. simpl.
  destruct (string_dec y x), (key_eq_dec y x); congruence.
Qed.

Lemma versions_loop_post q revenue shares (results : table num)
  (st : run_state num W) n :
  In q quarters ->
  covers results quarters versions ->
  In (CallShares q shares) (calls st) ->
  cell_len results q0 v0 = n ->
  idle q0 v0 results st ->
  post (for_each versions (version_step sample_price q revenue shares)
          results st)
    (fun results' st' =>
       covers results' quarters versions /\
       cell_len results' q0 v0 =
         n + (if key_eq_dec q q0 then occurrences v0 versions else 0) /\
       idle q0 v0 results' st')
    (bad_price sample_price).
Proof.
  intros Hq Hcov Hlogged Hlen Hidle.
  pose (I := fun (seen : list version) (r : table num)
                 (s : run_state num W) =>
               covers r quarters versions /\
               In (CallShares q shares) (calls s) /\
               cell_len r q0 v0 =
                 n + (if key_eq_dec q q0 then occurrences v0 seen else 0) /\
               idle q0 v0 r s).
  eapply post_weaken.
  - apply (for_each_post (version_step sample_price q revenue shares) I
             (bad_price sample_price) versions []).
    + intros v r s seen rest Heq (Hc & Hl & Hn & Hi).
      assert (Hv : In v versions).
      { simpl in Heq. rewrite Heq. apply in_or_app. right. now left. }
      eapply post_weaken;
        [apply (version_step_post q revenue shares v r s _ Hq Hv Hc Hl Hn Hi)
        | | auto].
      intros r' s' (Hc' & Hl' & Hn' & Hi'). unfold I.
      repeat (split; [assumption|]). split; [|assumption].
      rewrite Hn', occurrences_snoc.
      unfold version, quarter in *.
      destruct (key_eq_dec q q0); destruct (key_eq_dec v v0); lia.
    + unfold I. repeat (split; [assumption|]). split; [|assumption].
      unfold occurrences. simpl. destruct (key_eq_dec q q0); lia.
  - simpl. intros r s (Hc & _ & Hn & Hi). auto.
  - auto.
Qed.

Lemma quarter_step_post q (results : table num) (st : run_state num W) n :
  In q quarters ->
  covers results quarters versions ->
  cell_len results q0 v0 = n ->
  idle q0 v0 results st ->
  post (quarter_step sample_revenue sample_shares sample_price versions q
          results st)
    (fun results' st' =>
       covers results' quarters versions /\
       cell_len results' q0 v0 =
         n + (if key_eq_dec q q0 then occurrences v0 versions else 0) /\
       idle q0 v0 results' st')
    (bad_price sample_price).
Proof.
  intros Hq Hcov Hlen Hidle.
  unfold quarter_step, bind at 1, call_revenue.
  destruct (sample_revenue q (world st)) as [revenue w1].
  unfold bind at 1, call_shares. simpl.
  destruct (sample_shares q w1) as [shares w2].
  apply versions_loop_post; auto.
  - simpl. apply in_or_app. right. now left.
  - intros Hlog. simpl in Hlog.
    apply Forall_app in Hlog. destruct Hlog as [Hlog _].
    apply Forall_app in Hlog. destruct Hlog as [Hlog _].
    destruct (Hidle Hlog) as [Hall Hnoprice]. split; [exact Hall|].
    simpl. repeat (apply Forall_app; split); auto;
      constructor; simpl; auto.
Qed.

Lemma trial_step_post (results : table num) (st : run_state num W) n :
  covers results quarters versions ->
  cell_len results q0 v0 = n ->
  idle q0 v0 results st ->
  post (trial_step sample_revenue sample_shares sample_price quarters
          versions results st)
    (fun results' st' =>
       covers results' quarters versions /\
       cell_len results' q0 v0 =
         n + occurrences q0 quarters * occurrences v0 versions /\
       idle q0 v0 results' st')
    (bad_price sample_price).
Proof.
  intros Hcov Hlen Hidle.
  pose (I := fun (seen : list quarter) (r : table num)
                 (s : run_state num W) =>
               covers r quarters versions /\
               cell_len r q0 v0 =
                 n + occurrences q0 seen * occurrences v0 versions /\
               idle q0 v0 r s).
  unfold trial_step.
  apply (for_each_post
           (quarter_step sample_revenue sample_shares sample_price versions)
           I (bad_price sample_price) quarters []).
  - intros q r s seen rest Heq (Hc & Hn & Hi).
    assert (Hq : In q quarters).
    { simpl in Heq. rewrite Heq. apply in_or_app. right. now left. }
    eapply post_weaken;
      [apply (quarter_step_post q r s _ Hq Hc Hn Hi) | | auto].
    intros r' s' (Hc' & Hn' & Hi'). unfold I.
    split; [assumption|]. split; [|assumption].
    rewrite Hn', occurrences_snoc.
    unfold version, quarter in *.
    destruct (key_eq_dec q q0); nia.
  - unfold I. split; [assumption|]. split; [|assumption].
    unfold occurrences at 1. simpl. lia.
Qed.

Lemma estimate_from_post n_samples (st : run_state num W) :
  Forall (fun c => ~ is_price_call v0 c) (calls st) ->
  post (estimate_chip_sales_from sample_revenue sample_shares sample_price
          quarters versions n_samples st)
    (fun results' st' =>
       covers results' quarters versions /\
       cell_len results' q0 v0 =
         n_samples * (occurrences q0 quarters * occurrences v0 versions) /\
       idle q0 v0 results' st')
    (bad_price sample_price).
Proof.
  intros Hst.
  pose (I := fun (k : nat) (r : table num) (s : run_state num W) =>
               covers r quarters versions /\
               cell_len r q0 v0 =
                 k * (occurrences q0 quarters * occurrences v0 versions) /\
               idle q0 v0 r s).
  unfold estimate_chip_sales_from.
  apply (for_range_post
           (trial_step sample_revenue sample_shares sample_price quarters
              versions)
           I (bad_price sample_price) n_samples 0).
  - intros k r s (Hc & Hn & Hi).
    eapply post_weaken; [apply (trial_step_post r s _ Hc Hn Hi) | | auto].
    intros r' s' (Hc' & Hn' & Hi'). unfold I.
    split; [assumption|]. split; [|assumption]. lia.
  - unfold I. split; [|split].
    + intros q v Hq Hv. rewrite cell_init_results.
      destruct (in_dec key_eq_dec q quarters); [|contradiction].
      destruct (in_dec key_eq_dec v versions); [discriminate|contradiction].
    + unfold cell_len. rewrite cell_init_results.
      destruct (in_dec key_eq_dec q0 quarters);
        [destruct (in_dec key_eq_dec v0 versions)|]; reflexivity.
    + intros _. split; [|exact Hst].
      intros samples. rewrite cell_init_results.
      destruct (in_dec key_eq_dec q0 quarters);
        [destruct (in_dec key_eq_dec v0 versions)|]; try discriminate.
      intros [= <-]. constructor.
Qed.

End EngineFacts.

(** ** The engine on the one-trial scenario *)

(** C1. With quarters [["Q1"]], versions [["A"; "B"]], revenue 1000, shares
    [{"A": 0.6, "B": 0.4}], prices 10 and 20 and one trial,
    [estimate_chip_sales] returns a table whose cell [("Q1", "A")] is
    [[60.0]] and whose cell [("Q1", "B")] is [[20.0]]. This holds in
    binary64 arithmetic, where the two samples are the doubles of value 60
    and 20, and in exact arithmetic. *)
Theorem estimate_chip_sales_scenario :
  (exists results st,
      estimate_chip_sales
        (Scenario.sample_revenue Scenario.float_number)
        (Scenario.sample_shares Scenario.float_number)
        (Scenario.sample_price Scenario.float_number)
        ["Q1"%string] ["A"%string; "B"%string] 1 tt = Ok (results, st) /\
      PyDict.keys results = ["Q1"%string] /\
      cell results "Q1" "A" = Some [Binary64.of_Z 60] /\
      cell results "Q1" "B" = Some [Binary64.of_Z 20] /\
      Binary64.value (Binary64.of_Z 60) = Some (60 # 1)%Q /\
      Binary64.value (Binary64.of_Z 20) = Some (20 # 1)%Q) /\
  (exists results st,
      estimate_chip_sales
        (Scenario.sample_revenue Scenario.Qc_number)
        (Scenario.sample_shares Scenario.Qc_number)
        (Scenario.sample_price Scenario.Qc_number)
        ["Q1"%string] ["A"%string; "B"%string] 1 tt = Ok (results, st) /\
      PyDict.keys results = ["Q1"%string] /\
      cell results "Q1" "A" = Some [QcZ 60] /\
      cell results "Q1" "B" = Some [QcZ 20]).
Proof.
  split.
  - do 2 eexists. split; [vm_compute; reflexivity|].
    repeat split; vm_compute; reflexivity.
  - do 2 eexists. split; [vm_compute; reflexivity|].
    split; [reflexivity|].
    split; cbv [cell PyDict.get key_eqb string_KeyEq String.eqb Ascii.eqb
                  Bool.eqb];
      do 2 f_equal; apply Qc_is_canon; vm_compute; reflexivity.
Qed.

(** ** Shape of the result table *)

Lemma post_Ok {num W A} (r : result (A * run_state num W)) Q E a st :
  post r Q E -> r = Ok (a, st) -> Q a st.
Proof. intros Hp ->. exact Hp. Qed.

Lemma post_Raise {num W A} (r : result (A * run_state num W)) Q E e :
  post r Q E -> r = Raise e -> E e.
Proof. intros Hp ->. exact Hp. Qed.

Lemma occurrences_NoDup (x : string) (xs : list string) :
  NoDup xs -> In x xs -> occurrences x xs = 1.
Proof.
  intros Hnd Hin. unfold occurrences.
  apply (proj1 (NoDup_count_occ' string_dec xs) Hnd x Hin).
Qed.

Lemma Forall_eq_repeat {A} (x : A) (l : list A) :
  Forall (eq x) l -> l = repeat x (List.length l).
Proof.
  induction 1 as [|y l Hy _ IH]; simpl; [reflexivity|].
  now rewrite <- Hy, <- IH.
Qed.

Section EngineTheorems.

Context {num : Type} `{PyNum num} {W : Type}.

Variable sample_revenue : quarter -> W -> num * W.
Variable sample_shares : quarter -> W -> dict version num * W.
Variable sample_price : quarter -> version -> W -> num * W.

(** Every cell of the returned table holds one sample per trial and per
    occurrence of its quarter and of its version in the two lists. *)
Lemma estimate_chip_sales_cell_len quarters versions n_samples w results st
  q v :
  estimate_chip_sales sample_revenue sample_shares sample_price
    quarters versions n_samples w = Ok (results, st) ->
  cell_len results q v =
    n_samples * (occurrences q quarters * occurrences v versions).
Proof.
  intros Hrun.
  eapply (post_Ok _ _ _ _ _
            (estimate_from_post sample_revenue sample_shares sample_price
               quarters versions q v n_samples
               {| world := w; calls := [] |} (Forall_nil _)) Hrun).
Qed.

(** A run raises nothing but the division by a price that cannot be
    divided by, and returns when there is no such price. *)
Lemma estimate_chip_sales_raises quarters versions n_samples w e :
  estimate_chip_sales sample_revenue sample_shares sample_price
    quarters versions n_samples w = Raise e ->
  bad_price sample_price e.
Proof.
  intros Hrun.
  eapply (post_Raise _ _ _ _
            (estimate_from_post sample_revenue sample_shares sample_price
               quarters versions ""%string ""%string n_samples
               {| world := w; calls := [] |} (Forall_nil _)) Hrun).
Qed.

Lemma estimate_chip_sales_returns quarters versions n_samples w :
  (forall q v w' x, num_div x (fst (sample_price q v w')) <> None) ->
  exists results st,
    estimate_chip_sales sample_revenue sample_shares sample_price
      quarters versions n_samples w = Ok (results, st).
Proof.
  intros Hprice.
  destruct (estimate_chip_sales sample_revenue sample_shares sample_price
              quarters versions n_samples w) as [[results st]|e] eqn:Hrun.
  - now exists results, st.
  - apply estimate_chip_sales_raises in Hrun.
    destruct Hrun as (_ & q & v & w' & x & Hdiv).
    now destruct (Hprice q v w' x).
Qed.

(** C2, as amended. For duplicate-free lists of quarters and of versions,
    any callbacks and any trial count N: the table the run returns has a
    cell for every declared (quarter, version) pair and every such cell has
    exactly N samples; the run raises nothing but a [ZeroDivisionError] on
    a price that cannot be divided by, and returns a table when no price is
    such. *)
Theorem estimate_chip_sales_fully_populated quarters versions n_samples w :
  NoDup quarters ->
  NoDup versions ->
  (forall results st,
      estimate_chip_sales sample_revenue sample_shares sample_price
        quarters versions n_samples w = Ok (results, st) ->
      forall q v, In q quarters -> In v versions ->
        exists samples,
          cell results q v = Some samples /\
          List.length samples = n_samples) /\
  (forall e,
      estimate_chip_sales sample_revenue sample_shares sample_price
        quarters versions n_samples w = Raise e ->
      bad_price sample_price e) /\
  ((forall q v w' x, num_div x (fst (sample_price q v w')) <> None) ->
   exists results st,
     estimate_chip_sales sample_revenue sample_shares sample_price
       quarters versions n_samples w = Ok (results, st)).
Proof.
  intros Hq Hv. split; [|split].
  - intros results st Hrun q v Hinq Hinv.
    pose proof (estimate_chip_sales_cell_len _ _ _ _ _ _ q v Hrun) as Hlen.
    pose proof (post_Ok _ _ _ _ _
                  (estimate_from_post sample_revenue sample_shares
                     sample_price quarters versions q v n_samples
                     {| world := w; calls := [] |} (Forall_nil _)) Hrun)
      as (Hcov & _ & _).
    specialize (Hcov q v Hinq Hinv).
    unfold cell_len in Hlen.
    destruct (cell results q v) as [samples|]; [|contradiction].
    exists samples. split; [reflexivity|].
    rewrite Hlen, (occurrences_NoDup q quarters), (occurrences_NoDup v versions);
      auto; lia.
  - apply estimate_chip_sales_raises.
  - apply estimate_chip_sales_returns.
Qed.

End EngineTheorems.

(** C2, as stated, fails on a list that names a quarter twice: with
    quarters [["Q1"; "Q1"]] and one trial, the cell [("Q1", "A")] receives
    two samples. *)
Lemma estimate_chip_sales_duplicate_quarter :
  exists results st samples,
    estimate_chip_sales
      (Scenario.sample_revenue Scenario.float_number)
      (Scenario.sample_shares Scenario.float_number)
      (Scenario.sample_price Scenario.float_number)
      ["Q1"%string; "Q1"%string] ["A"%string; "B"%string] 1 tt
    = Ok (results, st) /\
    cell results "Q1" "A" = Some samples /\
    List.length samples = 2 /\
    List.length samples <> 1.
Proof.
  do 3 eexists. split; [vm_compute; reflexivity|].
  split; [vm_compute; reflexivity|].
  split; [reflexivity | discriminate].
Qed.

Lemma scenario_price_divides q v w' x :
  num_div x
    (fst (Scenario.sample_price Scenario.float_number q v w')) <> None.
Proof.
  assert (H10 : Binary64.is_zero (Scenario.float_number 10 1) = false)
    by (vm_compute; reflexivity).
  assert (H20 : Binary64.is_zero (Scenario.float_number 20 1) = false)
    by (vm_compute; reflexivity).
  unfold Scenario.sample_price, num_div, float_PyNum, Binary64.div, fst.
  destruct (String.eqb v "A"); [rewrite H10 | rewrite H20]; discriminate.
Qed.

Lemma NoDup_Q1 : NoDup ["Q1"%string].
Proof. repeat constructor. simpl. tauto. Qed.

Lemma NoDup_A_B : NoDup ["A"%string; "B"%string].
Proof.
  repeat constructor; simpl; try tauto.
  intros [Heq|[]]. discriminate.
Qed.

Lemma estimate_chip_sales_fully_populated_witness :
  exists results st samples,
    estimate_chip_sales
      (Scenario.sample_revenue Scenario.float_number)
      (Scenario.sample_shares Scenario.float_number)
      (Scenario.sample_price Scenario.float_number)
      ["Q1"%string] ["A"%string; "B"%string] 1 tt = Ok (results, st) /\
    cell results "Q1" "B" = Some samples /\
    List.length samples = 1.
Proof.
  destruct (estimate_chip_sales_fully_populated
              (Scenario.sample_revenue Scenario.float_number)
              (Scenario.sample_shares Scenario.float_number)
              (Scenario.sample_price Scenario.float_number)
              ["Q1"%string] ["A"%string; "B"%string] 1 tt
              NoDup_Q1 NoDup_A_B) as (Hcells & _ & Hreturns).
  destruct (Hreturns scenario_price_divides) as (results & st & Hrun).
  destruct (Hcells results st Hrun "Q1"%string "B"%string)
    as (samples & Hcell & Hlen); simpl; auto.
  exists results, st, samples. auto.
Defined.

(** ** The zero-share short circuit *)

Section ShortCircuit.

Context {num : Type} `{PyNum num} {W : Type}.

Variable sample_revenue : quarter -> W -> num * W.
Variable sample_shares : quarter -> W -> dict version num * W.
Variable sample_price : quarter -> version -> W -> num * W.

(** A share that is not [> 0] sends the step through the [else] branch: it
    appends [0] and leaves the run state, call log included, as it was. *)
Lemma version_step_no_volume q revenue shares v (results : table num)
  (st : run_state num W) :
  num_gt0 (PyDict.get_default shares v num_zero) = false ->
  version_step sample_price q revenue shares v results st =
  lift (append_sample results q v num_zero) st.
Proof.
  intros Hshare. unfold version_step, bind, ret. now rewrite Hshare.
Qed.

Lemma zero_share_no_volume v (log : list (call num)) :
  Forall (zero_share v) log -> Forall (no_volume v) log.
Proof.
  apply Forall_impl. intros [q r|q shares|q v' p]; simpl; auto.
  intros ->. apply num_gt0_zero.
Qed.

(** C3. A share of exactly 0, or a version the share map does not mention,
    makes the step append 0 to the cell with the run state unchanged, so
    that no call of the price callback is logged for it. Consequently, when
    every share map drawn during a run gives the version the share 0, its
    cell in every declared quarter is a constant-zero sequence and the
    price callback was never invoked for that version; the sequence has one
    entry per trial and per occurrence of the quarter and of the version in
    their lists, hence length N when the lists are duplicate-free. *)
Theorem zero_share_short_circuit :
  (forall q revenue shares v (results : table num) (st : run_state num W),
      PyDict.get_default shares v num_zero = num_zero ->
      version_step sample_price q revenue shares v results st =
      lift (append_sample results q v num_zero) st) /\
  (forall q revenue shares v (results : table num) (st : run_state num W),
      PyDict.get shares v = None ->
      version_step sample_price q revenue shares v results st =
      lift (append_sample results q v num_zero) st) /\
  (forall q revenue shares v (results : table num) (st : run_state num W)
          samples,
      PyDict.get_default shares v num_zero = num_zero ->
      cell results q v = Some samples ->
      exists results',
        version_step sample_price q revenue shares v results st =
          Ok (results', st) /\
        cell results' q v = Some (samples ++ [num_zero])) /\
  (forall quarters versions n_samples w results st q v,
      In q quarters -> In v versions ->
      estimate_chip_sales sample_revenue sample_shares sample_price
        quarters versions n_samples w = Ok (results, st) ->
      Forall (zero_share v) (calls st) ->
      Forall (fun c => ~ is_price_call v c) (calls st) /\
      cell results q v =
        Some (repeat num_zero
                (n_samples *
                 (occurrences q quarters * occurrences v versions))) /\
      (NoDup quarters -> NoDup versions ->
       cell results q v = Some (repeat num_zero n_samples))).
Proof.
  assert (Hstep : forall q revenue shares v (results : table num)
                         (st : run_state num W),
             PyDict.get_default shares v num_zero = num_zero ->
             version_step sample_price q revenue shares v results st =
             lift (append_sample results q v num_zero) st).
  { intros. apply version_step_no_volume.
    replace (PyDict.get_default shares v num_zero) with (@num_zero num _).
    apply num_gt0_zero. }
  split; [exact Hstep|]. split; [|split].
  - intros q revenue shares v results st Hget. apply Hstep.
    unfold PyDict.get_default. now rewrite Hget.
  - intros q revenue shares v results st samples Hshare Hcell.
    rewrite (Hstep _ _ _ _ _ _ Hshare).
    destruct (append_sample_cell results q v num_zero _ Hcell)
      as (results' & Happ & Hcells).
    exists results'. unfold lift. rewrite Happ. split; [reflexivity|].
    rewrite Hcells.
    destruct (key_eq_dec q q); [destruct (key_eq_dec v v)|]; congruence.
  - intros quarters versions n_samples w results st q v Hq Hv Hrun Hzero.
    pose proof (post_Ok _ _ _ _ _
                  (estimate_from_post sample_revenue sample_shares
                     sample_price quarters versions q v n_samples
                     {| world := w; calls := [] |} (Forall_nil _)) Hrun)
      as (Hcov & Hlen & Hidle).
    destruct (Hidle (zero_share_no_volume v _ Hzero)) as [Hall Hnoprice].
    split; [exact Hnoprice|].
    specialize (Hcov q v Hq Hv). unfold cell_len in Hlen.
    destruct (cell results q v) as [samples|] eqn:Hcell; [|contradiction].
    rewrite (Forall_eq_repeat num_zero samples (Hall samples Hcell)), Hlen.
    split; [reflexivity|].
    intros Hndq Hndv.
    rewrite (occurrences_NoDup q quarters), (occurrences_NoDup v versions);
      auto.
    do 2 f_equal. lia.
Qed.

End ShortCircuit.

Lemma zero_share_short_circuit_witness :
  exists results st,
    estimate_chip_sales
      (Scenario.sample_revenue Scenario.float_number)
      (Scenario.sample_shares_A_only Scenario.float_number)
      (Scenario.sample_price Scenario.float_number)
      ["Q1"%string] ["A"%string; "B"%string] 3 tt = Ok (results, st) /\
    cell results "Q1" "B" = Some (repeat Binary64.zero 3) /\
    Forall (fun c => ~ is_price_call "B"%string c) (calls st).
Proof.
  destruct (estimate_chip_sales
              (Scenario.sample_revenue Scenario.float_number)
              (Scenario.sample_shares_A_only Scenario.float_number)
              (Scenario.sample_price Scenario.float_number)
              ["Q1"%string] ["A"%string; "B"%string] 3 tt)
    as [[results st]|e] eqn:Hrun; [|vm_compute in Hrun; discriminate].
  exists results, st. split; [reflexivity|].
  destruct (zero_share_short_circuit (H := float_PyNum)
              (Scenario.sample_revenue Scenario.float_number)
              (Scenario.sample_shares_A_only Scenario.float_number)
              (Scenario.sample_price Scenario.float_number))
    as (_ & _ & _ & Hzeros).
  destruct (Hzeros ["Q1"%string] ["A"%string; "B"%string] 3 tt results st
              "Q1"%string "B"%string) as (Hnoprice & _ & Hcell).
  - simpl. auto.
  - simpl. auto.
  - exact Hrun.
  - vm_compute in Hrun. injection Hrun as _ <-. repeat constructor.
  - split; [exact (Hcell NoDup_Q1 NoDup_A_B) | exact Hnoprice].
Defined.

(** ** Negative shares *)





(** ** [normalize_shares] *)

Section QcSums.

Local Open Scope Qc_scope.

Lemma Qc_sum_from (l : list Qc) (a : Qc) :
  fold_left Qcplus l a = a + fold_left Qcplus l 0.
Proof.
  revert a. induction l as [|x l IH]; intros a; simpl.
  - ring.
  - rewrite IH, (IH (0 + x)). ring.
Qed.





Lemma Qc_sum_scaled (l : list Qc) (t : Qc) :
  fold_left Qcplus (map (fun v => v / t) l) 0 = fold_left Qcplus l 0 / t.
Proof.
  induction l as [|x l IH]; simpl.
  - unfold Qcdiv. ring.
  - rewrite Qc_sum_from, IH, (Qc_sum_from l (0 + x)).
    unfold Qcdiv. ring.
Qed.

End QcSums.

Lemma normalize_fold_Qc (total : Qc) :
  total <> Q2Qc 0 ->
  forall (raw acc : dict version Qc),
    NoDup (PyDict.keys (acc ++ raw)) ->
    result_fold (normalize_item total) raw acc =
    Ok (acc ++ map (fun kv => (fst kv, (snd kv / total)%Qc)) raw).
Proof.
  intros Htotal. induction raw as [|[k v] raw IH]; intros acc Hnd; simpl.
  - now rewrite app_nil_r.
  - unfold div_or_raise. simpl. unfold Qc_div.
    destruct (Qc_eq_bool total (Q2Qc 0)) eqn:E;
      [apply Qc_eq_bool_correct in E; contradiction|].
    simpl. unfold PyDict.keys in Hnd. rewrite map_app in Hnd. simpl in Hnd.
    rewrite PyDictFacts.set_absent.
    + rewrite IH.
      * now rewrite <- app_assoc.
      * unfold PyDict.keys. rewrite <- app_assoc, map_app. exact Hnd.
    + apply NoDup_remove_2 in Hnd. intros Hin. apply Hnd.
      apply in_or_app. now left.
Qed.




(** C5, as stated, fails on the empty mapping: its weights sum to 0 and
    [normalize_shares] returns the empty mapping without any error. *)
Lemma normalize_shares_empty :
  py_sum (PyDict.values (@nil (version * Qc))) = Q2Qc 0 /\
  normalize_shares (@nil (version * Qc)) = Ok [] /\
  normalize_shares (@nil (version * Binary64.float)) = Ok [].
Proof. repeat split. Qed.

Lemma SFdiv_zero_divisor (x y : Binary64.float) :
  Binary64.is_zero y = true ->
  nan_or_inf {| as_float := SFdiv Binary64.prec Binary64.emax x y |} = true.
Proof.
  destruct y; try discriminate. intros _. now destruct x.
Qed.

Lemma values_set_Forall {V} (P : V -> Prop) (d : dict version V) k x :
  Forall P (PyDict.values d) -> P x ->
  Forall P (PyDict.values (PyDict.set d k x)).
Proof.
  intros Hd Hx. induction d as [|[k' x'] d IH]; cbn [PyDict.set].
  - now constructor.
  - inversion Hd; subst. destruct (key_eqb k' k); constructor; auto.
Qed.

Lemma set_nonempty {V} (d : dict version V) k x : PyDict.set d k x <> [].
Proof.
  destruct d as [|[k' x'] d]; cbn [PyDict.set]; [discriminate|].
  destruct (key_eqb k' k); discriminate.
Qed.

(** With NumPy scalars and a total that is a zero, every division goes
    through and leaves a NaN or an infinity. *)
Lemma normalize_fold_float64 (total : float64) :
  Binary64.is_zero (as_float total) = true ->
  forall (items acc : dict version float64),
    Forall (fun x => nan_or_inf x = true) (PyDict.values acc) ->
    exists out,
      result_fold (normalize_item total) items acc = Ok out /\
      Forall (fun x => nan_or_inf x = true) (PyDict.values out) /\
      (acc <> [] \/ items <> [] -> out <> []).
Proof.
  intros Hzero. induction items as [|[k v] items IH]; intros acc Hacc.
  - exists acc. repeat split; auto. intros [H|H]; congruence.
  - cbn [result_fold]. unfold normalize_item at 1, div_or_raise.
    cbn [num_div float64_PyNum result_bind].
    destruct (IH (PyDict.set acc k
                    {| as_float := SFdiv Binary64.prec Binary64.emax
                                     (as_float v) (as_float total) |}))
      as (out & Hrun & Hout & Hne).
    + apply values_set_Forall; [exact Hacc|].
      now apply SFdiv_zero_divisor.
    + exists out. repeat split; auto. intros _. apply Hne. left.
      apply set_nonempty.
Qed.

(** C5, as amended. For every non-empty mapping whose weights sum to 0,
    [normalize_shares] fails rather than returning a valid normalized
    mapping: with Python numbers -- exact, or binary64 floats whose sum is
    a zero of either sign -- it raises [ZeroDivisionError]; with NumPy
    scalars it returns a mapping that is not empty and whose values are
    all NaN or infinite. *)
Theorem normalize_shares_zero_total :
  (forall raw : dict version Qc,
      raw <> [] ->
      py_sum (PyDict.values raw) = Q2Qc 0 ->
      normalize_shares raw = Raise ZeroDivisionError) /\
  (forall raw : dict version Binary64.float,
      raw <> [] ->
      Binary64.is_zero (py_sum (PyDict.values raw)) = true ->
      normalize_shares raw = Raise ZeroDivisionError) /\
  (forall raw : dict version float64,
      raw <> [] ->
      Binary64.is_zero (as_float (py_sum (PyDict.values raw))) = true ->
      exists out,
        normalize_shares raw = Ok out /\
        out <> [] /\
        Forall (fun x => nan_or_inf x = true) (PyDict.values out)).
Proof.
  split; [|split]; intros raw Hne Hzero.
  - destruct raw as [|[k w] raw]; [congruence|].
    unfold normalize_shares, PyDict.items; cbn [result_fold];
      unfold normalize_item at 1, div_or_raise.
    change (num_div w (py_sum (PyDict.values ((k, w) :: raw))))
      with (Qc_div w (py_sum (PyDict.values ((k, w) :: raw)))).
    unfold Qc_div. rewrite Hzero. reflexivity.
  - destruct raw as [|[k w] raw]; [congruence|].
    unfold normalize_shares, PyDict.items; cbn [result_fold];
      unfold normalize_item at 1, div_or_raise.
    change (num_div w (py_sum (PyDict.values ((k, w) :: raw))))
      with (Binary64.div w (py_sum (PyDict.values ((k, w) :: raw)))).
    unfold Binary64.div. rewrite Hzero. reflexivity.
  - unfold normalize_shares, PyDict.items.
    destruct (normalize_fold_float64 _ Hzero raw [] (Forall_nil _))
      as (out & Hrun & Hout & Hnonempty).
    exists out. repeat split; auto.
Qed.

Lemma normalize_shares_zero_total_witness :
  normalize_shares [("A"%string, QcZ 0); ("B"%string, QcZ 0)]
  = Raise ZeroDivisionError /\
  exists out,
    normalize_shares
      [("A"%string, {| as_float := Binary64.zero |});
       ("B"%string, {| as_float := Binary64.zero |})] = Ok out /\
    out <> [] /\
    Forall (fun x => nan_or_inf x = true) (PyDict.values out).
Proof.
  split.
  - apply (proj1 normalize_shares_zero_total).
    + discriminate.
    + apply Qc_is_canon. vm_compute. reflexivity.
  - apply (proj2 (proj2 normalize_shares_zero_total)).
    + discriminate.
    + reflexivity.
Defined.

(** ** [compute_h100_equivalents] *)

Section ConvertFacts.

Context {num : Type} `{PyNum num}.

Variable chip_specs : dict version (dict string num).
Variable h100_tops : num.

(** With a version that has no spec among the items, the loop ends in a
    [KeyError]. *)
Lemma convert_fold_missing :
  divisor h100_tops ->
  forall (items acc : dict version (counts num)),
    (exists v, In v (PyDict.keys items) /\ PyDict.get chip_specs v = None) ->
    result_fold (convert_item chip_specs h100_tops) items acc = Raise KeyError.
Proof.
  intros Hdiv. induction items as [|[v c] items IH]; intros acc (v' & Hin & Hnone).
  - destruct Hin.
  - cbn [result_fold]. unfold convert_item at 1, spec_tops.
    destruct (PyDict.get chip_specs v) as [spec|] eqn:Hspec; [|reflexivity].
    destruct (PyDict.get spec "tops"%string) as [tops|]; [|reflexivity].
    cbn [result_bind]. unfold div_or_raise.
    destruct (num_div tops h100_tops) as [ratio|] eqn:Hratio;
      [|now destruct (Hdiv tops)].
    cbn [result_bind]. apply IH. exists v'. split; [|exact Hnone].
    destruct Hin as [Heq|Hin]; [|exact Hin].
    simpl in Heq. subst v'. congruence.
Qed.

(** ... and in an exception whatever the reference throughput is. *)
Lemma convert_fold_missing_raises :
  forall (items acc : dict version (counts num)),
    (exists v, In v (PyDict.keys items) /\ PyDict.get chip_specs v = None) ->
    exists e,
      result_fold (convert_item chip_specs h100_tops) items acc = Raise e.
Proof.
  induction items as [|[v c] items IH]; intros acc (v' & Hin & Hnone).
  - destruct Hin.
  - cbn [result_fold]. unfold convert_item at 1, spec_tops.
    destruct (PyDict.get chip_specs v) as [spec|] eqn:Hspec;
      [|now exists KeyError].
    destruct (PyDict.get spec "tops"%string) as [tops|];
      [|now exists KeyError].
    cbn [result_bind]. unfold div_or_raise.
    destruct (num_div tops h100_tops) as [ratio|] eqn:Hratio;
      [|now exists ZeroDivisionError].
    cbn [result_bind]. apply IH. exists v'. split; [|exact Hnone].
    destruct Hin as [Heq|Hin]; [|exact Hin].
    simpl in Heq. subst v'. congruence.
Qed.

(** What a loop that ends well has put in the output. *)
Lemma convert_fold_ok :
  forall (items acc out : dict version (counts num)),
    NoDup (PyDict.keys acc ++ PyDict.keys items) ->
    result_fold (convert_item chip_specs h100_tops) items acc = Ok out ->
    PyDict.keys out = PyDict.keys acc ++ PyDict.keys items /\
    (forall v, ~ In v (PyDict.keys items) ->
       PyDict.get out v = PyDict.get acc v) /\
    (forall v c, In (v, c) items ->
       exists tops ratio,
         spec_tops chip_specs v = Ok tops /\
         num_div tops h100_tops = Some ratio /\
         PyDict.get out v = Some (scale c ratio)).
Proof.
  induction items as [|[v c] items IH]; intros acc out Hnd Hrun.
  - simpl in Hrun. injection Hrun as <-. simpl. rewrite app_nil_r.
    repeat split; auto. intros v c [].
  - cbn [result_fold] in Hrun. unfold convert_item at 1 in Hrun.
    destruct (spec_tops chip_specs v) as [tops|e] eqn:Htops;
      [|discriminate].
    cbn [result_bind] in Hrun. unfold div_or_raise in Hrun.
    destruct (num_div tops h100_tops) as [ratio|] eqn:Hratio;
      [|discriminate].
    cbn [result_bind] in Hrun.
    assert (Hfresh : ~ In v (PyDict.keys acc)).
    { simpl in Hnd. apply NoDup_remove_2 in Hnd. intros Hin. apply Hnd.
      apply in_or_app. now left. }
    rewrite (PyDictFacts.set_absent acc v _ Hfresh) in Hrun.
    assert (Hnd' : NoDup (PyDict.keys (acc ++ [(v, scale c ratio)])
                          ++ PyDict.keys items)).
    { unfold PyDict.keys. rewrite map_app, <- app_assoc. exact Hnd. }
    destruct (IH _ _ Hnd' Hrun) as (Hkeys & Hother & Hitems).
    assert (Hv : ~ In v (PyDict.keys items)).
    { simpl in Hnd. apply NoDup_remove_2 in Hnd. intros Hin. apply Hnd.
      apply in_or_app. now right. }
    split; [|split].
    + rewrite Hkeys. unfold PyDict.keys. rewrite map_app, <- app_assoc.
      reflexivity.
    + intros v' Hv'. simpl in Hv'. rewrite Hother by tauto.
      rewrite <- (PyDictFacts.set_absent acc v _ Hfresh).
      apply PyDictFacts.get_set_other. tauto.
    + intros v' c' [Heq|Hin].
      * injection Heq as <- <-. exists tops, ratio.
        repeat split; auto. rewrite (Hother v Hv).
        rewrite <- (PyDictFacts.set_absent acc v _ Hfresh).
        apply PyDictFacts.get_set_same.
      * now apply Hitems.
Qed.

(** A loop over items that all have a spec ends well. *)
Lemma convert_fold_returns :
  divisor h100_tops ->
  forall (items acc : dict version (counts num)),
    covered_by items chip_specs ->
    exists out,
      result_fold (convert_item chip_specs h100_tops) items acc = Ok out.
Proof.
  intros Hdiv. induction items as [|[v c] items IH]; intros acc Hcov.
  - now exists acc.
  - cbn [result_fold]. unfold convert_item at 1, spec_tops.
    destruct (Hcov v) as (spec & tops & Hspec & Htops); [now left|].
    rewrite Hspec, Htops. cbn [result_bind]. unfold div_or_raise.
    destruct (num_div tops h100_tops) as [ratio|] eqn:Hratio;
      [|now destruct (Hdiv tops)].
    cbn [result_bind]. apply IH.
    intros v' Hin. apply Hcov. now right.
Qed.

Lemma In_get_items {V} (d : dict version V) v c :
  PyDict.well_formed d -> PyDict.get d v = Some c -> In (v, c) d.
Proof.
  induction d as [|[v' c'] d IH]; simpl; [discriminate|].
  intros Hwf Hget. destruct (String.eqb v' v) eqn:E.
  - apply String.eqb_eq in E. injection Hget as <-. subst. now left.
  - right. apply IH; auto. now inversion Hwf.
Qed.

(** C8, as amended. Whenever [chip_counts] holds a version that
    [chip_specs] lacks, the conversion fails, and the exception is a
    [KeyError] when the reference throughput can be divided by (as the
    default can); in the mapping the conversion returns, the value at every
    version that both mappings hold is its counts multiplied by
    [chip_specs[version]['tops'] / h100_tops] -- a mapping it does return
    when every version of [chip_counts] has a spec. *)
Theorem compute_h100_equivalents_lookup
  (chip_counts : dict version (counts num)) :
  PyDict.well_formed chip_counts ->
  ((exists v, In v (PyDict.keys chip_counts) /\
              PyDict.get chip_specs v = None) ->
   (exists e,
      compute_h100_equivalents chip_counts chip_specs h100_tops = Raise e) /\
   (divisor h100_tops ->
    compute_h100_equivalents chip_counts chip_specs h100_tops
    = Raise KeyError)) /\
  (forall out,
      compute_h100_equivalents chip_counts chip_specs h100_tops = Ok out ->
      forall v c spec tops,
        PyDict.get chip_counts v = Some c ->
        PyDict.get chip_specs v = Some spec ->
        PyDict.get spec "tops"%string = Some tops ->
        exists ratio,
          num_div tops h100_tops = Some ratio /\
          PyDict.get out v = Some (scale c ratio)) /\
  (covered_by chip_counts chip_specs ->
   divisor h100_tops ->
   exists out,
     compute_h100_equivalents chip_counts chip_specs h100_tops = Ok out /\
     PyDict.keys out = PyDict.keys chip_counts).
Proof.
  intros Hwf. unfold compute_h100_equivalents, PyDict.items.
  split; [|split].
  - intros Hmissing. split.
    + now apply convert_fold_missing_raises.
    + intros Hdiv. now apply convert_fold_missing.
  - intros out Hrun v c spec tops Hc Hspec Htops.
    destruct (convert_fold_ok chip_counts [] out Hwf Hrun) as (_ & _ & Hitems).
    destruct (Hitems v c (In_get_items _ _ _ Hwf Hc))
      as (tops' & ratio & Htops' & Hratio & Hout).
    unfold spec_tops in Htops'. rewrite Hspec, Htops in Htops'.
    injection Htops' as <-. now exists ratio.
  - intros Hcov Hdiv.
    destruct (convert_fold_returns Hdiv chip_counts [] Hcov) as (out & Hrun).
    exists out. split; [exact Hrun|].
    now destruct (convert_fold_ok chip_counts [] out Hwf Hrun) as (Hkeys & _).
Qed.

End ConvertFacts.

Lemma Qc_divisor (d : Qc) : d <> Q2Qc 0 -> divisor d.
Proof.
  intros Hd x. simpl. unfold Qc_div.
  destruct (Qc_eq_bool d (Q2Qc 0)) eqn:E; [|discriminate].
  apply Qc_eq_bool_correct in E. contradiction.
Qed.

(** The default reference throughput, 1979, can be divided by. *)
Lemma default_h100_tops_divisor : divisor default_h100_tops.
Proof.
  apply Qc_divisor. intros Heq. apply (f_equal this) in Heq.
  vm_compute in Heq. discriminate.
Qed.

(** C8, as stated, fails for a reference throughput of 0: on
    [chip_counts = {"A100": 10, "Z": 1}] and
    [chip_specs = {"A100": {"tops": 624}}], where ["Z"] has no spec, the
    division for ["A100"] comes first and the call raises
    [ZeroDivisionError], not a key-lookup error -- in binary64 and in exact
    arithmetic alike. *)
Lemma compute_h100_equivalents_division_first :
  In "Z"%string
    (PyDict.keys [("A100"%string, Count (Binary64.of_Z 10));
                  ("Z"%string, Count (Binary64.of_Z 1))]) /\
  PyDict.get Scenario.a100_specs "Z"%string = None /\
  compute_h100_equivalents
    [("A100"%string, Count (Binary64.of_Z 10));
     ("Z"%string, Count (Binary64.of_Z 1))]
    Scenario.a100_specs (Binary64.of_Z 0)
  = Raise ZeroDivisionError /\
  compute_h100_equivalents
    [("A100"%string, Count (QcZ 10)); ("Z"%string, Count (QcZ 1))]
    [("A100"%string, [("tops"%string, QcZ 624)])] (QcZ 0)
  = Raise ZeroDivisionError /\
  Raise (A := dict version (counts Qc)) ZeroDivisionError <> Raise KeyError.
Proof.
  split; [simpl; auto|]. split; [reflexivity|].
  split; [vm_compute; reflexivity|].
  split; [reflexivity | discriminate].
Qed.

Lemma compute_h100_equivalents_lookup_witness :
  compute_h100_equivalents
    [("A"%string, Count (QcZ 10)); ("B"%string, Samples [QcZ 1; QcZ 2])]
    [("A"%string, [("tops"%string, QcZ 3958)])] default_h100_tops
  = Raise KeyError.
Proof.
  apply (compute_h100_equivalents_lookup
           [("A"%string, [("tops"%string, QcZ 3958)])] default_h100_tops
           [("A"%string, Count (QcZ 10)); ("B"%string, Samples [QcZ 1; QcZ 2])]
           NoDup_A_B).
  - exists "B"%string. split; [simpl; auto | reflexivity].
  - exact default_h100_tops_divisor.
Defined.

(** ** Linearity of the conversion *)

Lemma scale_rescale (k ratio : Qc) (c : counts Qc) :
  scale (rescale k c) ratio = rescale k (scale c ratio).
Proof.
  destruct c as [x|xs]; simpl.
  - f_equal. symmetry. apply Qcmult_assoc.
  - f_equal. rewrite !map_map. apply map_ext. intros x.
    symmetry. apply Qcmult_assoc.
Qed.

Lemma convert_fold_rescale (chip_specs : dict version (dict string Qc))
  (h100_tops k : Qc) :
  forall (items acc : dict version (counts Qc)),
    result_fold (convert_item chip_specs h100_tops)
      (PyDict.map_values (rescale k) items)
      (PyDict.map_values (rescale k) acc)
    = result_map (PyDict.map_values (rescale k))
        (result_fold (convert_item chip_specs h100_tops) items acc).
Proof.
  induction items as [|[v c] items IH]; intros acc; [reflexivity|].
  cbn [PyDict.map_values map result_fold fst snd].
  unfold convert_item at 1 3.
  destruct (spec_tops chip_specs v) as [tops|e]; [|reflexivity].
  cbn [result_bind].
  destruct (div_or_raise tops h100_tops) as [ratio|e]; [|reflexivity].
  cbn [result_bind].
  rewrite scale_rescale.
  change (map (fun kv => (fst kv, rescale k (snd kv))) acc)
    with (PyDict.map_values (rescale k) acc).
  rewrite PyDictFacts.set_map_values.
  apply IH.
Qed.

(** C9, as stated, fails in binary64, the arithmetic of Python's floats:
    with [{"A100": {"tops": 624}}] and the default reference throughput,
    converting [3 * 3] units gives [9 * (624 / 1979)] while scaling the
    conversion of 3 units gives [3 * (3 * (624 / 1979))], and the two
    doubles differ in their last bit. *)
Lemma compute_h100_equivalents_rounding :
  compute_h100_equivalents
    (PyDict.map_values (rescale (Binary64.of_Z 3))
       [("A100"%string, Count (Binary64.of_Z 3))])
    Scenario.a100_specs (Binary64.of_Z 1979)
  = Ok [("A100"%string, Count (S754_finite false 6390150456622715 (-51)))] /\
  result_map (PyDict.map_values (rescale (Binary64.of_Z 3)))
    (compute_h100_equivalents [("A100"%string, Count (Binary64.of_Z 3))]
       Scenario.a100_specs (Binary64.of_Z 1979))
  = Ok [("A100"%string, Count (S754_finite false 6390150456622714 (-51)))] /\
  compute_h100_equivalents
    (PyDict.map_values (rescale (Binary64.of_Z 3))
       [("A100"%string, Count (Binary64.of_Z 3))])
    Scenario.a100_specs (Binary64.of_Z 1979)
  <> result_map (PyDict.map_values (rescale (Binary64.of_Z 3)))
       (compute_h100_equivalents [("A100"%string, Count (Binary64.of_Z 3))]
          Scenario.a100_specs (Binary64.of_Z 1979)).
Proof.
  split; [vm_compute; reflexivity|]. split; [vm_compute; reflexivity|].
  vm_compute. discriminate.
Qed.

(** C9, as amended. In exact arithmetic the conversion is linear in the
    counts: for a [chip_counts] that [chip_specs] covers and any constant
    [k], converting the counts scaled by [k] gives what scaling every
    converted value by [k] gives; and the conversion does return a mapping
    when the reference throughput is not zero. *)
Theorem compute_h100_equivalents_linear
  (chip_counts : dict version (counts Qc))
  (chip_specs : dict version (dict string Qc)) (h100_tops k : Qc) :
  covered_by chip_counts chip_specs ->
  compute_h100_equivalents (PyDict.map_values (rescale k) chip_counts)
    chip_specs h100_tops
  = result_map (PyDict.map_values (rescale k))
      (compute_h100_equivalents chip_counts chip_specs h100_tops) /\
  (h100_tops <> Q2Qc 0 ->
   exists out,
     compute_h100_equivalents chip_counts chip_specs h100_tops = Ok out /\
     compute_h100_equivalents (PyDict.map_values (rescale k) chip_counts)
       chip_specs h100_tops
     = Ok (PyDict.map_values (rescale k) out)).
Proof.
  intros Hcov.
  pose proof (convert_fold_rescale chip_specs h100_tops k chip_counts [])
    as Hlin.
  split; [exact Hlin|].
  intros Hh.
  destruct (convert_fold_returns chip_specs h100_tops (Qc_divisor _ Hh)
              chip_counts [] Hcov) as (out & Hrun).
  exists out. split; [exact Hrun|].
  rewrite Hrun in Hlin. exact Hlin.
Qed.

Lemma compute_h100_equivalents_linear_witness :
  exists out,
    compute_h100_equivalents
      [("A"%string, Count (QcZ 10)); ("B"%string, Samples [QcZ 1; QcZ 2])]
      [("A"%string, [("tops"%string, QcZ 3958)]);
       ("B"%string, [("tops"%string, QcZ 1979)])] default_h100_tops
    = Ok out /\
    compute_h100_equivalents
      (PyDict.map_values (rescale (QcZ 3))
         [("A"%string, Count (QcZ 10)); ("B"%string, Samples [QcZ 1; QcZ 2])])
      [("A"%string, [("tops"%string, QcZ 3958)]);
       ("B"%string, [("tops"%string, QcZ 1979)])] default_h100_tops
    = Ok (PyDict.map_values (rescale (QcZ 3)) out).
Proof.
  apply compute_h100_equivalents_linear.
  - intros v [<-|[<-|[]]]; do 2 eexists; split; reflexivity.
  - intros Heq. apply (f_equal this) in Heq. vm_compute in Heq. discriminate.
Defined.

(** ** Percentiles *)

Section Rounding.

Local Open Scope Q_scope.

Lemma Qceiling_floor_cases (x : Q) :
  (x == inject_Z (Qfloor x) /\ Qceiling x = Qfloor x) \/
  (~ x == inject_Z (Qfloor x) /\ Qceiling x = (Qfloor x + 1)%Z).
Proof.
  destruct (Qeq_dec x (inject_Z (Qfloor x))) as [Heq|Hne].
  - left. split; [exact Heq|].
    rewrite Heq at 1. apply Qceiling_Z.
  - right. split; [exact Hne|].
    assert (Hlo : inject_Z (Qfloor x) < x).
    { destruct (Qle_lt_or_eq _ _ (Qfloor_le x)) as [Hlt|Heq]; [exact Hlt|].
      exfalso. apply Hne. now symmetry. }
    assert (H1 : (Qfloor x < Qceiling x)%Z).
    { rewrite Zlt_Qlt. eapply Qlt_le_trans; [exact Hlo | apply Qle_ceiling]. }
    assert (H2 : (Qceiling x - 1 < Qfloor x + 1)%Z).
    { rewrite Zlt_Qlt. eapply Qlt_trans; [apply Qceiling_lt | apply Qlt_floor]. }
    lia.
Qed.

End Rounding.

Section QcBridge.

Local Open Scope Qc_scope.

Lemma this_QcZ (z : Z) : (this (QcZ z) == inject_Z z)%Q.
Proof. unfold QcZ, Q2Qc. cbn [this]. apply Qred_correct. Qed.

Lemma Qc_leb_le (x y : Qc) : Qc_leb x y = true <-> x <= y.
Proof. unfold Qc_leb, Qcle. apply Qle_bool_iff. Qed.

Lemma Qc_leb_gt (x y : Qc) : Qc_leb x y = false <-> y < x.
Proof.
  unfold Qc_leb, Qclt. split.
  - intros Hb. apply Qnot_le_lt. intros Hle.
    apply Qle_bool_iff in Hle. congruence.
  - intros Hlt. destruct (Qle_bool x y) eqn:E; [|reflexivity].
    apply Qle_bool_iff in E. now apply Qlt_not_le in Hlt.
Qed.

Lemma QcZ_le (a b : Z) : (a <= b)%Z -> QcZ a <= QcZ b.
Proof.
  intros Hab. unfold Qcle. rewrite !this_QcZ. now rewrite <- Zle_Qle.
Qed.

Lemma Qc_floor_QcZ (z : Z) : Qc_floor (QcZ z) = z.
Proof. unfold Qc_floor. rewrite this_QcZ. apply Qfloor_Z. Qed.

Lemma Qc_ceiling_QcZ (z : Z) : Qc_ceiling (QcZ z) = z.
Proof. unfold Qc_ceiling. rewrite this_QcZ. apply Qceiling_Z. Qed.

Lemma Qc_floor_le (x y : Qc) : x <= y -> (Qc_floor x <= Qc_floor y)%Z.
Proof. unfold Qc_floor, Qcle. apply Qfloor_resp_le. Qed.

Lemma Qc_ceiling_le (x y : Qc) : x <= y -> (Qc_ceiling x <= Qc_ceiling y)%Z.
Proof. unfold Qc_ceiling, Qcle. apply Qceiling_resp_le. Qed.

Lemma Qc_floor_le_ceiling (x : Qc) : (Qc_floor x <= Qc_ceiling x)%Z.
Proof. unfold Qc_floor, Qc_ceiling. rewrite Zle_Qle. apply Qle_floor_ceiling. Qed.

(** Either [x] is an integer, and then its ceiling is its floor, or its
    ceiling is one more than its floor. *)
Lemma Qc_ceiling_floor_cases (x : Qc) :
  (x = QcZ (Qc_floor x) /\ Qc_ceiling x = Qc_floor x) \/
  (Qc_ceiling x = (Qc_floor x + 1)%Z).
Proof.
  unfold Qc_floor, Qc_ceiling.
  destruct (Qceiling_floor_cases x) as [[Heq Hc]|[_ Hc]]; [left|now right].
  split; [|exact Hc].
  apply Qc_is_canon. now rewrite this_QcZ.
Qed.

Lemma lerp_linear (a b t : Qc) : lerp a b t = a + t * (b - a).
Proof.
  unfold lerp. destruct (Qc_leb (Q2Qc (1 # 2)) t); ring.
Qed.

End QcBridge.

Section PercentileFacts.

Local Open Scope Qc_scope.

Lemma insert_sorted_perm (x : Qc) (l : list Qc) :
  Permutation (x :: l) (insert_sorted x l).
Proof.
  induction l as [|y l IH]; simpl; [reflexivity|].
  destruct (Qc_leb x y); [reflexivity|].
  rewrite perm_swap. now apply perm_skip.
Qed.

Lemma sort_samples_perm (l : list Qc) : Permutation l (sort_samples l).
Proof.
  induction l as [|x l IH]; simpl; [reflexivity|].
  rewrite <- insert_sorted_perm. now apply perm_skip.
Qed.

Lemma sort_samples_length (l : list Qc) :
  List.length (sort_samples l) = List.length l.
Proof. symmetry. apply Permutation_length, sort_samples_perm. Qed.

Lemma insert_sorted_sorted (x : Qc) (l : list Qc) :
  Sorted Qcle l -> Sorted Qcle (insert_sorted x l).
Proof.
  induction l as [|y l IH]; intros Hs; simpl.
  - repeat constructor.
  - destruct (Qc_leb x y) eqn:E.
    + constructor; [exact Hs|]. constructor. now apply Qc_leb_le.
    + apply Qc_leb_gt in E. inversion Hs as [|? ? Hl Hhd]; subst.
      constructor; [now apply IH|].
      destruct l as [|z l]; simpl.
      * constructor. now apply Qclt_le_weak.
      * destruct (Qc_leb x z); constructor.
        -- now apply Qclt_le_weak.
        -- now inversion Hhd.
Qed.

Lemma sort_samples_sorted (l : list Qc) : Sorted Qcle (sort_samples l).
Proof.
  induction l as [|x l IH]; simpl; [constructor|].
  now apply insert_sorted_sorted.
Qed.

(** NumPy's index arithmetic and the floor/ceiling wording give the same
    interpolated value. *)
Lemma interpolation_agree (arr : list Qc) (last : Z) (h : Qc) :
  h <= QcZ last ->
  lerp
    (nth (Z.to_nat (if Qc_leb (QcZ last) h then last else Qc_floor h))
       arr (QcZ 0))
    (nth (Z.to_nat (if Qc_leb (QcZ last) h then last
                    else (Qc_floor h + 1)%Z))
       arr (QcZ 0))
    (h - QcZ (Qc_floor h))
  = nth (Z.to_nat (Qc_floor h)) arr (QcZ 0)
    + (h - QcZ (Qc_floor h))
      * (nth (Z.to_nat (Qc_ceiling h)) arr (QcZ 0)
         - nth (Z.to_nat (Qc_floor h)) arr (QcZ 0)).
Proof.
  intros Hle. rewrite lerp_linear.
  destruct (Qc_leb (QcZ last) h) eqn:Habove.
  - apply Qc_leb_le in Habove.
    assert (Hh : h = QcZ last) by now apply Qcle_antisym.
    rewrite Hh, Qc_floor_QcZ, Qc_ceiling_QcZ. ring.
  - destruct (Qc_ceiling_floor_cases h) as [[Hint Hc]|Hc].
    + assert (Hg : h - QcZ (Qc_floor h) = 0) by (rewrite Hint at 1; ring).
      rewrite Hg, Hc. ring.
    + rewrite Hc. reflexivity.
Qed.

Lemma percent_le_one (p : Qc) : p <= QcZ 100 -> p / QcZ 100 <= 1.
Proof.
  intros Hp.
  replace 1 with (QcZ 100 / QcZ 100).
  - unfold Qcdiv. apply Qcmult_le_compat_r; [exact Hp|].
    apply Qc_leb_le. vm_compute. reflexivity.
  - unfold Qcdiv. apply Qcmult_inv_r.
    intros Heq. apply (f_equal this) in Heq. vm_compute in Heq. discriminate.
Qed.

Lemma percent_nonneg (p : Qc) : QcZ 0 <= p -> 0 <= p / QcZ 100.
Proof.
  intros Hp. replace 0 with (0 * / QcZ 100) by ring.
  unfold Qcdiv. apply Qcmult_le_compat_r; [exact Hp|].
  apply Qc_leb_le. vm_compute. reflexivity.
Qed.

(** The virtual index lies within the array. *)
Lemma virtual_index_bounds (p : Qc) (last : Z) :
  (0 <= last)%Z -> QcZ 0 <= p -> p <= QcZ 100 ->
  0 <= p / QcZ 100 * QcZ last /\ p / QcZ 100 * QcZ last <= QcZ last.
Proof.
  intros Hlast Hp0 Hp100.
  assert (Hl : 0 <= QcZ last) by (apply (QcZ_le 0 last); lia).
  split.
  - replace 0 with (0 * QcZ last) by ring.
    apply Qcmult_le_compat_r; [now apply percent_nonneg | exact Hl].
  - rewrite <- (Qcmult_1_l (QcZ last)) at 2.
    apply Qcmult_le_compat_r; [now apply percent_le_one | exact Hl].
Qed.

Lemma np_percentile_interpolates (samples : list Qc) (p : Qc) :
  samples <> [] ->
  QcZ 0 <= p -> p <= QcZ 100 ->
  np_percentile samples p =
  Ok (interpolated_order_statistic (sort_samples samples) p).
Proof.
  intros Hne Hp0 Hp100. unfold np_percentile.
  rewrite (proj2 (Qc_leb_le _ _) Hp0), (proj2 (Qc_leb_le _ _) Hp100).
  cbn [andb negb].
  destruct samples as [|s0 rest]; [congruence|].
  unfold interpolated_order_statistic. rewrite sort_samples_length.
  set (last := (Z.of_nat (List.length (s0 :: rest)) - 1)%Z).
  rewrite (Qcmult_comm (QcZ last)).
  f_equal. apply interpolation_agree.
  apply virtual_index_bounds; auto.
  unfold last. simpl List.length. lia.
Qed.

End PercentileFacts.

Section GetPercentiles.

Local Open Scope Qc_scope.

Lemma nth_constant (l : list Qc) (v d : Qc) (i : nat) :
  Forall (eq v) l -> (i < List.length l)%nat -> nth i l d = v.
Proof.
  intros Hall Hi. rewrite Forall_forall in Hall.
  symmetry. apply Hall. now apply nth_In.
Qed.

Lemma interpolated_constant (sorted : list Qc) (v p : Qc) :
  sorted <> [] ->
  Forall (eq v) sorted ->
  QcZ 0 <= p -> p <= QcZ 100 ->
  interpolated_order_statistic sorted p = v.
Proof.
  intros Hne Hall Hp0 Hp100. unfold interpolated_order_statistic.
  set (last := (Z.of_nat (List.length sorted) - 1)%Z).
  assert (Hlast : (0 <= last)%Z).
  { unfold last. destruct sorted; [congruence|]. simpl List.length. lia. }
  destruct (virtual_index_bounds p last Hlast Hp0 Hp100) as [Hlo Hhi].
  set (h := p / QcZ 100 * QcZ last) in *.
  assert (Hf0 : (0 <= Qc_floor h)%Z).
  { rewrite <- (Qc_floor_QcZ 0). now apply Qc_floor_le. }
  assert (Hc1 : (Qc_ceiling h <= last)%Z).
  { rewrite <- (Qc_ceiling_QcZ last). now apply Qc_ceiling_le. }
  pose proof (Qc_floor_le_ceiling h) as Hfc.
  rewrite !(nth_constant sorted v) by (auto; unfold last in *; lia).
  ring.
Qed.

Lemma get_percentiles_fold (samples : list Qc) (f : Qc -> Qc) :
  forall (percentiles : list Qc) (acc : dict Qc Qc),
    (forall p, In p percentiles -> np_percentile samples p = Ok (f p)) ->
    result_fold (percentile_item samples) percentiles acc =
    Ok (fold_left (fun d p => PyDict.set d p (f p)) percentiles acc).
Proof.
  induction percentiles as [|p ps IH]; intros acc Hok; [reflexivity|].
  cbn [result_fold fold_left]. unfold percentile_item at 1.
  rewrite (Hok p) by now left. cbn [result_bind].
  apply IH. intros q Hq. apply Hok. now right.
Qed.

(** C7. For a non-empty sample sequence and percentiles in [[0, 100]],
    [get_percentiles] returns a mapping whose value at each requested
    percentile [p] is the linearly interpolated order statistic: with
    [h = p/100 * (n-1)], the value interpolated between the samples sorted
    in ascending order at positions [floor h] and [ceil h]. On a sequence
    whose samples all equal [v] it therefore returns [v] at every requested
    percentile. *)
Theorem get_percentiles_interpolates (samples percentiles : list Qc) :
  samples <> [] ->
  Forall (fun p => QcZ 0 <= p /\ p <= QcZ 100) percentiles ->
  exists out,
    get_percentiles samples percentiles = Ok out /\
    (forall p, In p percentiles ->
       PyDict.get out p =
       Some (interpolated_order_statistic (sort_samples samples) p)) /\
    Sorted Qcle (sort_samples samples) /\
    Permutation samples (sort_samples samples) /\
    (forall v, Forall (eq v) samples ->
       forall p, In p percentiles -> PyDict.get out p = Some v).
Proof.
  intros Hne Hrange. rewrite Forall_forall in Hrange.
  set (f := interpolated_order_statistic (sort_samples samples)).
  assert (Hrun : get_percentiles samples percentiles =
                 Ok (fold_left (fun d p => PyDict.set d p (f p))
                       percentiles [])).
  { apply get_percentiles_fold. intros p Hp.
    destruct (Hrange p Hp). now apply np_percentile_interpolates. }
  assert (Hget : forall p, In p percentiles ->
                   PyDict.get (fold_left (fun d p => PyDict.set d p (f p))
                                 percentiles []) p = Some (f p)).
  { intros p Hp. rewrite PyDictFacts.get_fold_set.
    destruct (in_dec key_eq_dec p percentiles); [reflexivity|contradiction]. }
  eexists. split; [exact Hrun|]. split; [exact Hget|].
  split; [apply sort_samples_sorted|].
  split; [apply sort_samples_perm|].
  intros v Hall p Hp. rewrite (Hget p Hp). f_equal. unfold f.
  destruct (Hrange p Hp) as [Hp0 Hp100].
  apply interpolated_constant; auto.
  - intros Hnil. apply Hne.
    apply Permutation_nil. rewrite <- Hnil. symmetry. apply sort_samples_perm.
  - apply (Permutation_Forall (sort_samples_perm samples) Hall).
Qed.

End GetPercentiles.

Lemma default_percentiles_in_range :
  Forall (fun p => (QcZ 0 <= p /\ p <= QcZ 100)%Qc) default_percentiles.
Proof.
  repeat constructor; apply Qc_leb_le; vm_compute; reflexivity.
Qed.

Lemma get_percentiles_interpolates_witness :
  exists out,
    get_percentiles [QcZ 4; QcZ 1; QcZ 3; QcZ 2] default_percentiles
    = Ok out /\
    PyDict.get out (QcZ 50) = Some (Q2Qc (5 # 2)).
Proof.
  destruct (get_percentiles_interpolates
              [QcZ 4; QcZ 1; QcZ 3; QcZ 2] default_percentiles)
    as (out & Hrun & Hget & _).
  - discriminate.
  - exact default_percentiles_in_range.
  - exists out. split; [exact Hrun|].
    rewrite (Hget (QcZ 50)) by (simpl; auto).
    apply f_equal. apply Qc_is_canon. vm_compute. reflexivity.
Defined.

(** ** The Total column of [summarize_quarterly_by_chip] *)

Section SummaryFacts.

Local Open Scope Qc_scope.

Variable format_fn : Qc -> string.

Lemma nth_add_combine (total arr : list Qc) (d : Qc) :
  List.length total = List.length arr ->
  forall i, (i < List.length total)%nat ->
    nth i (map (fun xy => fst xy + snd xy) (combine total arr)) d
    = nth i total d + nth i arr d.
Proof.
  revert arr. induction total as [|t total IH]; intros [|a arr] Hlen i Hi;
    simpl in *; try lia.
  destruct i as [|i]; [reflexivity|].
  apply IH; lia.
Qed.

Lemma py_sum_snoc (xs : list Qc) (x : Qc) :
  py_sum (xs ++ [x]) = py_sum xs + x.
Proof. unfold py_sum. now rewrite fold_left_app. Qed.

Lemma summary_text_percentiles (arr : list Qc) (text : string) :
  summary_text format_fn arr = Ok text -> percentile_text format_fn arr text.
Proof.
  unfold summary_text, percentile_text.
  destruct (np_percentile arr (QcZ 5)) as [p5|]; [|discriminate].
  destruct (np_percentile arr (QcZ 50)) as [p50|]; [|discriminate].
  destruct (np_percentile arr (QcZ 95)) as [p95|]; [|discriminate].
  cbn [result_bind]. intros [= <-]. now exists p5, p50, p95.
Qed.

(** One chip type adds its array to the running total, elementwise. *)
Lemma chip_step_total (results : table Qc) q c row total row' total' arr :
  cell results q c = Some arr ->
  List.length arr = List.length total ->
  chip_step format_fn results q c (row, total) = Ok (row', total') ->
  total' = map (fun xy => fst xy + snd xy) (combine total arr).
Proof.
  intros Hcell Hlen. unfold chip_step, add_arrays.
  rewrite Hcell, Hlen, Nat.eqb_refl. cbn [result_bind].
  destruct (Qc_gt0 (py_sum arr)).
  - destruct (summary_text format_fn arr); cbn [result_bind];
      [|discriminate].
    now intros [= _ <-].
  - now intros [= _ <-].
Qed.

Lemma chip_fold_total (results : table Qc) q n :
  forall chip_types seen row total row' total',
    (forall c, In c chip_types ->
       exists arr, cell results q c = Some arr /\ List.length arr = n) ->
    elementwise_sum_of (arrays_of results seen q) n total ->
    result_fold (chip_step format_fn results q) chip_types (row, total)
    = Ok (row', total') ->
    elementwise_sum_of (arrays_of results (seen ++ chip_types) q) n total'.
Proof.
  induction chip_types as [|c chip_types IH];
    intros seen row total row' total' Hrect Hsum Hrun.
  - simpl in Hrun. injection Hrun as _ <-. now rewrite app_nil_r.
  - cbn [result_fold] in Hrun.
    destruct (chip_step format_fn results q c (row, total))
      as [[row1 total1]|e] eqn:Hstep; [|discriminate].
    cbn [result_bind] in Hrun.
    destruct (Hrect c (or_introl eq_refl)) as (arr & Hcell & Hlen).
    destruct Hsum as [Htotal Hnth].
    assert (Hlen' : List.length arr = List.length total) by congruence.
    pose proof (chip_step_total _ _ _ _ _ _ _ _ Hcell Hlen' Hstep) as ->.
    replace (seen ++ c :: chip_types) with ((seen ++ [c]) ++ chip_types)
      by now rewrite <- app_assoc.
    apply (IH (seen ++ [c]) row1
             (map (fun xy => fst xy + snd xy) (combine total arr))
             row' total');
      [intros c' Hc'; apply Hrect; now right | | exact Hrun].
    split.
    + rewrite length_map, length_combine. lia.
    + intros i Hi.
      rewrite nth_add_combine by lia.
      rewrite (Hnth i Hi). unfold arrays_of.
      rewrite !map_app. cbn [map]. rewrite py_sum_snoc. now rewrite Hcell.
Qed.

Lemma np_zeros_sum (results : table Qc) q n :
  elementwise_sum_of (arrays_of results [] q) n (np_zeros n).
Proof.
  unfold np_zeros. split; [apply repeat_length|].
  intros i Hi. simpl. apply nth_repeat.
Qed.

(** After the loop over the chip types, [total] is the elementwise sum of
    the quarter's arrays. *)
Lemma chip_loop_total (results : table Qc) chip_types n q row total :
  (forall c, In c chip_types ->
     exists arr, cell results q c = Some arr /\ List.length arr = n) ->
  chip_loop format_fn results chip_types n q = Ok (row, total) ->
  elementwise_sum_of (arrays_of results chip_types q) n total.
Proof.
  intros Hrect Hrun.
  apply (chip_fold_total results q n chip_types [] _ _ row total Hrect
           (np_zeros_sum results q n) Hrun).
Qed.

End SummaryFacts.

Lemma append_each_Forall2 {X Y} (f : X -> result Y) :
  forall (xs : list X) (out res : list Y),
    append_each f xs out = Ok res ->
    exists ys, res = out ++ ys /\ Forall2 (fun x y => f x = Ok y) xs ys.
Proof.
  unfold append_each.
  induction xs as [|x xs IH]; intros out res Hrun.
  - simpl in Hrun. injection Hrun as <-. exists []. rewrite app_nil_r. auto.
  - cbn [result_fold] in Hrun.
    destruct (f x) as [y|e] eqn:Hfx; [|discriminate].
    cbn [result_bind] in Hrun.
    destruct (IH _ _ Hrun) as (ys & -> & Hall).
    exists (y :: ys). rewrite <- app_assoc. split; [reflexivity|].
    now constructor.
Qed.

Lemma Forall2_compose {A B C} (R1 : A -> B -> Prop) (R2 : B -> C -> Prop) :
  forall l1 l2 l3,
    Forall2 R1 l1 l2 -> Forall2 R2 l2 l3 ->
    Forall2 (fun a c => exists b, R1 a b /\ R2 b c) l1 l3.
Proof.
  intros l1 l2 l3 H12. revert l3.
  induction H12 as [|a b l1 l2 Hab _ IH]; intros l3 H23;
    inversion H23; subst; constructor; eauto.
Qed.

Lemma Forall2_impl_In {A C} (R R' : A -> C -> Prop) :
  forall l1 l3,
    Forall2 R l1 l3 ->
    (forall a c, In a l1 -> R a c -> R' a c) ->
    Forall2 R' l1 l3.
Proof.
  induction 1 as [|a c l1 l3 Hac _ IH]; intros Himpl; constructor.
  - apply Himpl; [now left | exact Hac].
  - apply IH. intros a' c' Hin. apply Himpl. now right.
Qed.

Section SummaryTheorem.

Variable format_fn : Qc -> string.

(** The row of a quarter carries, under ['Total'], the percentile text of
    the elementwise sum of the quarter's arrays. *)
Lemma summary_row_total (results : table Qc) chip_types n q row :
  (forall c, In c chip_types ->
     exists arr, cell results q c = Some arr /\ List.length arr = n) ->
  summary_row format_fn results chip_types n q = Ok row ->
  exists total text,
    elementwise_sum_of (arrays_of results chip_types q) n total /\
    percentile_text format_fn total text /\
    PyDict.get row "Total"%string = Some text.
Proof.
  intros Hrect. unfold summary_row.
  destruct (chip_loop format_fn results chip_types n q)
    as [[row0 total]|e] eqn:Hloop; [|discriminate].
  cbn [result_bind].
  destruct (summary_text format_fn total) as [text|e] eqn:Htext;
    [|discriminate].
  cbn [result_bind]. intros [= <-].
  exists total, text. split; [|split].
  - eapply chip_loop_total; eauto.
  - now apply summary_text_percentiles.
  - apply PyDictFacts.get_set_same.
Qed.

(** The last cell of a selected line is the row's ['Total'] entry. *)
Lemma select_line_total (row : dict string string) cols line :
  append_each (select_cell row) (cols ++ ["Total"%string]) [] = Ok line ->
  exists text,
    PyDict.get row "Total"%string = Some text /\
    last line (""%string, ""%string) = ("Total"%string, text).
Proof.
  intros Hrun.
  destruct (append_each_Forall2 _ _ _ _ Hrun) as (cells & -> & Hall).
  apply Forall2_app_inv_l in Hall.
  destruct Hall as (l1 & l2 & _ & Hlast & ->).
  inversion Hlast as [|c e cs es Hcell Hnil]; subst.
  inversion Hnil; subst.
  unfold select_cell in Hcell.
  destruct (PyDict.get row "Total"%string) as [text|]; [|discriminate].
  injection Hcell as <-. exists text. split; [reflexivity|].
  simpl. apply last_last.
Qed.

Lemma summarize_total (results : table Qc) (n : nat) df :
  rectangular results n ->
  summarize_quarterly_by_chip format_fn results = Ok df ->
  Forall2
    (fun q line =>
       exists total text,
         elementwise_sum_of
           (arrays_of results (chip_types_of results) q) n total /\
         percentile_text format_fn total text /\
         last line (""%string, ""%string) = ("Total"%string, text))
    (PyDict.keys results) df.
Proof.
  intros Hrect. unfold summarize_quarterly_by_chip.
  destruct results as [|[q0 row0] rest]; [discriminate|].
  cbn [PyDict.keys map fst PyDict.get].
  change (key_eqb q0 q0) with (String.eqb q0 q0). rewrite String.eqb_refl.
  destruct (PyDict.keys row0) as [|c0 cs] eqn:Hkeys; [discriminate|].
  destruct (PyDict.get row0 c0) as [samples0|] eqn:Hc0; [|discriminate].
  assert (Hn : List.length samples0 = n).
  { destruct (Hrect q0 c0) as (arr & Hcell & Hlen).
    - now left.
    - simpl. rewrite Hkeys. now left.
    - unfold cell in Hcell. cbn [PyDict.get] in Hcell.
      change (key_eqb q0 q0) with (String.eqb q0 q0) in Hcell.
      rewrite String.eqb_refl, Hc0 in Hcell. now injection Hcell as <-. }
  rewrite Hn.
  set (quarters := q0 :: map fst rest).
  set (results := (q0, row0) :: rest) in *.
  assert (Htypes : chip_types_of results = c0 :: cs) by exact Hkeys.
  destruct (append_each (summary_row format_fn results (c0 :: cs) n)
              quarters []) as [rows|e] eqn:Hrows; [|discriminate].
  cbn [result_bind]. unfold select_columns. intros Hselect.
  destruct (append_each_Forall2 _ _ _ _ Hrows) as (rows' & -> & Hrows').
  destruct (append_each_Forall2 _ _ _ _ Hselect) as (df' & -> & Hdf').
  simpl app in *.
  pose proof (Forall2_compose _ _ _ _ _ Hrows' Hdf') as Hboth.
  rewrite Htypes.
  apply (Forall2_impl_In _ _ _ _ Hboth).
  intros q line Hq (row & Hrow & Hline).
  destruct (summary_row_total results (c0 :: cs) n q row) as
    (total & text & Hsum & Htext & Hget); [|exact Hrow|].
  - intros c Hc. apply Hrect; [exact Hq | now rewrite Htypes].
  - destruct (select_line_total row ("Quarter"%string :: c0 :: cs) line Hline)
      as (text' & Hget' & Hlast).
    exists total, text. split; [exact Hsum|]. split; [exact Htext|].
    congruence.
Qed.

End SummaryTheorem.

Lemma append_each_returns {X Y} (f : X -> result Y) :
  forall (xs : list X) (out : list Y),
    (forall x, In x xs -> exists y, f x = Ok y) ->
    exists res, append_each f xs out = Ok res.
Proof.
  unfold append_each.
  induction xs as [|x xs IH]; intros out Hok.
  - now exists out.
  - cbn [result_fold]. destruct (Hok x (or_introl eq_refl)) as (y & ->).
    cbn [result_bind]. apply IH. intros x' Hx'. apply Hok. now right.
Qed.

Section SummaryReturns.

Variable format_fn : Qc -> string.

Lemma summary_text_returns (arr : list Qc) :
  arr <> [] -> exists text, summary_text format_fn arr = Ok text.
Proof.
  intros Hne. unfold summary_text.
  rewrite !np_percentile_interpolates;
    try (apply Qc_leb_le; vm_compute; reflexivity); auto.
  cbn [result_bind]. eauto.
Qed.

Lemma chip_fold_returns (results : table Qc) q n :
  0 < n ->
  forall chip_types row total,
    List.length total = n ->
    (forall c, In c chip_types ->
       exists arr, cell results q c = Some arr /\ List.length arr = n) ->
    exists row' total',
      result_fold (chip_step format_fn results q) chip_types (row, total)
      = Ok (row', total') /\
      List.length total' = n /\
      (forall k, PyDict.get row k <> None \/ In k chip_types ->
                 PyDict.get row' k <> None).
Proof.
  intros Hn. induction chip_types as [|c chip_types IH];
    intros row total Htotal Hrect.
  - exists row, total. repeat split; auto. intros k [Hk|[]]. exact Hk.
  - destruct (Hrect c (or_introl eq_refl)) as (arr & Hcell & Hlen).
    assert (Hstep : exists text,
               chip_step format_fn results q c (row, total) =
               Ok (PyDict.set row c text,
                   map (fun xy => (fst xy + snd xy)%Qc) (combine total arr))).
    { unfold chip_step, add_arrays.
      rewrite Hcell, Hlen, Htotal, Nat.eqb_refl. cbn [result_bind].
      destruct (Qc_gt0 (py_sum arr)); [|eauto].
      destruct (summary_text_returns arr) as (text & ->).
      - intros ->. simpl in Hlen. lia.
      - cbn [result_bind]. eauto. }
    destruct Hstep as (text & Hstep).
    destruct (IH (PyDict.set row c text)
                (map (fun xy => (fst xy + snd xy)%Qc) (combine total arr)))
      as (row' & total' & Hrun & Hlen' & Hkeys).
    + rewrite length_map, length_combine. lia.
    + intros c' Hc'. apply Hrect. now right.
    + exists row', total'. cbn [result_fold]. rewrite Hstep.
      cbn [result_bind]. split; [exact Hrun|]. split; [exact Hlen'|].
      intros k Hk. apply Hkeys.
      destruct (key_eq_dec c k) as [->|Hne].
      * left. rewrite PyDictFacts.get_set_same. discriminate.
      * destruct Hk as [Hk|[Hk|Hk]]; [| contradiction | now right].
        left. now rewrite PyDictFacts.get_set_other.
Qed.

Lemma summary_row_returns (results : table Qc) chip_types n q :
  0 < n ->
  (forall c, In c chip_types ->
     exists arr, cell results q c = Some arr /\ List.length arr = n) ->
  exists row,
    summary_row format_fn results chip_types n q = Ok row /\
    forall k, In k ("Quarter"%string :: chip_types ++ ["Total"%string]) ->
              PyDict.get row k <> None.
Proof.
  intros Hn Hrect. unfold summary_row, chip_loop.
  destruct (chip_fold_returns results q n Hn chip_types
              [("Quarter"%string, q)] (np_zeros n))
    as (row & total & Hrun & Hlen & Hkeys); auto.
  { apply repeat_length. }
  match goal with
  | |- context [result_fold ?f ?l ?a] =>
      replace (result_fold f l a) with (Ok (A := dict string string * list Qc)
                                          (row, total))
        by (symmetry; exact Hrun)
  end.
  cbn [result_bind].
  destruct (summary_text_returns total) as (text & ->).
  { intros ->. simpl in Hlen. lia. }
  cbn [result_bind]. eexists. split; [reflexivity|].
  intros k Hk.
  destruct (key_eq_dec "Total"%string k) as [<-|Hne].
  - rewrite PyDictFacts.get_set_same. discriminate.
  - rewrite PyDictFacts.get_set_other by exact Hne.
    apply Hkeys. destruct Hk as [<-|Hk].
    + left. simpl. discriminate.
    + apply in_app_or in Hk. destruct Hk as [Hk|[Hk|[]]]; [now right|].
      contradiction.
Qed.

(** On a rectangular table with at least one quarter, one chip type and
    one trial, the summary is produced. *)
Lemma summarize_returns (results : table Qc) (n : nat) :
  rectangular results n ->
  0 < n -> results <> [] -> chip_types_of results <> [] ->
  exists df, summarize_quarterly_by_chip format_fn results = Ok df.
Proof.
  intros Hrect Hn Hres Htypes. unfold summarize_quarterly_by_chip.
  destruct results as [|[q0 row0] rest]; [congruence|].
  cbn [PyDict.keys map fst PyDict.get].
  change (key_eqb q0 q0) with (String.eqb q0 q0). rewrite String.eqb_refl.
  simpl in Htypes.
  destruct (PyDict.keys row0) as [|c0 cs] eqn:Hkeys; [congruence|].
  destruct (Hrect q0 c0) as (arr & Hcell & Hlen).
  { now left. }
  { simpl. rewrite Hkeys. now left. }
  unfold cell in Hcell. cbn [PyDict.get] in Hcell.
  change (key_eqb q0 q0) with (String.eqb q0 q0) in Hcell.
  rewrite String.eqb_refl in Hcell. rewrite Hcell, Hlen.
  set (quarters := q0 :: map fst rest).
  set (table := (q0, row0) :: rest) in *.
  assert (Hrows : forall q, In q quarters ->
            exists row,
              summary_row format_fn table (c0 :: cs) n q = Ok row /\
              forall k,
                In k ("Quarter"%string :: (c0 :: cs) ++ ["Total"%string]) ->
                PyDict.get row k <> None).
  { intros q Hq. apply summary_row_returns; [exact Hn|].
    intros c Hc. apply Hrect; [exact Hq|]. simpl. now rewrite Hkeys. }
  destruct (append_each_returns
              (summary_row format_fn table (c0 :: cs) n) quarters [])
    as (rows & Hrun).
  { intros q Hq. destruct (Hrows q Hq) as (row & Hrow & _). eauto. }
  rewrite Hrun. cbn [result_bind]. unfold select_columns.
  apply append_each_returns. intros row Hrow.
  destruct (append_each_Forall2 _ _ _ _ Hrun) as (rows' & -> & Hall).
  simpl in Hrow.
  assert (Hkeysrow : forall k,
             In k ("Quarter"%string :: (c0 :: cs) ++ ["Total"%string]) ->
             PyDict.get row k <> None).
  { clear Hrun. induction Hall as [|q r qs rs Hqr _ IH].
    - destruct Hrow.
    - destruct Hrow as [<-|Hrow].
      + destruct (Hrows q (or_introl eq_refl)) as (r' & Hr' & Hk).
        rewrite Hqr in Hr'. injection Hr' as <-. exact Hk.
      + apply IH; [|exact Hrow].
        intros q' Hq'. apply Hrows. now right. }
  apply append_each_returns. intros k Hk. unfold select_cell.
  destruct (PyDict.get row k) as [text|] eqn:Hget; [eauto|].
  now destruct (Hkeysrow k Hk).
Qed.

End SummaryReturns.

(** C6. On a table whose quarters all hold, for every chip type, an array
    of the same length: every line of the summary ends with the ['Total']
    column, whose text is made of the percentiles of one array, the
    elementwise sum of the quarter's arrays over the chip types -- summing
    first, percentiles after; and the summary is produced when the table
    has a quarter, a chip type and a trial. The order matters: on the table
    [{"Q1": {"A": [0, 0, 10000], "B": [10000, 0, 0]}}] the p50 of the total
    is 10000 while the p50 of each chip type is 0. *)
Theorem summarize_total_after_summing :
  (forall (format_fn : Qc -> string) (results : table Qc) (n : nat),
      rectangular results n ->
      (forall df,
          summarize_quarterly_by_chip format_fn results = Ok df ->
          Forall2
            (fun q line =>
               exists total text,
                 elementwise_sum_of
                   (arrays_of results (chip_types_of results) q) n total /\
                 percentile_text format_fn total text /\
                 last line (""%string, ""%string) = ("Total"%string, text))
            (PyDict.keys results) df) /\
      (0 < n -> results <> [] -> chip_types_of results <> [] ->
       exists df, summarize_quarterly_by_chip format_fn results = Ok df)) /\
  (exists total p50_total p50_A p50_B,
      elementwise_sum_of
        (arrays_of Scenario.uncorrelated ["A"%string; "B"%string] "Q1")
        3 total /\
      np_percentile total (QcZ 50) = Ok p50_total /\
      np_percentile [QcZ 0; QcZ 0; QcZ 10000] (QcZ 50) = Ok p50_A /\
      np_percentile [QcZ 10000; QcZ 0; QcZ 0] (QcZ 50) = Ok p50_B /\
      p50_total <> (p50_A + p50_B)%Qc /\
      summarize_quarterly_by_chip format_thousands Scenario.uncorrelated
      = Ok [[("Quarter", "Q1"); ("A", "0k (0k-9k)"); ("B", "0k (0k-9k)");
             ("Total", "10k (1k-10k)")]]%string).
Proof.
  split.
  - intros format_fn results n Hrect. split.
    + intros df. now apply summarize_total.
    + now apply summarize_returns.
  - exists [QcZ 10000; QcZ 0; QcZ 10000].
    do 3 eexists. split; [|split; [|split; [|split; [|split]]]].
    + split; [reflexivity|].
      intros i Hi.
      destruct i as [|[|[|i]]]; try lia;
        apply Qc_is_canon; vm_compute; reflexivity.
    + reflexivity.
    + reflexivity.
    + reflexivity.
    + intros Heq. apply (f_equal this) in Heq. vm_compute in Heq.
      discriminate.
    + vm_compute. reflexivity.
Qed.

Lemma uncorrelated_rectangular : rectangular Scenario.uncorrelated 3.
Proof.
  intros q c [<-|[]] [<-|[<-|[]]]; eexists; split; reflexivity.
Qed.

Lemma summarize_total_after_summing_witness :
  exists df,
    summarize_quarterly_by_chip format_thousands Scenario.uncorrelated
    = Ok df /\
    Forall2
      (fun q line =>
         exists total text,
           elementwise_sum_of
             (arrays_of Scenario.uncorrelated
                (chip_types_of Scenario.uncorrelated) q) 3 total /\
           percentile_text format_thousands total text /\
           last line (""%string, ""%string) = ("Total"%string, text))
      (PyDict.keys Scenario.uncorrelated) df.
Proof.
  destruct (proj1 summarize_total_after_summing format_thousands
              Scenario.uncorrelated 3 uncorrelated_rectangular)
    as (Htotal & Hreturns).
  destruct Hreturns as (df & Hdf); [lia | discriminate | discriminate |].
  exists df. split; [exact Hdf | now apply Htotal].
Defined.

(** * Further properties of the utilities *)

(** ** Order on exact rationals *)

Section QcOrder.

Local Open Scope Qc_scope.

Lemma this_plus (x y : Qc) : (this (x + y) == this x + this y)%Q.
Proof. unfold Qcplus, Q2Qc. cbn [this]. apply Qred_correct. Qed.

Lemma this_opp (x : Qc) : (this (- x) == - this x)%Q.
Proof. unfold Qcopp, Q2Qc. cbn [this]. apply Qred_correct. Qed.

Lemma this_minus (x y : Qc) : (this (x - y) == this x - this y)%Q.
Proof. unfold Qcminus. rewrite this_plus, this_opp. reflexivity. Qed.

Lemma this_mult (x y : Qc) : (this (x * y) == this x * this y)%Q.
Proof. unfold Qcmult, Q2Qc. cbn [this]. apply Qred_correct. Qed.

Lemma this_zero : (this 0 == 0)%Q.
Proof. reflexivity. Qed.

Lemma this_one : (this 1 == 1)%Q.
Proof. reflexivity. Qed.

(** A value interpolated between two numbers of an interval lies in the
    interval. *)
Lemma interpolation_between (a b g lo hi : Qc) :
  lo <= a -> a <= hi -> lo <= b -> b <= hi -> 0 <= g -> g <= 1 ->
  lo <= a + g * (b - a) /\ a + g * (b - a) <= hi.
Proof.
  unfold Qcle. intros Ha1 Ha2 Hb1 Hb2 Hg0 Hg1.
  rewrite this_plus, this_mult, this_minus.
  rewrite this_zero in Hg0. rewrite this_one in Hg1.
  split; nra.
Qed.

Lemma interpolation_increasing (a b g g' : Qc) :
  a <= b -> g <= g' -> a + g * (b - a) <= a + g' * (b - a).
Proof.
  unfold Qcle. intros Hab Hg.
  rewrite !this_plus, !this_mult, !this_minus. nra.
Qed.

Lemma Qc_floor_le_self (h : Qc) : QcZ (Qc_floor h) <= h.
Proof. unfold Qcle, Qc_floor. rewrite this_QcZ. apply Qfloor_le. Qed.

Lemma Qc_lt_floor_succ (h : Qc) : h < QcZ (Qc_floor h + 1).
Proof. unfold Qclt, Qc_floor. rewrite this_QcZ. apply Qlt_floor. Qed.

Lemma Qc_ceiling_pred_lt (h : Qc) : QcZ (Qc_ceiling h - 1) < h.
Proof. unfold Qclt, Qc_ceiling. rewrite this_QcZ. apply Qceiling_lt. Qed.

Lemma this_QcZ_succ (z : Z) : (this (QcZ (z + 1)) == this (QcZ z) + 1)%Q.
Proof. rewrite !this_QcZ, inject_Z_plus. reflexivity. Qed.

(** The fractional part of a number lies in [[0, 1)]. *)
Lemma fraction_bounds (h : Qc) :
  0 <= h - QcZ (Qc_floor h) /\ h - QcZ (Qc_floor h) <= 1.
Proof.
  pose proof (Qc_floor_le_self h) as Hlo.
  pose proof (Qc_lt_floor_succ h) as Hhi.
  unfold Qcle, Qclt in *. rewrite this_QcZ_succ in Hhi.
  rewrite this_minus, this_zero, this_one. split; lra.
Qed.

Lemma QcZ_lt_inv (a b : Z) : QcZ a < QcZ b -> (a < b)%Z.
Proof. unfold Qclt. rewrite !this_QcZ. now rewrite <- Zlt_Qlt. Qed.

Lemma QcZ_le_inv (a b : Z) : QcZ a <= QcZ b -> (a <= b)%Z.
Proof. unfold Qcle. rewrite !this_QcZ. now rewrite <- Zle_Qle. Qed.

Lemma QcZ_inj (a b : Z) : QcZ a = QcZ b -> a = b.
Proof.
  intros Heq. apply Z.le_antisymm; apply QcZ_le_inv; rewrite Heq;
    apply Qcle_refl.
Qed.

(** [k] is the floor of every number of [[k, k + 1)]. *)
Lemma Qc_floor_unique (h : Qc) (k : Z) :
  QcZ k <= h -> h < QcZ (k + 1) -> Qc_floor h = k.
Proof.
  intros Hlo Hhi.
  pose proof (Qc_floor_le_self h) as Hf1.
  pose proof (Qc_lt_floor_succ h) as Hf2.
  assert (H1 : (k < Qc_floor h + 1)%Z).
  { apply QcZ_lt_inv. eapply Qcle_lt_trans; eauto. }
  assert (H2 : (Qc_floor h < k + 1)%Z).
  { apply QcZ_lt_inv. eapply Qcle_lt_trans; eauto. }
  lia.
Qed.

End QcOrder.

(** ** Percentiles: range, order, permutation and scaling *)

Section PercentileOrder.

Local Open Scope Qc_scope.

(** The two positions the interpolation reads lie within the array. *)
Lemma order_statistic_indices (n : nat) (p : Qc) :
  (0 < n)%nat -> QcZ 0 <= p -> p <= QcZ 100 ->
  (0 <= Qc_floor (p / QcZ 100 * QcZ (Z.of_nat n - 1)))%Z /\
  (Qc_floor (p / QcZ 100 * QcZ (Z.of_nat n - 1))
   <= Qc_ceiling (p / QcZ 100 * QcZ (Z.of_nat n - 1)))%Z /\
  (Qc_ceiling (p / QcZ 100 * QcZ (Z.of_nat n - 1)) <= Z.of_nat n - 1)%Z.
Proof.
  intros Hn Hp0 Hp100.
  destruct (virtual_index_bounds p (Z.of_nat n - 1)) as [Hlo Hhi];
    [lia | auto | auto |].
  split; [|split].
  - pose proof (Qc_floor_le (QcZ 0) _ Hlo) as H0.
    now rewrite Qc_floor_QcZ in H0.
  - apply Qc_floor_le_ceiling.
  - pose proof (Qc_ceiling_le _ (QcZ (Z.of_nat n - 1)) Hhi) as H1.
    now rewrite Qc_ceiling_QcZ in H1.
Qed.

(** A percentile lies between any two bounds of the samples. *)
Lemma interpolated_in_range (sorted : list Qc) (p lo hi : Qc) :
  sorted <> [] ->
  Forall (fun x => lo <= x /\ x <= hi) sorted ->
  QcZ 0 <= p -> p <= QcZ 100 ->
  lo <= interpolated_order_statistic sorted p /\
  interpolated_order_statistic sorted p <= hi.
Proof.
  intros Hne Hall Hp0 Hp100. unfold interpolated_order_statistic.
  assert (Hn : (0 < List.length sorted)%nat)
    by (destruct sorted; [congruence | simpl; lia]).
  destruct (order_statistic_indices _ p Hn Hp0 Hp100) as (Hf & Hfc & Hc).
  set (h := p / QcZ 100 * QcZ (Z.of_nat (List.length sorted) - 1)) in *.
  rewrite Forall_forall in Hall.
  destruct (Hall (nth (Z.to_nat (Qc_floor h)) sorted (QcZ 0))) as [Ha1 Ha2];
    [apply nth_In; lia|].
  destruct (Hall (nth (Z.to_nat (Qc_ceiling h)) sorted (QcZ 0))) as [Hb1 Hb2];
    [apply nth_In; lia|].
  destruct (fraction_bounds h) as [Hg0 Hg1].
  now apply interpolation_between.
Qed.

#[local] Instance Qcle_transitive : Transitive Qcle.
Proof. intros x y z. apply Qcle_trans. Qed.

Lemma sorted_nth_le (l : list Qc) (d : Qc) :
  Sorted Qcle l ->
  forall i j, (i <= j)%nat -> (j < List.length l)%nat ->
    nth i l d <= nth j l d.
Proof.
  intros Hs. apply Sorted_StronglySorted in Hs; [|exact Qcle_transitive].
  induction Hs as [|x l Hl IH Hx]; intros i j Hij Hj; simpl in Hj; [lia|].
  destruct i as [|i], j as [|j]; simpl; try lia.
  - apply Qcle_refl.
  - rewrite Forall_forall in Hx. apply Hx, nth_In. lia.
  - apply IH; lia.
Qed.

(** On sorted samples the interpolated value grows with the percentile. *)
Lemma interpolated_monotone (sorted : list Qc) (p p' : Qc) :
  sorted <> [] -> Sorted Qcle sorted ->
  QcZ 0 <= p -> p <= p' -> p' <= QcZ 100 ->
  interpolated_order_statistic sorted p
  <= interpolated_order_statistic sorted p'.
Proof.
  intros Hne Hs Hp0 Hpp Hp100.
  assert (Hn : (0 < List.length sorted)%nat)
    by (destruct sorted; [congruence | simpl; lia]).
  assert (Hp100' : p <= QcZ 100) by (eapply Qcle_trans; eauto).
  assert (Hp0' : QcZ 0 <= p') by (eapply Qcle_trans; eauto).
  destruct (order_statistic_indices _ p Hn Hp0 Hp100') as (Hf & Hfc & Hc).
  destruct (order_statistic_indices _ p' Hn Hp0' Hp100) as (Hf' & Hfc' & Hc').
  unfold interpolated_order_statistic.
  set (last := QcZ (Z.of_nat (List.length sorted) - 1)) in *.
  assert (Hlast : 0 <= last).
  { apply (QcZ_le 0). lia. }
  assert (Hh : p / QcZ 100 * last <= p' / QcZ 100 * last).
  { apply Qcmult_le_compat_r; [|exact Hlast].
    unfold Qcdiv. apply Qcmult_le_compat_r; [exact Hpp|].
    apply Qc_leb_le. vm_compute. reflexivity. }
  set (h := p / QcZ 100 * last) in *.
  set (h' := p' / QcZ 100 * last) in *.
  pose proof (Qc_floor_le _ _ Hh) as Hff.
  set (a := fun z : Z => nth (Z.to_nat z) sorted (QcZ 0)).
  assert (Ha : forall i j, (0 <= i <= j)%Z ->
                 (j <= Z.of_nat (List.length sorted) - 1)%Z -> a i <= a j).
  { intros i j Hij Hj. unfold a. apply sorted_nth_le; [exact Hs| |]; lia. }
  fold (a (Qc_floor h)) (a (Qc_ceiling h)) (a (Qc_floor h'))
       (a (Qc_ceiling h')).
  destruct (fraction_bounds h) as [Hg0 Hg1].
  destruct (fraction_bounds h') as [Hg0' Hg1'].
  destruct (Z_le_gt_dec (Qc_ceiling h) (Qc_floor h')) as [Hcf|Hcf].
  - assert (Hfc_le : a (Qc_floor h) <= a (Qc_ceiling h)) by (apply Ha; lia).
    assert (Hfc_le' : a (Qc_floor h') <= a (Qc_ceiling h'))
      by (apply Ha; lia).
    destruct (interpolation_between (a (Qc_floor h)) (a (Qc_ceiling h))
                (h - QcZ (Qc_floor h)) (a (Qc_floor h)) (a (Qc_ceiling h)))
      as [_ Hup]; auto; try apply Qcle_refl.
    destruct (interpolation_between (a (Qc_floor h')) (a (Qc_ceiling h'))
                (h' - QcZ (Qc_floor h')) (a (Qc_floor h'))
                (a (Qc_ceiling h')))
      as [Hdown _]; auto; try apply Qcle_refl.
    apply Qcle_trans with (a (Qc_ceiling h)); [exact Hup|].
    apply Qcle_trans with (a (Qc_floor h')); [apply Ha; lia | exact Hdown].
  - destruct (Qc_ceiling_floor_cases h) as [[_ Hint]|Hch]; [lia|].
    assert (Hfeq : Qc_floor h' = Qc_floor h) by lia.
    assert (Hch' : Qc_ceiling h' = (Qc_floor h' + 1)%Z).
    { destruct (Qc_ceiling_floor_cases h') as [[Hint' _]|Hch']; [|exact Hch'].
      exfalso. pose proof (Qc_ceiling_pred_lt h) as Hlt.
      rewrite Hch in Hlt. replace (Qc_floor h + 1 - 1)%Z with (Qc_floor h)
        in Hlt by lia.
      rewrite Hint', Hfeq in Hh.
      apply (Qclt_not_le _ _ Hlt Hh). }
    rewrite Hch', Hfeq, Hch.
    apply interpolation_increasing.
    + apply Ha; lia.
    + unfold Qcle in *. rewrite !this_minus. lra.
Qed.

End PercentileOrder.

Section PercentileAlgebra.

Local Open Scope Qc_scope.

(** Two sorted arrangements of the same samples are the same list. *)
Lemma sorted_perm_unique (l1 l2 : list Qc) :
  Sorted Qcle l1 -> Sorted Qcle l2 -> Permutation l1 l2 -> l1 = l2.
Proof.
  intros H1 H2. apply Sorted_StronglySorted in H1; [|exact Qcle_transitive].
  apply Sorted_StronglySorted in H2; [|exact Qcle_transitive].
  revert l2 H2. induction H1 as [|x l1 Hl1 IH Hx]; intros l2 H2 Hperm.
  - now apply Permutation_nil in Hperm.
  - destruct H2 as [|y l2 Hl2 Hy].
    + symmetry in Hperm. now apply Permutation_nil in Hperm.
    + assert (Hxy : x = y).
      { rewrite Forall_forall in Hx, Hy.
        assert (Hin1 : In x (y :: l2))
          by (apply (Permutation_in _ Hperm); now left).
        assert (Hin2 : In y (x :: l1))
          by (apply (Permutation_in _ (Permutation_sym Hperm)); now left).
        destruct Hin1 as [->|Hin1]; [reflexivity|].
        destruct Hin2 as [->|Hin2]; [reflexivity|].
        apply Qcle_antisym; auto. }
      subst y. f_equal. apply IH; [exact Hl2|].
      now apply Permutation_cons_inv in Hperm.
Qed.

Lemma sort_samples_perm_invariant (l1 l2 : list Qc) :
  Permutation l1 l2 -> sort_samples l1 = sort_samples l2.
Proof.
  intros Hperm. apply sorted_perm_unique; try apply sort_samples_sorted.
  rewrite <- (sort_samples_perm l1), <- (sort_samples_perm l2). exact Hperm.
Qed.

Lemma np_percentile_perm_invariant (l1 l2 : list Qc) (p : Qc) :
  Permutation l1 l2 -> np_percentile l1 p = np_percentile l2 p.
Proof.
  intros Hperm. unfold np_percentile.
  rewrite (sort_samples_perm_invariant l1 l2 Hperm),
    (Permutation_length Hperm).
  destruct l1, l2; try reflexivity.
  - now apply Permutation_nil in Hperm.
  - symmetry in Hperm. now apply Permutation_nil in Hperm.
Qed.

Lemma scale_array_sorted (l : list Qc) (r : Qc) :
  0 <= r -> Sorted Qcle l -> Sorted Qcle (scale_array l r).
Proof.
  intros Hr. induction 1 as [|x l Hl IH Hhd]; simpl; constructor; auto.
  destruct Hhd as [|y l Hxy]; simpl; constructor.
  now apply Qcmult_le_compat_r.
Qed.

Lemma sort_samples_scale (l : list Qc) (r : Qc) :
  0 <= r -> sort_samples (scale_array l r) = scale_array (sort_samples l) r.
Proof.
  intros Hr. apply sorted_perm_unique.
  - apply sort_samples_sorted.
  - apply scale_array_sorted; [exact Hr | apply sort_samples_sorted].
  - rewrite <- sort_samples_perm. unfold scale_array.
    apply Permutation_map, sort_samples_perm.
Qed.

Lemma interpolated_scale (sorted : list Qc) (p r : Qc) :
  interpolated_order_statistic (scale_array sorted r) p
  = interpolated_order_statistic sorted p * r.
Proof.
  unfold interpolated_order_statistic, scale_array.
  rewrite length_map.
  assert (Hnth : forall i, nth i (map (fun x => x * r) sorted) (QcZ 0)
                           = nth i sorted (QcZ 0) * r).
  { intros i. rewrite <- (map_nth (fun x => x * r)). f_equal.
    apply Qc_is_canon. rewrite this_mult, this_QcZ. simpl. ring. }
  rewrite !Hnth. ring.
Qed.

(** The percentile of an array scaled by a non-negative constant is the
    percentile of the array, scaled. *)
Lemma np_percentile_scale (arr : list Qc) (p r : Qc) :
  0 <= r ->
  np_percentile (scale_array arr r) p
  = result_map (fun x => x * r) (np_percentile arr p).
Proof.
  intros Hr.
  destruct (Qc_leb (QcZ 0) p && Qc_leb p (QcZ 100)) eqn:Hrange.
  - apply andb_prop in Hrange. destruct Hrange as [Hp0 Hp100].
    apply Qc_leb_le in Hp0, Hp100.
    destruct arr as [|x arr].
    + unfold np_percentile. simpl.
      now destruct (negb (Qc_leb (QcZ 0) p && Qc_leb p (QcZ 100))).
    + rewrite !np_percentile_interpolates by (auto; discriminate).
      simpl result_map. f_equal.
      change (scale_array (x :: arr) r) with (scale_array (x :: arr) r).
      rewrite sort_samples_scale by exact Hr.
      apply interpolated_scale.
  - unfold np_percentile. now rewrite Hrange.
Qed.

(** What a returned percentile tells about the call. *)
Lemma np_percentile_Ok_inv (samples : list Qc) (p x : Qc) :
  np_percentile samples p = Ok x ->
  samples <> [] /\ QcZ 0 <= p /\ p <= QcZ 100 /\
  x = interpolated_order_statistic (sort_samples samples) p.
Proof.
  intros Hrun.
  destruct (Qc_leb (QcZ 0) p && Qc_leb p (QcZ 100)) eqn:Hrange.
  - apply andb_prop in Hrange. destruct Hrange as [Hp0 Hp100].
    apply Qc_leb_le in Hp0, Hp100.
    destruct samples as [|s samples].
    + unfold np_percentile in Hrun.
      destruct (negb (Qc_leb (QcZ 0) p && Qc_leb p (QcZ 100))); discriminate.
    + rewrite np_percentile_interpolates in Hrun by (auto; discriminate).
      injection Hrun as <-. repeat split; auto. discriminate.
  - unfold np_percentile in Hrun. rewrite Hrange in Hrun. discriminate.
Qed.

Lemma np_percentile_in_range (samples : list Qc) (p x lo hi : Qc) :
  np_percentile samples p = Ok x ->
  Forall (fun s => lo <= s /\ s <= hi) samples ->
  lo <= x /\ x <= hi.
Proof.
  intros Hrun Hall.
  destruct (np_percentile_Ok_inv _ _ _ Hrun) as (Hne & Hp0 & Hp100 & ->).
  apply interpolated_in_range; auto.
  - intros Hnil. apply Hne, Permutation_nil.
    rewrite <- Hnil. symmetry. apply sort_samples_perm.
  - apply (Permutation_Forall (sort_samples_perm samples) Hall).
Qed.

Lemma np_percentile_monotone (samples : list Qc) (p p' x x' : Qc) :
  np_percentile samples p = Ok x ->
  np_percentile samples p' = Ok x' ->
  p <= p' -> x <= x'.
Proof.
  intros Hrun Hrun' Hpp.
  destruct (np_percentile_Ok_inv _ _ _ Hrun) as (Hne & Hp0 & _ & ->).
  destruct (np_percentile_Ok_inv _ _ _ Hrun') as (_ & _ & Hp100 & ->).
  apply interpolated_monotone; auto.
  - intros Hnil. apply Hne, Permutation_nil.
    rewrite <- Hnil. symmetry. apply sort_samples_perm.
  - apply sort_samples_sorted.
Qed.

End PercentileAlgebra.

Section GetPercentilesMore.

Local Open Scope Qc_scope.

(** Every entry of the returned mapping is the percentile of its key. *)
Lemma get_percentiles_entries (samples : list Qc) :
  forall (percentiles : list Qc) (acc out : dict Qc Qc),
    result_fold (percentile_item samples) percentiles acc = Ok out ->
    forall p x, PyDict.get out p = Some x ->
      PyDict.get acc p = Some x \/ np_percentile samples p = Ok x.
Proof.
  induction percentiles as [|q ps IH]; intros acc out Hrun p x Hget.
  - simpl in Hrun. injection Hrun as <-. now left.
  - cbn [result_fold] in Hrun. unfold percentile_item at 1 in Hrun.
    destruct (np_percentile samples q) as [y|e] eqn:Hq; [|discriminate].
    cbn [result_bind] in Hrun.
    destruct (IH _ _ Hrun p x Hget) as [Hacc|Hp]; [|now right].
    rewrite PyDictFacts.get_set in Hacc.
    destruct (key_eq_dec q p) as [->|_]; [|now left].
    right. congruence.
Qed.

(** X1. Every percentile [get_percentiles] returns lies between any two bounds
    of the samples, and the returned values are ordered as their
    percentiles are: in particular p5 <= p50 <= p95. *)
Theorem get_percentiles_within_and_ordered (samples percentiles : list Qc)
  (out : dict Qc Qc) :
  get_percentiles samples percentiles = Ok out ->
  (forall p x lo hi,
      PyDict.get out p = Some x ->
      Forall (fun s => lo <= s /\ s <= hi) samples ->
      lo <= x /\ x <= hi) /\
  (forall p p' x x',
      PyDict.get out p = Some x -> PyDict.get out p' = Some x' ->
      p <= p' -> x <= x').
Proof.
  intros Hrun.
  assert (Hentry : forall p x, PyDict.get out p = Some x ->
                               np_percentile samples p = Ok x).
  { intros p x Hget.
    destruct (get_percentiles_entries samples percentiles [] out Hrun p x Hget)
      as [Hnil|Hp]; [discriminate | exact Hp]. }
  split.
  - intros p x lo hi Hget Hall.
    eapply np_percentile_in_range; eauto.
  - intros p p' x x' Hget Hget' Hpp.
    eapply np_percentile_monotone; eauto.
Qed.

(** X2. [get_percentiles] does not depend on the order of the samples. *)
Theorem get_percentiles_order_independent (samples samples' percentiles
  : list Qc) :
  Permutation samples samples' ->
  get_percentiles samples percentiles = get_percentiles samples' percentiles.
Proof.
  intros Hperm. unfold get_percentiles.
  generalize (@nil (Qc * Qc)).
  induction percentiles as [|p ps IH]; intros acc; [reflexivity|].
  cbn [result_fold]. unfold percentile_item at 1 3.
  rewrite (np_percentile_perm_invariant samples samples' p Hperm).
  destruct (np_percentile samples' p); cbn [result_bind]; [apply IH|].
  reflexivity.
Qed.

End GetPercentilesMore.

Lemma get_percentiles_within_and_ordered_witness :
  exists out x5 x50 x95,
    get_percentiles [QcZ 4; QcZ 1; QcZ 3; QcZ 2] default_percentiles
    = Ok out /\
    PyDict.get out (QcZ 5) = Some x5 /\
    PyDict.get out (QcZ 50) = Some x50 /\
    PyDict.get out (QcZ 95) = Some x95 /\
    (QcZ 1 <= x5 /\ x5 <= x50 /\ x50 <= x95 /\ x95 <= QcZ 4)%Qc.
Proof.
  destruct (get_percentiles [QcZ 4; QcZ 1; QcZ 3; QcZ 2] default_percentiles)
    as [out|e] eqn:Hrun; [|vm_compute in Hrun; discriminate].
  destruct (get_percentiles_within_and_ordered _ _ _ Hrun)
    as [Hrange Horder].
  assert (Hout : exists x5 x50 x95,
             PyDict.get out (QcZ 5) = Some x5 /\
             PyDict.get out (QcZ 50) = Some x50 /\
             PyDict.get out (QcZ 95) = Some x95).
  { vm_compute in Hrun. injection Hrun as <-.
    do 3 eexists. repeat split; reflexivity. }
  destruct Hout as (x5 & x50 & x95 & H5 & H50 & H95).
  assert (Hbounds : Forall (fun s => (QcZ 1 <= s /\ s <= QcZ 4)%Qc)
                      [QcZ 4; QcZ 1; QcZ 3; QcZ 2]).
  { repeat constructor; apply Qc_leb_le; vm_compute; reflexivity. }
  exists out, x5, x50, x95. repeat split; auto.
  - apply (Hrange _ _ _ _ H5 Hbounds).
  - apply (Horder _ _ _ _ H5 H50). apply Qc_leb_le. vm_compute. reflexivity.
  - apply (Horder _ _ _ _ H50 H95). apply Qc_leb_le. vm_compute. reflexivity.
  - apply (Hrange _ _ _ _ H95 Hbounds).
Defined.

Lemma get_percentiles_order_independent_witness :
  get_percentiles [QcZ 4; QcZ 1; QcZ 3] default_percentiles
  = get_percentiles [QcZ 1; QcZ 4; QcZ 3] default_percentiles.
Proof.
  apply get_percentiles_order_independent. apply perm_swap.
Defined.

(** ** Integer parts and percentile keys *)

Section IntegerPart.

Local Open Scope Qc_scope.

Lemma Qc_nonneg_num (x : Qc) : 0 <= x <-> (0 <= Qnum x)%Z.
Proof.
  unfold Qcle, Qle. simpl. rewrite Z.mul_1_r. reflexivity.
Qed.

(** [int(x)] is the floor of a non-negative [x] and the ceiling of a
    negative one. *)
Lemma py_int_cases (x : Qc) :
  (0 <= x -> py_int x = Qc_floor x) /\ (x < 0 -> py_int x = Qc_ceiling x).
Proof.
  unfold py_int, Qc_floor, Qc_ceiling, Qceiling, Qfloor.
  destruct x as [[n d] Hcanon]. cbn [this Qnum Qden Qopp]. split.
  - intros Hx. apply Qc_nonneg_num in Hx. cbn [this Qnum] in Hx.
    apply Z.quot_div_nonneg; lia.
  - intros Hx. unfold Qclt, Qlt in Hx. cbn [this Qnum Qden] in Hx.
    simpl in Hx. rewrite Z.mul_1_r in Hx.
    rewrite <- (Z.opp_involutive n) at 1.
    rewrite Z.quot_opp_l by lia. f_equal.
    apply Z.quot_div_nonneg; lia.
Qed.

Lemma py_int_monotone (x y : Qc) : x <= y -> (py_int x <= py_int y)%Z.
Proof.
  intros Hxy.
  destruct (Qclt_le_dec x 0) as [Hx|Hx], (Qclt_le_dec y 0) as [Hy|Hy].
  - rewrite (proj2 (py_int_cases x) Hx), (proj2 (py_int_cases y) Hy).
    now apply Qc_ceiling_le.
  - rewrite (proj2 (py_int_cases x) Hx), (proj1 (py_int_cases y) Hy).
    apply Z.le_trans with 0%Z.
    + rewrite <- (Qc_ceiling_QcZ 0). apply Qc_ceiling_le.
      now apply Qclt_le_weak.
    + rewrite <- (Qc_floor_QcZ 0). now apply Qc_floor_le.
  - exfalso. apply (Qclt_not_le _ _ Hy). eapply Qcle_trans; eauto.
  - rewrite (proj1 (py_int_cases x) Hx), (proj1 (py_int_cases y) Hy).
    now apply Qc_floor_le.
Qed.

(** The integer part of a non-negative number is at most the number and
    less than one below it. *)
Lemma py_int_nonneg_bounds (x : Qc) :
  0 <= x -> (0 <= py_int x)%Z /\ QcZ (py_int x) <= x /\ x < QcZ (py_int x + 1).
Proof.
  intros Hx. rewrite (proj1 (py_int_cases x) Hx). split; [|split].
  - rewrite <- (Qc_floor_QcZ 0). now apply Qc_floor_le.
  - apply Qc_floor_le_self.
  - apply Qc_lt_floor_succ.
Qed.

End IntegerPart.

Lemma str_of_Z_injective (a b : Z) : str_of_Z a = str_of_Z b -> a = b.
Proof.
  unfold str_of_Z. intros Heq.
  assert (Hnonnil : forall z, Z.to_int z <> Decimal.Pos Decimal.Nil /\
                              Z.to_int z <> Decimal.Neg Decimal.Nil).
  { intros [|p|p]; simpl; split; try discriminate;
      intros [= Hnil]; now apply Unsigned.to_uint_nonnil in Hnil. }
  apply (f_equal NilZero.int_of_string) in Heq.
  rewrite !NilZero.isi in Heq by apply Hnonnil.
  injection Heq as Heq. apply (f_equal Z.of_int) in Heq.
  now rewrite !of_to in Heq.
Qed.

Lemma percentile_key_injective (a b : Z) :
  percentile_key a = percentile_key b -> a = b.
Proof.
  unfold percentile_key. simpl. intros [= Heq].
  now apply str_of_Z_injective.
Qed.

(** ** [samples_to_percentile_dict] *)

Lemma percentile_dict_fold (samples : list Qc) :
  forall (percentiles : list Z) (acc d : dict string Z),
    result_fold (percentile_dict_item samples) percentiles acc = Ok d ->
    (forall p, In p percentiles ->
       exists x, np_percentile samples (QcZ p) = Ok x /\
                 PyDict.get d (percentile_key p) = Some (py_int x)) /\
    (forall k, (forall p, In p percentiles -> percentile_key p <> k) ->
       PyDict.get d k = PyDict.get acc k).
Proof.
  induction percentiles as [|p0 ps IH]; intros acc d Hrun.
  - simpl in Hrun. injection Hrun as <-. split; [intros p []|auto].
  - cbn [result_fold] in Hrun. unfold percentile_dict_item at 1 in Hrun.
    destruct (np_percentile samples (QcZ p0)) as [x0|e] eqn:Hp0;
      [|discriminate].
    cbn [result_bind] in Hrun.
    destruct (IH _ _ Hrun) as [Hin Hout]. split.
    + intros p [<-|Hp]; [|now apply Hin].
      destruct (in_dec Z.eq_dec p0 ps) as [Hp0in|Hp0out].
      * destruct (Hin p0 Hp0in) as (x & Hx & Hget).
        exists x. split; [exact Hx | exact Hget].
      * exists x0. split; [exact Hp0|].
        rewrite Hout.
        -- apply PyDictFacts.get_set_same.
        -- intros p Hp Heq. apply percentile_key_injective in Heq.
           congruence.
    + intros k Hk. rewrite Hout.
      * apply PyDictFacts.get_set_other. apply Hk. now left.
      * intros p Hp. apply Hk. now right.
Qed.

(** X3. The entries of [samples_to_percentile_dict] are, under the key
    ["p" + str(p)], the integer parts of the percentiles that
    [get_percentiles] returns for the same samples; and they are ordered as
    their percentiles are. *)
Theorem samples_to_percentile_dict_truncates (samples : list Qc)
  (percentiles : list Z) (d : dict string Z) :
  samples_to_percentile_dict samples percentiles = Ok d ->
  (exists out,
      get_percentiles samples (map QcZ percentiles) = Ok out /\
      forall p, In p percentiles ->
        exists x, PyDict.get out (QcZ p) = Some x /\
                  PyDict.get d (percentile_key p) = Some (py_int x)) /\
  (forall p p' n n',
      In p percentiles -> In p' percentiles ->
      PyDict.get d (percentile_key p) = Some n ->
      PyDict.get d (percentile_key p') = Some n' ->
      (p <= p')%Z -> (n <= n')%Z).
Proof.
  intros Hrun.
  destruct (percentile_dict_fold samples percentiles [] d Hrun) as [Hin _].
  set (f := fun q => match np_percentile samples q with
                     | Ok x => x
                     | Raise _ => QcZ 0
                     end).
  assert (Hf : forall q, In q (map QcZ percentiles) ->
                         np_percentile samples q = Ok (f q)).
  { intros q Hq. apply in_map_iff in Hq. destruct Hq as (p & <- & Hp).
    destruct (Hin p Hp) as (x & Hx & _). unfold f. now rewrite Hx. }
  split.
  - eexists. split; [apply (get_percentiles_fold samples f _ [] Hf)|].
    intros p Hp. destruct (Hin p Hp) as (x & Hx & Hget).
    exists x. split; [|exact Hget].
    rewrite PyDictFacts.get_fold_set.
    destruct (in_dec key_eq_dec (QcZ p) (map QcZ percentiles)) as [_|Hout].
    + unfold f. now rewrite Hx.
    + exfalso. apply Hout. now apply in_map.
  - intros p p' n n' Hp Hp' Hn Hn' Hle.
    destruct (Hin p Hp) as (x & Hx & Hget).
    destruct (Hin p' Hp') as (x' & Hx' & Hget').
    rewrite Hget in Hn. rewrite Hget' in Hn'.
    injection Hn as <-. injection Hn' as <-.
    apply py_int_monotone.
    apply (np_percentile_monotone samples (QcZ p) (QcZ p')); auto.
    now apply QcZ_le.
Qed.

Lemma samples_to_percentile_dict_truncates_witness :
  samples_to_percentile_dict [QcZ 4; QcZ 1; QcZ 3; QcZ 2] [5; 50; 95]%Z
  = Ok [("p5"%string, 1%Z); ("p50"%string, 2%Z); ("p95"%string, 3%Z)] /\
  exists out x,
    get_percentiles [QcZ 4; QcZ 1; QcZ 3; QcZ 2] (map QcZ [5; 50; 95]%Z)
    = Ok out /\
    PyDict.get out (QcZ 50) = Some x /\ py_int x = 2%Z.
Proof.
  assert (Hrun : samples_to_percentile_dict [QcZ 4; QcZ 1; QcZ 3; QcZ 2]
                   [5; 50; 95]%Z
                 = Ok [("p5"%string, 1%Z); ("p50"%string, 2%Z);
                       ("p95"%string, 3%Z)])
    by (vm_compute; reflexivity).
  split; [exact Hrun|].
  destruct (samples_to_percentile_dict_truncates _ _ _ Hrun)
    as [(out & Hout & Hentries) _].
  destruct (Hentries 50%Z) as (x & Hx & Hget); [simpl; auto|].
  exists out, x. repeat split; auto.
  vm_compute in Hget. now injection Hget as ->.
Defined.

(** ** [format_thousands] *)

Section Rounding2.

Local Open Scope Qc_scope.

Lemma Qc_ltb_lt (x y : Qc) : Qc_ltb x y = true <-> x < y.
Proof.
  unfold Qc_ltb. rewrite negb_true_iff. apply (Qc_leb_gt y x).
Qed.

Lemma Qc_ltb_ge (x y : Qc) : Qc_ltb x y = false <-> y <= x.
Proof.
  unfold Qc_ltb. rewrite negb_false_iff. apply (Qc_leb_le y x).
Qed.

Lemma this_inv (x : Qc) : (this (/ x) == / this x)%Q.
Proof. unfold Qcinv, Q2Qc. cbn [this]. apply Qred_correct. Qed.

Lemma this_div (x y : Qc) : (this (x / y) == this x / this y)%Q.
Proof. unfold Qcdiv. rewrite this_mult, this_inv. reflexivity. Qed.

Lemma this_half : (this (Q2Qc (1 # 2)) == 1 # 2)%Q.
Proof. reflexivity. Qed.

Lemma inject_Z_sub (a b : Z) :
  inject_Z (a - b) = (inject_Z a - inject_Z b)%Q.
Proof. unfold Z.sub. now rewrite inject_Z_plus, inject_Z_opp. Qed.

(** [round(x)] is the integer nearest to [x]; halfway between two integers
    it is the even one. *)
Lemma py_round_nearest (x : Qc) (k : Z) :
  (QcZ k - Q2Qc (1 # 2) < x -> x < QcZ k + Q2Qc (1 # 2) -> py_round x = k) /\
  (x = QcZ k + Q2Qc (1 # 2) ->
   py_round x = if Z.even k then k else (k + 1)%Z).
Proof.
  split.
  - intros Hlo Hhi.
    destruct (Qclt_le_dec x (QcZ k)) as [Hlt|Hge].
    + assert (Hf : Qc_floor x = (k - 1)%Z).
      { apply Qc_floor_unique.
        - unfold Qcle, Qclt in *. rewrite this_minus, this_half in Hlo.
          rewrite this_QcZ in *. rewrite inject_Z_sub.
          change (inject_Z 1) with 1%Q. lra.
        - now replace (k - 1 + 1)%Z with k by lia. }
      unfold py_round. rewrite Hf.
      assert (H1 : Qc_ltb (x - QcZ (k - 1)) (Q2Qc (1 # 2)) = false).
      { apply Qc_ltb_ge. unfold Qcle, Qclt in *.
        rewrite this_minus, this_half in *.
        rewrite this_QcZ in *. rewrite inject_Z_sub.
          change (inject_Z 1) with 1%Q. lra. }
      assert (H2 : Qc_ltb (Q2Qc (1 # 2)) (x - QcZ (k - 1)) = true).
      { apply Qc_ltb_lt. unfold Qcle, Qclt in *.
        rewrite this_minus, this_half in *.
        rewrite this_QcZ in *. rewrite inject_Z_sub.
          change (inject_Z 1) with 1%Q. lra. }
      rewrite H1, H2. lia.
    + assert (Hf : Qc_floor x = k).
      { apply Qc_floor_unique; [exact Hge|].
        unfold Qcle, Qclt in *. rewrite this_plus, this_half in Hhi.
        rewrite this_QcZ in *. rewrite inject_Z_plus.
        change (inject_Z 1) with 1%Q. lra. }
      unfold py_round. rewrite Hf.
      assert (H1 : Qc_ltb (x - QcZ k) (Q2Qc (1 # 2)) = true).
      { apply Qc_ltb_lt. unfold Qcle, Qclt in *.
        rewrite this_minus, this_half. rewrite this_plus, this_half in Hhi.
        lra. }
      now rewrite H1.
  - intros ->.
    assert (Hf : Qc_floor (QcZ k + Q2Qc (1 # 2)) = k).
    { apply Qc_floor_unique; unfold Qcle, Qclt;
        rewrite this_plus, this_half, !this_QcZ; [|rewrite inject_Z_plus];
        change (inject_Z 1) with 1%Q; lra. }
    unfold py_round. rewrite Hf.
    assert (Hr : QcZ k + Q2Qc (1 # 2) - QcZ k = Q2Qc (1 # 2)) by ring.
    rewrite Hr.
    assert (H1 : Qc_ltb (Q2Qc (1 # 2)) (Q2Qc (1 # 2)) = false)
      by reflexivity.
    now rewrite H1.
Qed.

(** X4. In exact arithmetic (the quotient [n / 1000] is not rounded before
    [round] sees it), [format_thousands] shows the number of thousands
    nearest to [n]: every [n] strictly between [1000 k - 500] and
    [1000 k + 500] is shown as [k] followed by ["k"], and [1000 k + 500]
    itself as the even one of [k] and [k + 1]. *)
Theorem format_thousands_nearest (n : Qc) (k : Z) :
  (QcZ (1000 * k - 500) < n -> n < QcZ (1000 * k + 500) ->
   format_thousands n = (str_of_Z k ++ "k")%string) /\
  (n = QcZ (1000 * k + 500) ->
   format_thousands n
   = (str_of_Z (if Z.even k then k else (k + 1)%Z) ++ "k")%string).
Proof.
  unfold format_thousands. split.
  - intros Hlo Hhi. do 2 f_equal.
    apply (proj1 (py_round_nearest (n / QcZ 1000) k)).
    + unfold Qclt in *. rewrite this_minus, this_half, this_div.
      rewrite !this_QcZ in *.
      rewrite inject_Z_sub, inject_Z_mult in Hlo.
      change (inject_Z 1000) with 1000%Q in *.
      change (inject_Z 500) with 500%Q in *.
      setoid_replace (this n / 1000)%Q with (this n * (1 # 1000))%Q
        by field.
      lra.
    + unfold Qclt in *. rewrite this_plus, this_half, this_div.
      rewrite !this_QcZ in *.
      rewrite inject_Z_plus, inject_Z_mult in Hhi.
      change (inject_Z 1000) with 1000%Q in *.
      change (inject_Z 500) with 500%Q in *.
      setoid_replace (this n / 1000)%Q with (this n * (1 # 1000))%Q
        by field.
      lra.
  - intros ->. do 2 f_equal.
    apply (proj2 (py_round_nearest _ k)).
    apply Qc_is_canon.
    rewrite this_plus, this_half, this_div, !this_QcZ.
    rewrite inject_Z_plus, inject_Z_mult.
    change (inject_Z 1000) with 1000%Q.
    change (inject_Z 500) with 500%Q. field.
Qed.

End Rounding2.

Lemma format_thousands_nearest_witness :
  format_thousands (QcZ 12499) = "12k"%string /\
  format_thousands (QcZ 12500) = "12k"%string /\
  format_thousands (QcZ 13500) = "14k"%string.
Proof.
  split; [|split].
  - apply (proj1 (format_thousands_nearest (QcZ 12499) 12));
      apply Qc_ltb_lt; vm_compute; reflexivity.
  - apply (proj2 (format_thousands_nearest (QcZ 12500) 12)). reflexivity.
  - apply (proj2 (format_thousands_nearest (QcZ 13500) 13)). reflexivity.
Defined.

(** ** [export_quarterly_by_version] *)

Lemma result_fold_app {X A} (body : X -> A -> result A) (xs ys : list X)
  (acc : A) :
  result_fold body (xs ++ ys) acc
  = result_bind (result_fold body xs acc) (result_fold body ys).
Proof.
  revert acc. induction xs as [|x xs IH]; intros acc; [reflexivity|].
  simpl. destruct (body x acc); simpl; [apply IH | reflexivity].
Qed.

(** A loop raises when one of its items always does; the exception is one
    the items can raise. *)
Lemma result_fold_raises {X A} (body : X -> A -> result A)
  (E : exn -> Prop) (xs : list X) (x0 : X) :
  In x0 xs ->
  (forall x a e, In x xs -> body x a = Raise e -> E e) ->
  (forall a, exists e, body x0 a = Raise e) ->
  forall a, exists e, result_fold body xs a = Raise e /\ E e.
Proof.
  intros Hin Hexn Hraise.
  induction xs as [|x xs IH]; intros a; [destruct Hin|].
  cbn [result_fold]. destruct (body x a) as [a'|e] eqn:Hbody.
  - cbn [result_bind]. destruct Hin as [->|Hin].
    + destruct (Hraise a) as (e & He). congruence.
    + apply IH; [exact Hin|].
      intros y b e Hy. apply Hexn. now right.
  - exists e. split; [reflexivity|]. apply (Hexn x a e); [now left|exact Hbody].
Qed.

Lemma positive_sum_nonempty (arr : list Qc) :
  Qc_gt0 (py_sum arr) = true -> arr <> [].
Proof. intros Hpos ->. discriminate. Qed.

Section ExportFacts.

Local Open Scope Qc_scope.

Variable results : table Qc.
Variable chip_specs : dict version (dict string Qc).
Variable h100_tops : Qc.

(** What one step of the loop does to the rows. *)
Lemma export_step_Ok q v rows rows' :
  export_step results chip_specs h100_tops q v rows = Ok rows' ->
  (positive_cell results q v = false /\ rows' = rows) \/
  (positive_cell results q v = true /\
   exists arr tops ratio c5 c50 c95 h5 h50 h95,
     cell results q v = Some arr /\
     spec_tops chip_specs v = Ok tops /\
     Qc_div tops h100_tops = Some ratio /\
     np_percentile arr (QcZ 5) = Ok c5 /\
     np_percentile arr (QcZ 50) = Ok c50 /\
     np_percentile arr (QcZ 95) = Ok c95 /\
     np_percentile (scale_array arr ratio) (QcZ 5) = Ok h5 /\
     np_percentile (scale_array arr ratio) (QcZ 50) = Ok h50 /\
     np_percentile (scale_array arr ratio) (QcZ 95) = Ok h95 /\
     rows' = (rows ++
              [{| row_quarter := q; row_version := v;
                  chips_p5 := py_int c5; chips_p50 := py_int c50;
                  chips_p95 := py_int c95;
                  h100e_p5 := py_int h5; h100e_p50 := py_int h50;
                  h100e_p95 := py_int h95 |}])%list).
Proof.
  unfold export_step, positive_cell.
  destruct (cell results q v) as [arr|]; [|discriminate].
  destruct (Qc_gt0 (py_sum arr)); [|intros [= <-]; now left].
  destruct (spec_tops chip_specs v) as [tops|]; [|discriminate].
  cbn [result_bind]. unfold div_or_raise.
  change (num_div tops h100_tops) with (Qc_div tops h100_tops).
  destruct (Qc_div tops h100_tops) as [ratio|] eqn:Hratio; [|discriminate].
  cbn [result_bind].
  destruct (np_percentile arr (QcZ 5)) as [c5|] eqn:H5; [|discriminate].
  destruct (np_percentile arr (QcZ 50)) as [c50|] eqn:H50; [|discriminate].
  destruct (np_percentile arr (QcZ 95)) as [c95|] eqn:H95; [|discriminate].
  cbn [result_bind].
  destruct (np_percentile (scale_array arr ratio) (QcZ 5)) as [h5|] eqn:G5;
    [|discriminate].
  destruct (np_percentile (scale_array arr ratio) (QcZ 50)) as [h50|] eqn:G50;
    [|discriminate].
  destruct (np_percentile (scale_array arr ratio) (QcZ 95)) as [h95|] eqn:G95;
    [|discriminate].
  cbn [result_bind]. intros [= <-]. right. split; [reflexivity|].
  exists arr, tops, ratio, c5, c50, c95, h5, h50, h95.
  repeat split; auto.
Qed.




End ExportFacts.

Lemma result_fold_exn {X A} (body : X -> A -> result A) (E : exn -> Prop)
  (xs : list X) :
  (forall x a e, In x xs -> body x a = Raise e -> E e) ->
  forall a e, result_fold body xs a = Raise e -> E e.
Proof.
  induction xs as [|x xs IH]; intros Hexn a e Hrun; [discriminate|].
  cbn [result_fold] in Hrun. destruct (body x a) as [a'|e'] eqn:Hbody.
  - cbn [result_bind] in Hrun. apply (IH (fun y b e0 Hy => Hexn y b e0
                                            (or_intror Hy)) a' e Hrun).
  - cbn [result_bind] in Hrun. injection Hrun as <-.
    apply (Hexn x a e' (or_introl eq_refl) Hbody).
Qed.

(** A loop whose steps keep a property of the accumulator keeps it. *)
Lemma result_fold_invariant {X A} (body : X -> A -> result A)
  (P : A -> Prop) (xs : list X) :
  (forall x a a', In x xs -> P a -> body x a = Ok a' -> P a') ->
  forall a a', P a -> result_fold body xs a = Ok a' -> P a'.
Proof.
  induction xs as [|x xs IH]; intros Hstep a a' Ha Hrun.
  - simpl in Hrun. now injection Hrun as <-.
  - cbn [result_fold] in Hrun. destruct (body x a) as [a1|e] eqn:Hbody;
      [|discriminate].
    cbn [result_bind] in Hrun.
    apply (IH (fun y b b' Hy => Hstep y b b' (or_intror Hy)) a1 a'); auto.
    apply (Hstep x a a1); auto. now left.
Qed.

Lemma percentile_5_50_95 :
  (QcZ 0 <= QcZ 5 /\ QcZ 5 <= QcZ 50 /\ QcZ 50 <= QcZ 95 /\
   QcZ 95 <= QcZ 100)%Qc.
Proof. repeat split; apply Qc_leb_le; vm_compute; reflexivity. Qed.

(** The three entries of the percentile dictionary, from the three
    percentiles. *)
Lemma samples_to_percentile_dict_5_50_95 (arr : list Qc) (c5 c50 c95 : Qc) :
  np_percentile arr (QcZ 5) = Ok c5 ->
  np_percentile arr (QcZ 50) = Ok c50 ->
  np_percentile arr (QcZ 95) = Ok c95 ->
  samples_to_percentile_dict arr [5; 50; 95]%Z
  = Ok [("p5"%string, py_int c5); ("p50"%string, py_int c50);
        ("p95"%string, py_int c95)].
Proof.
  intros H5 H50 H95. unfold samples_to_percentile_dict.
  cbn [result_fold]. unfold percentile_dict_item.
  rewrite H5, H50, H95. reflexivity.
Qed.

Section ExportRows.

Local Open Scope Qc_scope.

Variable results : table Qc.
Variable chip_specs : dict version (dict string Qc).
Variable h100_tops : Qc.

Lemma export_step_row q v rows rows' :
  Forall (export_row_ok results chip_specs h100_tops) rows ->
  export_step results chip_specs h100_tops q v rows = Ok rows' ->
  Forall (export_row_ok results chip_specs h100_tops) rows'.
Proof.
  intros Hrows Hstep.
  destruct (export_step_Ok _ _ _ _ _ _ _ Hstep) as [[_ ->]|[_ Hrow]];
    [exact Hrows|].
  destruct Hrow as (arr & tops & ratio & c5 & c50 & c95 & h5 & h50 & h95
                    & Hcell & Htops & Hratio & H5 & H50 & H95
                    & G5 & G50 & G95 & ->).
  apply Forall_app. split; [exact Hrows|]. constructor; [|constructor].
  exists arr, (scale_array arr ratio).
  cbn [row_quarter row_version chips_p5 chips_p50 chips_p95
         h100e_p5 h100e_p50 h100e_p95].
  split; [exact Hcell|]. split; [|split].
  - unfold compute_h100_equivalents, PyDict.items. cbn [result_fold].
    unfold convert_item. rewrite Htops. cbn [result_bind].
    unfold div_or_raise.
    change (num_div tops h100_tops) with (Qc_div tops h100_tops).
    rewrite Hratio. reflexivity.
  - now apply samples_to_percentile_dict_5_50_95.
  - now apply samples_to_percentile_dict_5_50_95.
Qed.

(** X6. Every exported row agrees with the other utilities: its chip
    columns are the three entries that [samples_to_percentile_dict]
    returns for the samples of its cell, and its H100-equivalent columns
    are the three entries that [samples_to_percentile_dict] returns for
    the array that [compute_h100_equivalents] returns for these samples. *)
Theorem export_rows_content (rows : list export_row) :
  export_quarterly_by_version results chip_specs h100_tops = Ok rows ->
  Forall (export_row_ok results chip_specs h100_tops) rows.
Proof.
  unfold export_quarterly_by_version.
  apply (result_fold_invariant _
           (Forall (export_row_ok results chip_specs h100_tops)));
    [|constructor].
  intros q rows0 rows1 _ Hrows0.
  apply (result_fold_invariant _
           (Forall (export_row_ok results chip_specs h100_tops)));
    [|exact Hrows0].
  intros v rows2 rows3 _. apply export_step_row.
Qed.

Lemma export_step_Raise q v rows e :
  h100_tops <> 0 ->
  export_step results chip_specs h100_tops q v rows = Raise e ->
  e = KeyError.
Proof.
  intros Hh. unfold export_step.
  destruct (cell results q v) as [arr|]; [|now intros [= <-]].
  destruct (Qc_gt0 (py_sum arr)) eqn:Hpos; [|discriminate].
  apply positive_sum_nonempty in Hpos.
  unfold spec_tops.
  destruct (PyDict.get chip_specs v) as [spec|]; [|now intros [= <-]].
  destruct (PyDict.get spec "tops"%string) as [tops|]; [|now intros [= <-]].
  cbn [result_bind]. unfold div_or_raise.
  change (num_div tops h100_tops) with (Qc_div tops h100_tops).
  unfold Qc_div.
  destruct (Qc_eq_bool h100_tops 0) eqn:E;
    [apply Qc_eq_bool_correct in E; contradiction|].
  cbn [result_bind].
  destruct percentile_5_50_95 as (H0 & H5_50 & H50_95 & H100).
  assert (Hscaled : scale_array arr (tops / h100_tops) <> []).
  { destruct arr; [congruence | discriminate]. }
  rewrite !np_percentile_interpolates; auto;
    repeat (eapply Qcle_trans; eauto).
  discriminate.
Qed.

(** The export does not return when a cell is missing, whatever the
    exception. *)
Lemma export_missing_cell_raises :
  (exists q v, In q (PyDict.keys results) /\ In v (PyDict.keys chip_specs) /\
               cell results q v = None) ->
  exists e,
    export_quarterly_by_version results chip_specs h100_tops = Raise e.
Proof.
  intros (q0 & v0 & Hq0 & Hv0 & Hnone).
  unfold export_quarterly_by_version.
  destruct (result_fold_raises
              (fun q rows =>
                 result_fold (export_step results chip_specs h100_tops q)
                   (PyDict.keys chip_specs) rows)
              (fun _ => True) (PyDict.keys results) q0 Hq0)
    with (a := @nil export_row) as (e & Hrun & _); [auto | |eauto].
  intros rows.
  destruct (result_fold_raises
              (export_step results chip_specs h100_tops q0)
              (fun _ => True) (PyDict.keys chip_specs) v0 Hv0)
    with (a := rows) as (e & Hrun & _); [auto | |eauto].
  intros rows1. exists KeyError. unfold export_step. now rewrite Hnone.
Qed.

(** X7. When [chip_specs] names a version that some quarter of the results
    lacks, the export does not return: it raises, whatever the values of
    the table and the reference throughput are. Over exact rationals,
    where every sample is finite, and with a reference throughput that
    is not zero, the exception is the [KeyError] of the missing cell. *)
Theorem export_missing_cell :
  (exists q v, In q (PyDict.keys results) /\ In v (PyDict.keys chip_specs) /\
               cell results q v = None) ->
  (exists e,
      export_quarterly_by_version results chip_specs h100_tops = Raise e) /\
  (h100_tops <> 0 ->
   export_quarterly_by_version results chip_specs h100_tops
   = Raise KeyError).
Proof.
  intros Hmissing. split; [now apply export_missing_cell_raises|].
  destruct Hmissing as (q0 & v0 & Hq0 & Hv0 & Hnone). intros Hh.
  unfold export_quarterly_by_version.
  destruct (result_fold_raises
              (fun q rows =>
                 result_fold (export_step results chip_specs h100_tops q)
                   (PyDict.keys chip_specs) rows)
              (eq KeyError) (PyDict.keys results) q0 Hq0)
    with (a := @nil export_row) as (e & Hrun & <-); [| |exact Hrun].
  - intros q rows e _ Hraise. symmetry.
    apply (result_fold_exn _ (fun e => e = KeyError) _
             (fun v rows1 e1 _ => export_step_Raise q v rows1 e1 Hh)
             rows e Hraise).
  - intros rows.
    destruct (result_fold_raises
                (export_step results chip_specs h100_tops q0)
                (eq KeyError) (PyDict.keys chip_specs) v0 Hv0)
      with (a := rows) as (e & Hrun & _); [| |eauto].
    + intros v rows1 e1 _ Hraise. symmetry.
      eapply export_step_Raise; eauto.
    + intros rows1. exists KeyError. unfold export_step. now rewrite Hnone.
Qed.

End ExportRows.


Lemma export_rows_content_witness :
  exists rows,
    export_quarterly_by_version Tables.one_quarter Tables.two_specs
      default_h100_tops = Ok rows /\
    Forall (export_row_ok Tables.one_quarter Tables.two_specs
              default_h100_tops) rows.
Proof.
  eexists. split; [vm_compute; reflexivity|].
  apply export_rows_content. vm_compute. reflexivity.
Defined.

Lemma export_missing_cell_witness :
  (exists e,
      export_quarterly_by_version Tables.one_quarter Tables.three_specs
        default_h100_tops = Raise e) /\
  export_quarterly_by_version Tables.one_quarter Tables.three_specs
    default_h100_tops = Raise KeyError.
Proof.
  destruct (export_missing_cell Tables.one_quarter Tables.three_specs
              default_h100_tops) as [Hraises Hkey].
  - exists "Q1"%string, "C"%string. repeat split; simpl; auto.
  - split; [exact Hraises|]. apply Hkey.
    intros H. apply (f_equal this) in H. vm_compute in H. discriminate.
Defined.

(** ** [print_cumulative_summary] *)


Lemma percentile_line_returns (label : string) (arr : list Qc) :
  arr <> [] -> exists line, percentile_line label arr = Ok line.
Proof.
  intros Hne. unfold percentile_line.
  destruct percentile_5_50_95 as (H0 & H5_50 & H50_95 & H100).
  rewrite !np_percentile_interpolates; auto;
    repeat (eapply Qcle_trans; eauto).
  cbn [result_bind]. eauto.
Qed.

(** An in-place sum that goes through, on arrays of one length. *)
Lemma iadd_arrays_Ok (total arr total' : ndarray) :
  List.length (array_data arr) = List.length (array_data total) ->
  iadd_arrays total arr = Ok total' ->
  array_dtype total' = array_dtype total /\
  array_data total'
  = map (fun xy => (fst xy + snd xy)%Qc)
      (combine (array_data total) (array_data arr)).
Proof.
  intros Hlen. unfold iadd_arrays, add_arrays.
  rewrite Hlen, Nat.eqb_refl. cbn [result_map].
  destruct (array_dtype total), (array_dtype arr); try discriminate;
    intros [= <-]; split; reflexivity.
Qed.

(** On arrays of one length and one element type the in-place sum goes
    through. *)
Lemma iadd_arrays_same_dtype (total arr : ndarray) :
  List.length (array_data arr) = List.length (array_data total) ->
  array_dtype total = array_dtype arr ->
  exists total', iadd_arrays total arr = Ok total'.
Proof.
  intros Hlen Hdtype. unfold iadd_arrays, add_arrays.
  rewrite Hlen, Nat.eqb_refl, Hdtype. cbn [result_map].
  destruct (array_dtype arr); eauto.
Qed.

Section CumulativeFacts.

Local Open Scope Qc_scope.

Variable cumulative : dict version ndarray.
Variable n : nat.





(** The call does not return when a version is missing, whatever the
    exception. *)
Lemma print_cumulative_summary_raises
  (chip_specs : dict version (dict string Qc)) (title : string) (v0 : version) :
  In v0 (PyDict.keys chip_specs) ->
  PyDict.get cumulative v0 = None ->
  exists e, print_cumulative_summary cumulative chip_specs title = Raise e.
Proof.
  intros Hin Hnone. unfold print_cumulative_summary.
  destruct (result_fold_raises (cumulative_step cumulative) (fun _ => True)
              (PyDict.keys chip_specs) v0 Hin)
    with (a := {| printed := summary_heading title; grand_total := None |})
    as (e & Hrun & _); [auto | |].
  - intros st. exists KeyError. unfold cumulative_step. now rewrite Hnone.
  - exists e. fold (summary_heading title). now rewrite Hrun.
Qed.

Section OneKind.

(** All the arrays have [n] elements, of the type [d]. *)
Variable d : dtype.
Hypothesis one_kind :
  forall v arr, PyDict.get cumulative v = Some arr ->
    List.length (array_data arr) = n /\ array_dtype arr = d.

Lemma cumulative_step_kind (v : version) (st : summary_state) :
  (forall total, grand_total st = Some total ->
     List.length (array_data total) = n /\ array_dtype total = d) ->
  match cumulative_step cumulative v st with
  | Ok st' =>
      forall total, grand_total st' = Some total ->
        List.length (array_data total) = n /\ array_dtype total = d
  | Raise e => e = KeyError
  end.
Proof.
  intros Htotal. unfold cumulative_step.
  destruct (PyDict.get cumulative v) as [arr|] eqn:Hget; [|reflexivity].
  destruct (one_kind v arr Hget) as [Hlen Hdtype].
  destruct (Qc_gt0 (py_sum (array_data arr))) eqn:Hpos; [|exact Htotal].
  set (start := match grand_total st with
                | Some total => total
                | None => np_zeros_like arr
                end).
  assert (Hstart : List.length (array_data start) = n /\
                   array_dtype start = d).
  { unfold start. destruct (grand_total st) as [total|]; [now apply Htotal|].
    unfold np_zeros_like, np_zeros. cbn [array_data array_dtype].
    now rewrite repeat_length. }
  destruct Hstart as [Hslen Hsd].
  destruct (iadd_arrays_same_dtype start arr) as (total & Hadd);
    [congruence | congruence |].
  rewrite Hadd. cbn [result_bind].
  destruct (percentile_line_returns v (array_data arr)
              (positive_sum_nonempty _ Hpos)) as (line & ->).
  cbn [result_bind]. intros total' [= <-].
  destruct (iadd_arrays_Ok start arr total) as [Hd Hdata];
    [congruence | exact Hadd |].
  split; [|congruence].
  rewrite Hdata, length_map, length_combine. lia.
Qed.

Lemma cumulative_fold_Raise :
  forall (versions : list version) (v0 : version) (st : summary_state),
    In v0 versions -> PyDict.get cumulative v0 = None ->
    (forall total, grand_total st = Some total ->
       List.length (array_data total) = n /\ array_dtype total = d) ->
    result_fold (cumulative_step cumulative) versions st = Raise KeyError.
Proof.
  induction versions as [|v versions IH];
    intros v0 st Hin Hnone Htotal; [destruct Hin|].
  cbn [result_fold].
  pose proof (cumulative_step_kind v st Htotal) as Hstep.
  destruct (cumulative_step cumulative v st) as [st'|e] eqn:Hrun.
  - cbn [result_bind]. destruct Hin as [->|Hin].
    + unfold cumulative_step in Hrun. rewrite Hnone in Hrun. discriminate.
    + now apply (IH v0 st' Hin Hnone).
  - cbn [result_bind]. now rewrite Hstep.
Qed.

End OneKind.

(** X9. When [chip_specs] names a version that [cumulative] does not have,
    the call does not return: it raises, whatever the arrays hold. Over
    exact rationals, where every sample is finite, and with arrays of one
    length and one element type, the exception is the [KeyError] of the
    missing version. *)
Theorem print_cumulative_summary_missing_version
  (chip_specs : dict version (dict string Qc)) (title : string) (v0 : version) :
  In v0 (PyDict.keys chip_specs) ->
  PyDict.get cumulative v0 = None ->
  (exists e, print_cumulative_summary cumulative chip_specs title = Raise e) /\
  ((exists d, forall v arr, PyDict.get cumulative v = Some arr ->
      List.length (array_data arr) = n /\ array_dtype arr = d) ->
   print_cumulative_summary cumulative chip_specs title = Raise KeyError).
Proof.
  intros Hin Hnone.
  split; [now apply (print_cumulative_summary_raises _ _ v0)|].
  intros (d & Hkind). unfold print_cumulative_summary.
  rewrite (cumulative_fold_Raise d Hkind (PyDict.keys chip_specs) v0 _ Hin
             Hnone); [reflexivity|discriminate].
Qed.

End CumulativeFacts.


Lemma print_cumulative_summary_missing_version_witness :
  print_cumulative_summary Tables.cumulative_counts
    (Tables.three_specs ++ [("D"%string, [("tops"%string, QcZ 1)])])
    default_title
  = Raise KeyError.
Proof.
  apply (print_cumulative_summary_missing_version Tables.cumulative_counts 4
           _ _ "D"%string).
  - simpl. auto.
  - reflexivity.
  - exists Float64. intros v arr. unfold Tables.cumulative_counts.
    cbn [PyDict.get].
    repeat (destruct (key_eqb _ _); [intros [= <-]; split; reflexivity|]).
    discriminate.
Defined.

(** An integer array followed by a float array: the in-place sum of the
    second into the total of the first is refused. *)
Lemma print_cumulative_summary_mixed_dtypes :
  print_cumulative_summary Tables.mixed_counts Tables.two_specs default_title
  = Raise TypeError.
Proof. vm_compute. reflexivity. Qed.

(** ** The layout of [summarize_quarterly_by_chip] *)

Section SummaryLayout.

Variable format_fn : Qc -> string.
Variable results : table Qc.






End SummaryLayout.


(** ** [normalize_shares]: scaling and renormalizing *)

Section NormalizeAlgebra.

Local Open Scope Qc_scope.

Lemma Qc_sum_times (l : list Qc) (c : Qc) :
  fold_left Qcplus (map (fun v => v * c) l) 0 = fold_left Qcplus l 0 * c.
Proof.
  induction l as [|x l IH]; simpl.
  - ring.
  - rewrite Qc_sum_from, IH, (Qc_sum_from l (0 + x)). ring.
Qed.

Lemma values_map_values (f : Qc -> Qc) (d : dict version Qc) :
  PyDict.values (PyDict.map_values f d) = map f (PyDict.values d).
Proof.
  unfold PyDict.values, PyDict.map_values. rewrite !map_map. reflexivity.
Qed.

Lemma Qc_div_cases (x y : Qc) :
  (y = 0 /\ Qc_div x y = None) \/ (y <> 0 /\ Qc_div x y = Some (x / y)).
Proof.
  unfold Qc_div, Qc_eq_bool.
  destruct (Qc_eq_dec y (Q2Qc 0)) as [Hy|Hy]; [left|right]; auto.
Qed.

Lemma normalize_item_scaled (total c : Qc) (k : version) (v : Qc)
  (out : dict version Qc) :
  c <> 0 ->
  normalize_item (total * c) (k, v * c) out = normalize_item total (k, v) out.
Proof.
  intros Hc. unfold normalize_item, div_or_raise.
  change (@num_div Qc _) with Qc_div.
  destruct (Qc_div_cases v total) as [[H0 ->]|[H0 ->]];
    destruct (Qc_div_cases (v * c) (total * c)) as [[H1 ->]|[H1 ->]];
    try reflexivity.
  - subst total. exfalso. apply H1. ring.
  - exfalso. apply Qcmult_integral in H1. tauto.
  - cbn [result_bind]. do 2 f_equal. field. auto.
Qed.

Lemma normalize_fold_scaled (total c : Qc) :
  c <> 0 ->
  forall (raw acc : dict version Qc),
    result_fold (normalize_item (total * c))
      (PyDict.map_values (fun v => v * c) raw) acc
    = result_fold (normalize_item total) raw acc.
Proof.
  intros Hc. induction raw as [|[k v] raw IH]; intros acc; [reflexivity|].
  cbn [PyDict.map_values map result_fold fst snd].
  rewrite normalize_item_scaled by exact Hc.
  destruct (normalize_item total (k, v) acc); cbn [result_bind];
    [apply IH | reflexivity].
Qed.

(** X11. Multiplying every weight by the same number, other than zero, does not
    change the outcome of [normalize_shares]: the same shares, or the same
    error. *)
Theorem normalize_shares_scale_invariant (raw : dict version Qc) (c : Qc) :
  c <> 0 ->
  normalize_shares (PyDict.map_values (fun v => v * c) raw)
  = normalize_shares raw.
Proof.
  intros Hc. unfold normalize_shares, PyDict.items.
  rewrite values_map_values. unfold py_sum.
  change (@num_add Qc _) with Qcplus. change (@num_zero Qc _) with (Q2Qc 0).
  rewrite Qc_sum_times. now apply normalize_fold_scaled.
Qed.

Lemma div_one_values (d : dict version Qc) :
  map (fun kv => (fst kv, snd kv / Q2Qc 1)) d = d.
Proof.
  induction d as [|[k v] d IH]; [reflexivity|].
  cbn [map fst snd]. rewrite IH. do 2 f_equal.
  field. intros H. apply (f_equal this) in H. discriminate.
Qed.

(** X12. Shares that [normalize_shares] returned are left as they are by a
    second normalization. *)
Theorem normalize_shares_idempotent (raw out : dict version Qc) :
  PyDict.well_formed raw ->
  normalize_shares raw = Ok out ->
  normalize_shares out = Ok out.
Proof.
  intros Hwf Hrun.
  destruct raw as [|[k w] raw'] eqn:Hraw.
  - now injection Hrun as <-.
  - rewrite <- Hraw in *.
    set (total := py_sum (PyDict.values raw)) in *.
    assert (Htotal : total <> Q2Qc 0).
    { intros Hzero. revert Hrun.
      unfold normalize_shares, PyDict.items. fold total. rewrite Hraw.
      cbn [result_fold]. unfold normalize_item at 1, div_or_raise.
      change (num_div w total) with (Qc_div w total).
      unfold Qc_div. rewrite Hzero. discriminate. }
    unfold normalize_shares, PyDict.items in Hrun. fold total in Hrun.
    rewrite (normalize_fold_Qc total Htotal raw [] Hwf) in Hrun.
    injection Hrun as <-. cbn [app].
    fold (PyDict.map_values (fun v => v / total) raw).
    assert (Hone : py_sum (PyDict.values
                             (PyDict.map_values (fun v => v / total) raw))
                   = Q2Qc 1).
    { rewrite values_map_values. unfold py_sum.
      change (@num_add Qc _) with Qcplus.
      change (@num_zero Qc _) with (Q2Qc 0).
      rewrite Qc_sum_scaled. fold (py_sum (PyDict.values raw)). fold total.
      unfold Qcdiv. now apply Qcmult_inv_r. }
    unfold normalize_shares, PyDict.items. rewrite Hone.
    rewrite normalize_fold_Qc.
    + cbn [app]. now rewrite div_one_values.
    + discriminate.
    + cbn [app]. rewrite PyDictFacts.keys_map_values. exact Hwf.
Qed.

End NormalizeAlgebra.

Lemma normalize_shares_scale_invariant_witness :
  normalize_shares
    (PyDict.map_values (fun v => (v * QcZ 1000)%Qc)
       [("A"%string, QcZ 3); ("B"%string, QcZ 1)])
  = normalize_shares [("A"%string, QcZ 3); ("B"%string, QcZ 1)].
Proof.
  apply normalize_shares_scale_invariant.
  intros H. apply (f_equal this) in H. vm_compute in H. discriminate.
Defined.

Lemma normalize_shares_idempotent_witness :
  normalize_shares [("A"%string, Q2Qc (3 # 4)); ("B"%string, Q2Qc (1 # 4))]
  = Ok [("A"%string, Q2Qc (3 # 4)); ("B"%string, Q2Qc (1 # 4))].
Proof.
  apply (normalize_shares_idempotent
           [("A"%string, QcZ 3); ("B"%string, QcZ 1)]).
  - exact NoDup_A_B.
  - unfold normalize_shares, PyDict.items.
    rewrite normalize_fold_Qc.
    + simpl. repeat f_equal; apply Qc_is_canon; vm_compute; reflexivity.
    + intros Heq. apply (f_equal this) in Heq. vm_compute in Heq.
      discriminate.
    + exact NoDup_A_B.
Defined.

(** ** What a run of the engine computes *)

Lemma concat_repeat_snoc {A} (l : list A) (k : nat) :
  List.concat (repeat l (S k)) = List.concat (repeat l k) ++ l.
Proof.
  replace (repeat l (S k)) with (repeat l k ++ [l])
    by (symmetry; apply (repeat_cons k l)).
  rewrite concat_app. simpl. now rewrite app_nil_r.
Qed.

Section EngineTrace.

Context {num : Type} `{PyNum num} {W : Type}.

Variable sample_revenue : quarter -> W -> num * W.
Variable sample_shares : quarter -> W -> dict version num * W.
Variable sample_price : quarter -> version -> W -> num * W.

Variable quarters : list quarter.
Variable versions : list version.

Hypothesis versions_distinct : NoDup versions.

Lemma get_app_Some (d d' : dict version num) v x :
  PyDict.get d v = Some x -> PyDict.get (d ++ d') v = Some x.
Proof.
  induction d as [|[k y] d IH]; cbn [PyDict.get app]; [discriminate|].
  destruct (key_eqb k v); auto.
Qed.

Lemma get_snoc_fresh (d : dict version num) v x :
  ~ In v (PyDict.keys d) -> PyDict.get (d ++ [(v, x)]) v = Some x.
Proof.
  induction d as [|[k y] d IH]; cbn [PyDict.get PyDict.keys map fst app];
    intros Hn.
  - now rewrite PyDictFacts.key_eqb_refl.
  - rewrite PyDictFacts.key_eqb_neq by (simpl in Hn; tauto).
    apply IH. simpl in Hn. tauto.
Qed.

Lemma draw_chips_grow q revenue shares prices more v chips :
  draw_chips v {| draw_quarter := q; draw_revenue := revenue;
                  draw_shares := shares; draw_prices := prices |} chips ->
  draw_chips v {| draw_quarter := q; draw_revenue := revenue;
                  draw_shares := shares; draw_prices := prices ++ more |}
    chips.
Proof.
  unfold draw_chips. cbn [draw_shares draw_prices draw_revenue].
  destruct (has_volume shares v); [|auto].
  intros (price & Hget & Hdiv). exists price. split; [|exact Hdiv].
  now apply get_app_Some.
Qed.

Lemma cells_after_append (r0 r r' : table num) q v seen
  (d d' : draw num) chips :
  In q quarters -> In v versions -> ~ In v seen ->
  cells_during quarters versions r0 r q seen d ->
  append_sample r q v chips = Ok r' ->
  (forall v' c, draw_chips v' d c -> draw_chips v' d' c) ->
  draw_chips v d' chips ->
  cells_during quarters versions r0 r' q (seen ++ [v]) d'.
Proof.
  intros Hq Hv Hfresh Hcells Happ Hgrow Hchips.
  destruct (Hcells q v Hq Hv) as (old_v & Hold_v & Hcase_v).
  revert Hcase_v.
  destruct (key_eq_dec q q) as [_|Hne]; [|contradiction].
  destruct (in_dec string_dec v seen) as [Hin|_]; [contradiction|].
  intros Hc.
  destruct (append_sample_cell r q v chips old_v Hc) as (r1 & Hr1 & Hcell).
  rewrite Hr1 in Happ. injection Happ as <-.
  intros q' v' Hq' Hv'.
  destruct (Hcells q' v' Hq' Hv') as (old & Hold & Hcase).
  exists old. split; [exact Hold|].
  revert Hcase. rewrite Hcell.
  destruct (key_eq_dec q q') as [<-|Hqne]; [|auto].
  destruct (key_eq_dec v v') as [<-|Hvne].
  - destruct (in_dec string_dec v seen) as [Hin|_]; [contradiction|].
    intros Hcase.
    destruct (in_dec string_dec v (seen ++ [v])) as [_|Hnin].
    + exists chips. split; [congruence | exact Hchips].
    + exfalso. apply Hnin, in_or_app. right. now left.
  - destruct (in_dec string_dec v' seen) as [Hs|Hs];
      destruct (in_dec string_dec v' (seen ++ [v])) as [Hin|Hnin].
    + intros (c & Hc' & Hd). exists c. split; [exact Hc' | now apply Hgrow].
    + exfalso. apply Hnin, in_or_app. now left.
    + exfalso. apply in_app_or in Hin. destruct Hin as [Hin|[Hin|[]]];
        [contradiction | now apply Hvne].
    + auto.
Qed.

Lemma version_step_trace q revenue shares v seen rest (r0 r : table num)
  (st : run_state num W) log_q prices :
  In q quarters ->
  versions = seen ++ v :: rest ->
  PyDict.keys prices = filter (has_volume shares) seen ->
  calls st = log_q ++ map (fun vp => CallPrice q (fst vp) (snd vp)) prices ->
  cells_during quarters versions r0 r q seen
    {| draw_quarter := q; draw_revenue := revenue; draw_shares := shares;
       draw_prices := prices |} ->
  post (version_step sample_price q revenue shares v r st)
    (fun r' st' =>
       exists prices',
         PyDict.keys prices' = filter (has_volume shares) (seen ++ [v]) /\
         calls st'
         = log_q ++ map (fun vp => CallPrice q (fst vp) (snd vp)) prices' /\
         cells_during quarters versions r0 r' q (seen ++ [v])
           {| draw_quarter := q; draw_revenue := revenue;
              draw_shares := shares; draw_prices := prices' |})
    (fun _ => True).
Proof.
  intros Hq Hsplit Hkeys Hcalls Hcells.
  assert (Hv : In v versions)
    by (rewrite Hsplit; apply in_or_app; right; now left).
  assert (Hfresh : ~ In v seen).
  { pose proof versions_distinct as Hnd. rewrite Hsplit in Hnd.
    apply NoDup_remove_2 in Hnd. intros Hin. apply Hnd.
    apply in_or_app. now left. }
  destruct (Hcells q v Hq Hv) as (old & Hold & Hcase). revert Hcase.
  destruct (key_eq_dec q q) as [_|Hne]; [|contradiction].
  destruct (in_dec string_dec v seen) as [Hin|_]; [contradiction|].
  intros Hc.
  unfold version_step, bind, lift, ret, call_price, div_or_raise.
  destruct (num_gt0 (PyDict.get_default shares v num_zero)) eqn:Hshare.
  - destruct (sample_price q v (world st)) as [price w'] eqn:Hprice.
    destruct (num_div (num_mul revenue (PyDict.get_default shares v num_zero))
                price) as [chips|] eqn:Hdiv; [|exact I].
    destruct (append_sample_cell r q v chips old Hc) as (r' & Hr & _).
    rewrite Hr. simpl.
    exists (prices ++ [(v, price)]). split; [|split].
    + unfold PyDict.keys. rewrite map_app, filter_app.
      fold (PyDict.keys prices). rewrite Hkeys. cbn [map fst filter].
      replace (has_volume shares v) with true by (symmetry; exact Hshare).
      reflexivity.
    + rewrite Hcalls, map_app, <- app_assoc. reflexivity.
    + apply (cells_after_append r0 r r' q v seen _ _ chips Hq Hv Hfresh
               Hcells Hr).
      * intros v' c. apply draw_chips_grow.
      * unfold draw_chips, has_volume.
        cbn [draw_shares draw_prices draw_revenue]. rewrite Hshare.
        exists price. split; [|exact Hdiv].
        apply get_snoc_fresh. rewrite Hkeys. intros Hin.
        apply filter_In in Hin. tauto.
  - destruct (append_sample_cell r q v num_zero old Hc) as (r' & Hr & _).
    rewrite Hr. simpl.
    exists prices. split; [|split].
    + rewrite filter_app. cbn [filter].
      replace (has_volume shares v) with false by (symmetry; exact Hshare).
      now rewrite app_nil_r.
    + exact Hcalls.
    + apply (cells_after_append r0 r r' q v seen _ _ num_zero Hq Hv Hfresh
               Hcells Hr); [auto|].
      unfold draw_chips, has_volume. cbn [draw_shares]. now rewrite Hshare.
Qed.

Lemma versions_loop_trace q revenue shares (r0 : table num)
  (st : run_state num W) :
  In q quarters ->
  (forall q' v', In q' quarters -> In v' versions -> cell r0 q' v' <> None) ->
  post (for_each versions (version_step sample_price q revenue shares) r0 st)
    (fun r' st' =>
       exists prices,
         PyDict.keys prices = filter (has_volume shares) versions /\
         calls st'
         = calls st ++ map (fun vp => CallPrice q (fst vp) (snd vp)) prices /\
         cells_during quarters versions r0 r' q versions
           {| draw_quarter := q; draw_revenue := revenue;
              draw_shares := shares; draw_prices := prices |})
    (fun _ => True).
Proof.
  intros Hq Hcov.
  pose (Inv := fun (seen : list version) (r : table num)
                   (s : run_state num W) =>
                 exists prices,
                   PyDict.keys prices = filter (has_volume shares) seen /\
                   calls s
                   = calls st
                     ++ map (fun vp => CallPrice q (fst vp) (snd vp)) prices /\
                   cells_during quarters versions r0 r q seen
                     {| draw_quarter := q; draw_revenue := revenue;
                        draw_shares := shares; draw_prices := prices |}).
  apply (for_each_post (version_step sample_price q revenue shares) Inv
           (fun _ => True) versions []).
  - intros v r s seen rest Heq (prices & Hk & Hc & Hcells).
    apply (version_step_trace q revenue shares v seen rest r0 r s (calls st)
             prices Hq Heq Hk Hc Hcells).
  - exists []. split; [reflexivity|]. split; [now rewrite app_nil_r|].
    intros q' v' Hq' Hv'.
    destruct (cell r0 q' v') as [old|] eqn:Hcell;
      [|now destruct (Hcov q' v' Hq' Hv')].
    exists old. split; [reflexivity|].
    destruct (key_eq_dec q q'); [|reflexivity].
    destruct (in_dec string_dec v' []) as [[]|_]. reflexivity.
Qed.

Lemma quarter_step_trace q ds (r : table num) (st : run_state num W) :
  In q quarters ->
  explained_by quarters versions ds r (calls st) ->
  post (quarter_step sample_revenue sample_shares sample_price versions q
          r st)
    (fun r' st' =>
       exists d,
         draw_quarter d = q /\
         explained_by quarters versions (ds ++ [d]) r' (calls st'))
    (fun _ => True).
Proof.
  intros Hq (Hlog & Hpriced & Hcells).
  unfold quarter_step, bind at 1, call_revenue.
  destruct (sample_revenue q (world st)) as [revenue w1].
  unfold bind at 1, call_shares. simpl.
  destruct (sample_shares q w1) as [shares w2].
  eapply post_weaken;
    [apply (versions_loop_trace q revenue shares r _ Hq) | | auto].
  - intros q' v' Hq' Hv'.
    destruct (Hcells q' v' Hq' Hv') as (samples & -> & _). discriminate.
  - intros r' st' (prices & Hk & Hc & Hduring).
    exists {| draw_quarter := q; draw_revenue := revenue;
              draw_shares := shares; draw_prices := prices |}.
    split; [reflexivity|]. split; [|split].
    + rewrite Hc. cbn [calls]. rewrite Hlog, map_app, concat_app.
      cbn [map List.concat draw_calls draw_quarter draw_revenue draw_shares
             draw_prices].
      rewrite app_nil_r, <- !app_assoc. reflexivity.
    + apply Forall_app. split; [exact Hpriced|].
      constructor; [exact Hk | constructor].
    + intros q' v' Hq' Hv'.
      destruct (Hcells q' v' Hq' Hv') as (samples & Hs & Hall).
      destruct (Hduring q' v' Hq' Hv') as (old & Hold & Hcase).
      assert (Heq : old = samples) by congruence. subst old.
      rewrite filter_app. cbn [filter].
      change (of_quarter q' {| draw_quarter := q; draw_revenue := revenue;
                               draw_shares := shares;
                               draw_prices := prices |})
        with (String.eqb q q').
      revert Hcase. destruct (key_eq_dec q q') as [<-|Hne].
      * destruct (in_dec string_dec v' versions) as [_|Hn];
          [|contradiction].
        intros (chips & Hcell & Hchips). rewrite String.eqb_refl.
        exists (samples ++ [chips]). split; [exact Hcell|].
        apply Forall2_app; [exact Hall|].
        constructor; [exact Hchips | constructor].
      * intros Hcell.
        replace (String.eqb q q') with false
          by (symmetry; apply String.eqb_neq; exact Hne).
        rewrite app_nil_r. exists samples. split; auto.
Qed.

Lemma trial_step_trace base ds (r : table num) (st : run_state num W) :
  map (@draw_quarter num) ds = base ->
  explained_by quarters versions ds r (calls st) ->
  post (trial_step sample_revenue sample_shares sample_price quarters
          versions r st)
    (fun r' st' =>
       exists ds',
         map (@draw_quarter num) ds' = base ++ quarters /\
         explained_by quarters versions ds' r' (calls st'))
    (fun _ => True).
Proof.
  intros Hbase Hinv.
  pose (Inv := fun (seen : list quarter) (r : table num)
                   (s : run_state num W) =>
                 exists ds',
                   map (@draw_quarter num) ds' = base ++ seen /\
                   explained_by quarters versions ds' r (calls s)).
  unfold trial_step.
  apply (for_each_post
           (quarter_step sample_revenue sample_shares sample_price versions)
           Inv (fun _ => True) quarters []).
  - intros q r1 s seen rest Heq (ds' & Hds' & Hinv').
    assert (Hq : In q quarters).
    { simpl in Heq. rewrite Heq. apply in_or_app. right. now left. }
    eapply post_weaken; [apply (quarter_step_trace q ds' r1 s Hq Hinv') | |auto].
    intros r' s' (d & Hd & Hinv''). exists (ds' ++ [d]).
    split; [|exact Hinv''].
    rewrite map_app, Hds'. cbn [map]. rewrite Hd, <- app_assoc. reflexivity.
  - exists ds. split; [now rewrite app_nil_r | exact Hinv].
Qed.

Lemma estimate_from_trace n_samples w :
  post (estimate_chip_sales_from sample_revenue sample_shares sample_price
          quarters versions n_samples {| world := w; calls := [] |})
    (fun r st =>
       exists ds,
         map (@draw_quarter num) ds = List.concat (repeat quarters n_samples) /\
         explained_by quarters versions ds r (calls st))
    (fun _ => True).
Proof.
  pose (Inv := fun (k : nat) (r : table num) (s : run_state num W) =>
                 exists ds,
                   map (@draw_quarter num) ds
                   = List.concat (repeat quarters k) /\
                   explained_by quarters versions ds r (calls s)).
  unfold estimate_chip_sales_from.
  apply (for_range_post
           (trial_step sample_revenue sample_shares sample_price quarters
              versions)
           Inv (fun _ => True) n_samples 0).
  - intros k r s (ds & Hds & Hinv).
    eapply post_weaken; [apply (trial_step_trace _ ds r s Hds Hinv) | |auto].
    intros r' s' (ds' & Hds' & Hinv'). exists ds'.
    split; [|exact Hinv']. now rewrite concat_repeat_snoc.
  - exists []. split; [reflexivity|]. split; [reflexivity|].
    split; [constructor|].
    intros q v Hq Hv. exists []. rewrite cell_init_results.
    destruct (in_dec key_eq_dec q quarters); [|contradiction].
    destruct (in_dec key_eq_dec v versions); [|contradiction].
    split; [reflexivity | constructor].
Qed.

(** X13. For distinct versions, a run that returns is the sum of its passes, one
    per trial and quarter, in the order of the loops: in each pass the
    revenue callback is called, then the shares callback, then the price
    callback for exactly the versions whose share is [> 0], in the order
    of [versions] -- and nothing else is called; the cell of a quarter and
    a version holds, oldest first, one sample per pass over that quarter,
    [revenue * share / price] with the values drawn in that pass when the
    share is [> 0], and [0] when it is not. *)
Theorem estimate_chip_sales_trace n_samples w results st :
  estimate_chip_sales sample_revenue sample_shares sample_price
    quarters versions n_samples w = Ok (results, st) ->
  exists draws,
    map (@draw_quarter num) draws = List.concat (repeat quarters n_samples) /\
    explained_by quarters versions draws results (calls st).
Proof.
  intros Hrun.
  apply (post_Ok _ _ _ _ _ (estimate_from_trace n_samples w) Hrun).
Qed.

End EngineTrace.

Lemma estimate_chip_sales_trace_witness :
  exists results st draws,
    estimate_chip_sales
      (Scenario.sample_revenue Scenario.Qc_number)
      (Scenario.sample_shares Scenario.Qc_number)
      (Scenario.sample_price Scenario.Qc_number)
      ["Q1"%string] ["A"%string; "B"%string] 2 tt = Ok (results, st) /\
    map (@draw_quarter Qc) draws = ["Q1"%string; "Q1"%string] /\
    explained_by ["Q1"%string] ["A"%string; "B"%string] draws results
      (calls st).
Proof.
  destruct (estimate_chip_sales
              (Scenario.sample_revenue Scenario.Qc_number)
              (Scenario.sample_shares Scenario.Qc_number)
              (Scenario.sample_price Scenario.Qc_number)
              ["Q1"%string] ["A"%string; "B"%string] 2 tt)
    as [[results st]|e] eqn:Hrun.
  - destruct (estimate_chip_sales_trace _ _ _ _ _ NoDup_A_B _ _ _ _ Hrun)
      as (draws & Hquarters & Hexplained).
    exists results, st, draws. auto.
  - vm_compute in Hrun. discriminate.
Defined.

(** ** A price that cannot be divided by *)

Section EngineZeroPrice.

Context {num : Type} `{PyNum num} {W : Type}.

Variable sample_revenue : quarter -> W -> num * W.
Variable sample_shares : quarter -> W -> dict version num * W.
Variable sample_price : quarter -> version -> W -> num * W.

Variable quarters : list quarter.
Variable versions : list version.

(** The quarter and the version whose price is the trouble. *)
Variable q0 : quarter.
Variable v0 : version.

Hypothesis q0_declared : In q0 quarters.
Hypothesis v0_declared : In v0 versions.
Hypothesis v0_has_volume :
  forall w, has_volume (fst (sample_shares q0 w)) v0 = true.
Hypothesis v0_price_zero :
  forall w x, num_div x (fst (sample_price q0 v0 w)) = None.

Lemma version_step_covers q revenue shares v (r : table num)
  (st : run_state num W) :
  In q quarters -> In v versions ->
  covers r quarters versions ->
  post (version_step sample_price q revenue shares v r st)
    (fun r' _ => covers r' quarters versions)
    (eq ZeroDivisionError).
Proof.
  intros Hq Hv Hcov.
  destruct (cell r q v) as [samples|] eqn:Hc;
    [|now destruct (Hcov q v Hq Hv)].
  unfold version_step, bind, lift, ret, call_price, div_or_raise.
  destruct (num_gt0 (PyDict.get_default shares v num_zero)).
  - destruct (sample_price q v (world st)) as [price w'].
    destruct (num_div (num_mul revenue (PyDict.get_default shares v num_zero))
                price) as [chips|]; [|reflexivity].
    destruct (append_sample_cell r q v chips _ Hc) as (r' & Hr & _).
    rewrite Hr. simpl. eapply covers_append; eauto.
  - destruct (append_sample_cell r q v num_zero _ Hc) as (r' & Hr & _).
    rewrite Hr. simpl. eapply covers_append; eauto.
Qed.

Lemma version_step_zero_price revenue shares (r : table num)
  (st : run_state num W) :
  has_volume shares v0 = true ->
  post (version_step sample_price q0 revenue shares v0 r st)
    (fun _ _ => False) (eq ZeroDivisionError).
Proof.
  intros Hvol. unfold has_volume in Hvol.
  unfold version_step, bind, lift, ret, call_price, div_or_raise.
  rewrite Hvol.
  pose proof (v0_price_zero (world st)
                (num_mul revenue (PyDict.get_default shares v0 num_zero)))
    as Hdiv.
  destruct (sample_price q0 v0 (world st)) as [price w'].
  cbn [fst] in Hdiv. rewrite Hdiv. reflexivity.
Qed.

Lemma versions_loop_zero_price revenue shares (r : table num)
  (st : run_state num W) :
  has_volume shares v0 = true ->
  covers r quarters versions ->
  post (for_each versions (version_step sample_price q0 revenue shares) r st)
    (fun _ _ => False) (eq ZeroDivisionError).
Proof.
  intros Hvol Hcov.
  pose (Inv := fun (seen : list version) (r : table num)
                   (_ : run_state num W) =>
                 covers r quarters versions /\ ~ In v0 seen).
  eapply post_weaken.
  - apply (for_each_post (version_step sample_price q0 revenue shares) Inv
             (eq ZeroDivisionError) versions []).
    + intros v r1 s seen rest Heq [Hc Hseen].
      assert (Hv : In v versions).
      { simpl in Heq. rewrite Heq. apply in_or_app. right. now left. }
      destruct (string_dec v v0) as [->|Hne].
      * eapply post_weaken;
          [apply (version_step_zero_price revenue shares r1 s Hvol) | |auto].
        intros r' s' [].
      * eapply post_weaken;
          [apply (version_step_covers q0 revenue shares v r1 s q0_declared
                    Hv Hc) | |auto].
        intros r' s' Hc'. split; [exact Hc'|].
        intros Hin. apply in_app_or in Hin.
        destruct Hin as [Hin|[Hin|[]]]; [contradiction | now apply Hne].
    + split; [exact Hcov | intros []].
  - intros r' s' [_ Hnot]. now apply Hnot.
  - auto.
Qed.

Lemma versions_loop_covers q revenue shares (r : table num)
  (st : run_state num W) :
  In q quarters ->
  covers r quarters versions ->
  post (for_each versions (version_step sample_price q revenue shares) r st)
    (fun r' _ => covers r' quarters versions) (eq ZeroDivisionError).
Proof.
  intros Hq Hcov.
  apply (for_each_post (version_step sample_price q revenue shares)
           (fun _ r _ => covers r quarters versions)
           (eq ZeroDivisionError) versions []); [|exact Hcov].
  intros v r1 s seen rest Heq Hc.
  apply version_step_covers; auto.
  simpl in Heq. rewrite Heq. apply in_or_app. right. now left.
Qed.

Lemma quarter_step_covers q (r : table num) (st : run_state num W) :
  In q quarters ->
  covers r quarters versions ->
  post (quarter_step sample_revenue sample_shares sample_price versions q
          r st)
    (fun r' _ => covers r' quarters versions) (eq ZeroDivisionError).
Proof.
  intros Hq Hcov.
  unfold quarter_step, bind at 1, call_revenue.
  destruct (sample_revenue q (world st)) as [revenue w1].
  unfold bind at 1, call_shares. simpl.
  destruct (sample_shares q w1) as [shares w2].
  now apply versions_loop_covers.
Qed.

Lemma quarter_step_zero_price (r : table num) (st : run_state num W) :
  covers r quarters versions ->
  post (quarter_step sample_revenue sample_shares sample_price versions q0
          r st)
    (fun _ _ => False) (eq ZeroDivisionError).
Proof.
  intros Hcov.
  unfold quarter_step, bind at 1, call_revenue.
  destruct (sample_revenue q0 (world st)) as [revenue w1].
  unfold bind at 1, call_shares. simpl.
  pose proof (v0_has_volume w1) as Hvol.
  destruct (sample_shares q0 w1) as [shares w2].
  now apply versions_loop_zero_price.
Qed.

Lemma trial_step_zero_price (r : table num) (st : run_state num W) :
  covers r quarters versions ->
  post (trial_step sample_revenue sample_shares sample_price quarters
          versions r st)
    (fun _ _ => False) (eq ZeroDivisionError).
Proof.
  intros Hcov.
  pose (Inv := fun (seen : list quarter) (r : table num)
                   (_ : run_state num W) =>
                 covers r quarters versions /\ ~ In q0 seen).
  unfold trial_step. eapply post_weaken.
  - apply (for_each_post
             (quarter_step sample_revenue sample_shares sample_price versions)
             Inv (eq ZeroDivisionError) quarters []).
    + intros q r1 s seen rest Heq [Hc Hseen].
      assert (Hq : In q quarters).
      { simpl in Heq. rewrite Heq. apply in_or_app. right. now left. }
      destruct (string_dec q q0) as [->|Hne].
      * eapply post_weaken; [apply (quarter_step_zero_price r1 s Hc) | |auto].
        intros r' s' [].
      * eapply post_weaken; [apply (quarter_step_covers q r1 s Hq Hc) | |auto].
        intros r' s' Hc'. split; [exact Hc'|].
        intros Hin. apply in_app_or in Hin.
        destruct Hin as [Hin|[Hin|[]]]; [contradiction | now apply Hne].
    + split; [exact Hcov | intros []].
  - intros r' s' [_ Hnot]. now apply Hnot.
  - auto.
Qed.

(** X14. When the shares callback always gives a declared version a share
    [> 0] in a declared quarter, and the price callback always returns for
    them a price that cannot be divided by (a zero), a run of at least one
    trial raises [ZeroDivisionError]: it returns no table. *)
Theorem estimate_chip_sales_zero_price n_samples w :
  n_samples <> 0 ->
  estimate_chip_sales sample_revenue sample_shares sample_price
    quarters versions n_samples w = Raise ZeroDivisionError.
Proof.
  intros Hn. destruct n_samples as [|k]; [contradiction|].
  unfold estimate_chip_sales, estimate_chip_sales_from.
  cbn [for_range]. unfold bind.
  pose proof (trial_step_zero_price (init_results quarters versions)
                {| world := w; calls := [] |}) as Hpost.
  destruct (trial_step sample_revenue sample_shares sample_price quarters
              versions (init_results quarters versions)
              {| world := w; calls := [] |}) as [[r s]|e].
  - exfalso. apply Hpost.
    intros q v Hq Hv. rewrite cell_init_results.
    destruct (in_dec key_eq_dec q quarters); [|contradiction].
    destruct (in_dec key_eq_dec v versions); [discriminate|contradiction].
  - f_equal. symmetry. apply Hpost.
    intros q v Hq Hv. rewrite cell_init_results.
    destruct (in_dec key_eq_dec q quarters); [|contradiction].
    destruct (in_dec key_eq_dec v versions); [discriminate|contradiction].
Qed.

End EngineZeroPrice.

Lemma estimate_chip_sales_zero_price_witness :
  estimate_chip_sales
    (Scenario.sample_revenue Scenario.Qc_number)
    (Scenario.sample_shares Scenario.Qc_number)
    Tables.zero_price
    ["Q1"%string] ["A"%string; "B"%string] 1 tt
  = Raise ZeroDivisionError.
Proof.
  apply (estimate_chip_sales_zero_price
           (Scenario.sample_revenue Scenario.Qc_number)
           (Scenario.sample_shares Scenario.Qc_number)
           Tables.zero_price
           ["Q1"%string] ["A"%string; "B"%string] "Q1"%string "B"%string).
  - simpl. auto.
  - simpl. auto.
  - intros w. vm_compute. reflexivity.
  - intros w x. reflexivity.
  - discriminate.
Defined.

(** ** [compute_h100_equivalents] with a reference that is zero *)

Section ConvertZeroReference.

Context {num : Type} `{PyNum num}.

Variable chip_specs : dict version (dict string num).
Variable h100_tops : num.

Hypothesis zero_reference : forall x, num_div x h100_tops = None.

(** X15. With a reference throughput that cannot be divided by (a zero), the
    conversion returns only on the empty mapping; otherwise the first
    version of [chip_counts] decides: [ZeroDivisionError] when it has a
    ['tops'] entry in [chip_specs], [KeyError] when it has not. No later
    version is looked at. *)
Theorem compute_h100_equivalents_zero_reference
  (chip_counts : dict version (counts num)) :
  (chip_counts = [] ->
   compute_h100_equivalents chip_counts chip_specs h100_tops = Ok []) /\
  (forall v c rest, chip_counts = (v, c) :: rest ->
     (forall tops, spec_tops chip_specs v = Ok tops ->
        compute_h100_equivalents chip_counts chip_specs h100_tops
        = Raise ZeroDivisionError) /\
     (forall e, spec_tops chip_specs v = Raise e ->
        compute_h100_equivalents chip_counts chip_specs h100_tops
        = Raise KeyError)).
Proof.
  split.
  - intros ->. reflexivity.
  - intros v c rest ->.
    unfold compute_h100_equivalents, PyDict.items. cbn [result_fold].
    split.
    + intros tops Htops. unfold convert_item at 1. rewrite Htops.
      cbn [result_bind]. unfold div_or_raise.
      now rewrite zero_reference.
    + intros e He. unfold convert_item at 1. rewrite He.
      cbn [result_bind]. f_equal.
      unfold spec_tops in He.
      destruct (PyDict.get chip_specs v) as [spec|]; [|congruence].
      destruct (PyDict.get spec "tops"%string); congruence.
Qed.

End ConvertZeroReference.

Lemma compute_h100_equivalents_zero_reference_witness :
  compute_h100_equivalents
    [("A"%string, Count (QcZ 10)); ("Z"%string, Count (QcZ 1))]
    Tables.two_specs (QcZ 0)
  = Raise ZeroDivisionError /\
  compute_h100_equivalents
    [("Z"%string, Count (QcZ 1)); ("A"%string, Count (QcZ 10))]
    Tables.two_specs (QcZ 0)
  = Raise KeyError.
Proof.
  assert (Hzero : forall x : Qc, num_div x (QcZ 0) = None)
    by (intros x; reflexivity).
  split.
  - apply (proj2 (compute_h100_equivalents_zero_reference Tables.two_specs
                    (QcZ 0) Hzero _) "A"%string (Count (QcZ 10))
             [("Z"%string, Count (QcZ 1))] eq_refl) with (tops := QcZ 3958).
    reflexivity.
  - apply (proj2 (compute_h100_equivalents_zero_reference Tables.two_specs
                    (QcZ 0) Hzero _) "Z"%string (Count (QcZ 1))
             [("A"%string, Count (QcZ 10))] eq_refl) with (e := KeyError).
    reflexivity.
Defined.

(** ** [summarize_quarterly_by_chip] on a quarter that lacks a chip type *)

Lemma append_each_raises {X Y} (f : X -> result Y) (e0 : exn) :
  forall (xs : list X) (out : list Y),
    (forall x, In x xs -> (exists y, f x = Ok y) \/ f x = Raise e0) ->
    (exists x, In x xs /\ f x = Raise e0) ->
    append_each f xs out = Raise e0.
Proof.
  unfold append_each.
  induction xs as [|x xs IH]; intros out Hall (x0 & Hin & Hraise).
  - destruct Hin.
  - cbn [result_fold].
    destruct (Hall x (or_introl eq_refl)) as [(y & Hy)|Hx].
    + rewrite Hy. cbn [result_bind]. apply IH.
      * intros x' Hx'. apply Hall. now right.
      * destruct Hin as [->|Hin]; [congruence|]. now exists x0.
    + now rewrite Hx.
Qed.

Section SummaryMissing.

Variable format_fn : Qc -> string.
Variable results : table Qc.
Variable n : nat.

Hypothesis n_positive : 0 < n.

Lemma chip_fold_missing q :
  forall chip_types row total,
    List.length total = n ->
    (forall c arr, In c chip_types -> cell results q c = Some arr ->
                   List.length arr = n) ->
    (exists c, In c chip_types /\ cell results q c = None) ->
    result_fold (chip_step format_fn results q) chip_types (row, total)
    = Raise KeyError.
Proof.
  induction chip_types as [|c chip_types IH];
    intros row total Htotal Hlen (c0 & Hin & Hnone); [destruct Hin|].
  cbn [result_fold]. unfold chip_step at 1.
  destruct (cell results q c) as [arr|] eqn:Hcell; [|reflexivity].
  pose proof (Hlen c arr (or_introl eq_refl) Hcell) as Harr.
  unfold add_arrays. rewrite Harr, Htotal, Nat.eqb_refl. cbn [result_bind].
  assert (Hrest : forall row',
             result_fold (chip_step format_fn results q) chip_types
               (row', map (fun xy => (fst xy + snd xy)%Qc) (combine total arr))
             = Raise KeyError).
  { intros row'. apply IH.
    - rewrite length_map, length_combine. lia.
    - intros c' arr' Hc'. apply Hlen. now right.
    - destruct Hin as [->|Hin]; [congruence|]. now exists c0. }
  destruct (Qc_gt0 (py_sum arr)).
  - destruct (summary_text_returns format_fn arr) as (text & ->).
    { intros ->. simpl in Harr. lia. }
    cbn [result_bind]. apply Hrest.
  - cbn [result_bind]. apply Hrest.
Qed.

Lemma missing_or_complete q (chip_types : list version) :
  (forall c, In c chip_types -> cell results q c <> None) \/
  (exists c, In c chip_types /\ cell results q c = None).
Proof.
  induction chip_types as [|c chip_types [IH|(c0 & Hin & Hnone)]].
  - left. intros c [].
  - destruct (cell results q c) as [arr|] eqn:Hcell.
    + left. intros c' [<-|Hc']; [congruence | now apply IH].
    + right. exists c. split; [now left | exact Hcell].
  - right. exists c0. split; [now right | exact Hnone].
Qed.

Lemma summary_row_missing chip_types q :
  (forall c arr, In c chip_types -> cell results q c = Some arr ->
                 List.length arr = n) ->
  (exists row, summary_row format_fn results chip_types n q = Ok row) \/
  summary_row format_fn results chip_types n q = Raise KeyError.
Proof.
  intros Hlen.
  destruct (missing_or_complete q chip_types) as [Hall|Hmissing].
  - left.
    destruct (summary_row_returns format_fn results chip_types n q n_positive)
      as (row & Hrow & _); [|eauto].
    intros c Hc. destruct (cell results q c) as [arr|] eqn:Hcell;
      [|now destruct (Hall c Hc)].
    exists arr. split; [reflexivity|]. now apply (Hlen c).
  - right. unfold summary_row, chip_loop.
    rewrite chip_fold_missing; auto. apply repeat_length.
Qed.

(** On a table whose arrays all have the same, positive, number of samples
    the exception is the [KeyError] of the missing cell. *)
Lemma summarize_missing_KeyError :
  (forall q c arr, In q (PyDict.keys results) ->
     In c (chip_types_of results) -> cell results q c = Some arr ->
     List.length arr = n) ->
  (exists q c, In q (PyDict.keys results) /\ In c (chip_types_of results) /\
               cell results q c = None) ->
  summarize_quarterly_by_chip format_fn results = Raise KeyError.
Proof.
  unfold summarize_quarterly_by_chip, chip_types_of.
  destruct results as [|[q0 row0] rest] eqn:Hres;
    [intros _ (q & c & [] & _)|].
  rewrite <- Hres. intros Hlen (q & c & Hq & Hc & Hnone).
  replace (PyDict.keys results) with (q0 :: PyDict.keys rest) in *
    by now rewrite Hres.
  replace (PyDict.get results q0) with (Some row0)
    by (rewrite Hres; cbn [PyDict.get];
        change (key_eqb q0 q0) with (String.eqb q0 q0);
        now rewrite String.eqb_refl).
  destruct (PyDict.keys row0) as [|c0 cs] eqn:Hkeys; [destruct Hc|].
  assert (Hcell0 : cell results q0 c0 = PyDict.get row0 c0).
  { unfold cell. rewrite Hres. cbn [PyDict.get].
    change (key_eqb q0 q0) with (String.eqb q0 q0).
    now rewrite String.eqb_refl. }
  destruct (PyDict.get row0 c0) as [samples0|] eqn:Hget0; [|reflexivity].
  rewrite (Hlen q0 c0 samples0 (or_introl eq_refl) (or_introl eq_refl) Hcell0).
  rewrite (append_each_raises
             (summary_row format_fn results (c0 :: cs) n) KeyError);
    [reflexivity | |].
  - intros q' Hq'. apply summary_row_missing.
    intros c' arr Hc'. now apply Hlen.
  - exists q. split; [exact Hq|]. unfold summary_row, chip_loop.
    rewrite chip_fold_missing; auto.
    + apply repeat_length.
    + intros c' arr Hc'. now apply Hlen.
    + now exists c.
Qed.

End SummaryMissing.

Lemma summary_row_missing_raises (format_fn : Qc -> string)
  (results : table Qc) (chip_types : list version) (n : nat) (q : quarter)
  (c : version) :
  In c chip_types -> cell results q c = None ->
  exists e, summary_row format_fn results chip_types n q = Raise e.
Proof.
  intros Hin Hnone. unfold summary_row, chip_loop.
  destruct (result_fold_raises (chip_step format_fn results q)
              (fun _ => True) chip_types c Hin)
    with (a := ([("Quarter"%string, q)], np_zeros n))
    as (e & Hrun & _); [auto | |].
  - intros [row total]. exists KeyError. unfold chip_step. now rewrite Hnone.
  - exists e. unfold version, quarter in *. now rewrite Hrun.
Qed.

(** The summary does not return when a cell is missing, whatever the
    exception. *)
Lemma summarize_missing_raises (format_fn : Qc -> string)
  (results : table Qc) :
  (exists q c, In q (PyDict.keys results) /\ In c (chip_types_of results) /\
               cell results q c = None) ->
  exists e, summarize_quarterly_by_chip format_fn results = Raise e.
Proof.
  unfold summarize_quarterly_by_chip, chip_types_of.
  destruct results as [|[q0 row0] rest] eqn:Hres;
    [intros (q & c & [] & _)|].
  rewrite <- Hres. intros (q & c & Hq & Hc & Hnone).
  replace (PyDict.keys results) with (q0 :: PyDict.keys rest) in *
    by now rewrite Hres.
  replace (PyDict.get results q0) with (Some row0)
    by (rewrite Hres; cbn [PyDict.get];
        change (key_eqb q0 q0) with (String.eqb q0 q0);
        now rewrite String.eqb_refl).
  destruct (PyDict.keys row0) as [|c0 cs] eqn:Hkeys; [destruct Hc|].
  destruct (PyDict.get row0 c0) as [samples0|]; [|eauto].
  unfold append_each.
  destruct (result_fold_raises
              (fun x out =>
                 result_bind
                   (summary_row format_fn results (c0 :: cs)
                      (List.length samples0) x)
                   (fun y => Ok (out ++ [y])))
              (fun _ => True) (q0 :: PyDict.keys rest) q Hq)
    with (a := @nil (dict string string)) as (e & Hrun & _); [auto | |].
  - intros out.
    destruct (summary_row_missing_raises format_fn results (c0 :: cs)
                (List.length samples0) q c Hc Hnone) as (e & ->).
    now exists e.
  - exists e. now rewrite Hrun.
Qed.

(** X16. When some quarter lacks one of the chip types of the first
    quarter, the summary does not return: it raises, whatever the samples
    and the format function are (the chip types are taken from the first
    quarter only). Over exact rationals, where every sample is finite and
    the format function returns, and on arrays that all have the same,
    positive, number of samples, the exception is the [KeyError] of the
    missing cell. *)
Theorem summarize_missing_chip_type (format_fn : Qc -> string)
  (results : table Qc) (n : nat) :
  (exists q c, In q (PyDict.keys results) /\ In c (chip_types_of results) /\
               cell results q c = None) ->
  (exists e, summarize_quarterly_by_chip format_fn results = Raise e) /\
  (0 < n ->
   (forall q c arr, In q (PyDict.keys results) ->
      In c (chip_types_of results) -> cell results q c = Some arr ->
      List.length arr = n) ->
   summarize_quarterly_by_chip format_fn results = Raise KeyError).
Proof.
  intros Hmissing. split; [now apply summarize_missing_raises|].
  intros Hn Hlen. now apply (summarize_missing_KeyError format_fn results n).
Qed.

Lemma summarize_missing_chip_type_witness :
  (exists e,
      summarize_quarterly_by_chip format_thousands Tables.ragged = Raise e) /\
  summarize_quarterly_by_chip format_thousands Tables.ragged = Raise KeyError.
Proof.
  destruct (summarize_missing_chip_type format_thousands Tables.ragged 2)
    as [Hraises Hkey].
  - exists "Q2"%string, "B"%string. simpl. auto.
  - split; [exact Hraises|]. apply Hkey; [lia|].
    intros q c arr [<-|[<-|[]]] [<-|[<-|[]]] Hcell; vm_compute in Hcell;
      try discriminate; injection Hcell as <-; reflexivity.
Defined.

(** ** The keys of the table of [estimate_chip_sales] *)

Section ComprehensionKeys.

Context {K V : Type} `{KeyEq K}.

Lemma keys_fold_set (f : K -> V) :
  forall ks (d : dict K V),
    NoDup (PyDict.keys d ++ ks) ->
    PyDict.keys (fold_left (fun d k => PyDict.set d k (f k)) ks d)
    = PyDict.keys d ++ ks.
Proof.
  induction ks as [|k ks IH]; intros d Hnd; cbn [fold_left].
  - now rewrite app_nil_r.
  - assert (Hfresh : ~ In k (PyDict.keys d)).
    { apply NoDup_remove_2 in Hnd. intros Hin. apply Hnd.
      apply in_or_app. now left. }
    rewrite IH; rewrite (PyDictFacts.keys_set_absent d k (f k) Hfresh).
    + now rewrite <- app_assoc.
    + now rewrite <- app_assoc.
Qed.

Lemma keys_comprehension (f : K -> V) ks :
  NoDup ks -> PyDict.keys (PyDict.comprehension ks f) = ks.
Proof.
  intros Hnd. unfold PyDict.comprehension.
  now rewrite keys_fold_set.
Qed.

End ComprehensionKeys.

Section EngineKeys.

Context {num : Type} `{PyNum num} {W : Type}.

Variable sample_revenue : quarter -> W -> num * W.
Variable sample_shares : quarter -> W -> dict version num * W.
Variable sample_price : quarter -> version -> W -> num * W.

Variable quarters : list quarter.
Variable versions : list version.

Hypothesis quarters_distinct : NoDup quarters.
Hypothesis versions_distinct : NoDup versions.

Lemma keyed_by_init :
  keyed_by (init_results (num:=num) quarters versions) quarters versions.
Proof.
  unfold init_results. split.
  - now apply keys_comprehension.
  - intros q row. rewrite PyDictFacts.get_comprehension.
    destruct (in_dec key_eq_dec q quarters); [|discriminate].
    intros [= <-]. now apply keys_comprehension.
Qed.

Lemma keyed_by_append (r r' : table num) q v x :
  keyed_by r quarters versions ->
  append_sample r q v x = Ok r' ->
  keyed_by r' quarters versions.
Proof.
  intros [Hkeys Hrows]. unfold append_sample.
  destruct (PyDict.get r q) as [row|] eqn:Hrow; [|discriminate].
  destruct (PyDict.get row v) as [samples|] eqn:Hsamples; [|discriminate].
  intros [= <-]. split.
  - rewrite PyDictFacts.keys_set_present; [exact Hkeys|].
    apply PyDictFacts.get_In_keys. now rewrite Hrow.
  - intros q' row'. rewrite PyDictFacts.get_set.
    destruct (key_eq_dec q q') as [<-|Hne]; [|apply Hrows].
    intros [= <-]. rewrite PyDictFacts.keys_set_present.
    + now apply (Hrows q).
    + apply PyDictFacts.get_In_keys. now rewrite Hsamples.
Qed.

Lemma version_step_keys q revenue shares v (r : table num)
  (st : run_state num W) :
  keyed_by r quarters versions ->
  post (version_step sample_price q revenue shares v r st)
    (fun r' _ => keyed_by r' quarters versions) (fun _ => True).
Proof.
  intros Hkeyed.
  unfold version_step, bind, lift, ret, call_price, div_or_raise.
  destruct (num_gt0 (PyDict.get_default shares v num_zero)).
  - destruct (sample_price q v (world st)) as [price w'].
    destruct (num_div (num_mul revenue (PyDict.get_default shares v num_zero))
                price) as [chips|]; [|exact I].
    destruct (append_sample r q v chips) as [r'|e] eqn:Happ; [|exact I].
    simpl. eapply keyed_by_append; eauto.
  - destruct (append_sample r q v num_zero) as [r'|e] eqn:Happ; [|exact I].
    simpl. eapply keyed_by_append; eauto.
Qed.

Lemma quarter_step_keys q (r : table num) (st : run_state num W) :
  keyed_by r quarters versions ->
  post (quarter_step sample_revenue sample_shares sample_price versions q
          r st)
    (fun r' _ => keyed_by r' quarters versions) (fun _ => True).
Proof.
  intros Hkeyed.
  unfold quarter_step, bind at 1, call_revenue.
  destruct (sample_revenue q (world st)) as [revenue w1].
  unfold bind at 1, call_shares. simpl.
  destruct (sample_shares q w1) as [shares w2].
  apply (for_each_post (version_step sample_price q revenue shares)
           (fun _ r _ => keyed_by r quarters versions)
           (fun _ => True) versions []); [|exact Hkeyed].
  intros v r1 s seen rest _ Hr1. now apply version_step_keys.
Qed.

Lemma estimate_from_keys n_samples (st : run_state num W) :
  post (estimate_chip_sales_from sample_revenue sample_shares sample_price
          quarters versions n_samples st)
    (fun r _ => keyed_by r quarters versions) (fun _ => True).
Proof.
  unfold estimate_chip_sales_from.
  apply (for_range_post
           (trial_step sample_revenue sample_shares sample_price quarters
              versions)
           (fun _ r _ => keyed_by r quarters versions)
           (fun _ => True) n_samples 0); [|exact keyed_by_init].
  intros k r s Hr. unfold trial_step.
  apply (for_each_post
           (quarter_step sample_revenue sample_shares sample_price versions)
           (fun _ r _ => keyed_by r quarters versions)
           (fun _ => True) quarters []); [|exact Hr].
  intros q r1 s1 seen rest _ Hr1. now apply quarter_step_keys.
Qed.

Lemma estimate_chip_sales_keyed n_samples w results st :
  estimate_chip_sales sample_revenue sample_shares sample_price
    quarters versions n_samples w = Ok (results, st) ->
  keyed_by results quarters versions.
Proof.
  intros Hrun.
  apply (post_Ok _ _ _ _ _
           (estimate_from_keys n_samples {| world := w; calls := [] |}) Hrun).
Qed.

(** X17. For distinct quarters and distinct versions, the table that a run
    returns lists the quarters in the order they were given, and every
    row lists the versions in the order they were given -- whatever the
    shares and the number of trials, also for no trial at all. *)
Theorem estimate_chip_sales_key_order n_samples w results st :
  estimate_chip_sales sample_revenue sample_shares sample_price
    quarters versions n_samples w = Ok (results, st) ->
  PyDict.keys results = quarters /\
  forall q, In q quarters ->
    exists row,
      PyDict.get results q = Some row /\ PyDict.keys row = versions.
Proof.
  intros Hrun.
  destruct (estimate_chip_sales_keyed n_samples w results st Hrun)
    as [Hkeys Hrows].
  split; [exact Hkeys|].
  intros q Hq. rewrite <- Hkeys in Hq.
  apply PyDictFacts.get_In_keys in Hq.
  destruct (PyDict.get results q) as [row|] eqn:Hrow; [|contradiction].
  exists row. split; [reflexivity | now apply (Hrows q)].
Qed.

End EngineKeys.

Lemma estimate_chip_sales_key_order_witness :
  exists results st row,
    estimate_chip_sales
      (Scenario.sample_revenue Scenario.Qc_number)
      (Scenario.sample_shares_A_only Scenario.Qc_number)
      (Scenario.sample_price Scenario.Qc_number)
      ["Q1"%string] ["A"%string; "B"%string] 1 tt = Ok (results, st) /\
    PyDict.keys results = ["Q1"%string] /\
    PyDict.get results "Q1"%string = Some row /\
    PyDict.keys row = ["A"%string; "B"%string].
Proof.
  destruct (estimate_chip_sales
              (Scenario.sample_revenue Scenario.Qc_number)
              (Scenario.sample_shares_A_only Scenario.Qc_number)
              (Scenario.sample_price Scenario.Qc_number)
              ["Q1"%string] ["A"%string; "B"%string] 1 tt)
    as [[results st]|e] eqn:Hrun.
  - destruct (estimate_chip_sales_key_order _ _ _ _ _ NoDup_Q1 NoDup_A_B
                _ _ _ _ Hrun) as [Hkeys Hrows].
    destruct (Hrows "Q1"%string) as (row & Hrow & Hrowkeys); [now left|].
    exists results, st, row. auto.
  - vm_compute in Hrun. discriminate.
Defined.

(** ** Reporting on the table of a run *)

Lemma result_fold_returns {X A} (body : X -> A -> result A) (xs : list X) :
  (forall x a, In x xs -> exists a', body x a = Ok a') ->
  forall a, exists a', result_fold body xs a = Ok a'.
Proof.
  induction xs as [|x xs IH]; intros Hbody a.
  - now exists a.
  - cbn [result_fold].
    destruct (Hbody x a (or_introl eq_refl)) as (a1 & ->).
    cbn [result_bind]. apply IH. intros y b Hy. apply Hbody. now right.
Qed.

Lemma export_step_returns (results : table Qc)
  (chip_specs : dict version (dict string Qc)) (h100_tops : Qc) q v rows
  arr tops :
  cell results q v = Some arr ->
  spec_tops chip_specs v = Ok tops ->
  h100_tops <> Q2Qc 0 ->
  exists rows',
    export_step results chip_specs h100_tops q v rows = Ok rows'.
Proof.
  intros Hcell Htops Hh. unfold export_step. rewrite Hcell.
  destruct (Qc_gt0 (py_sum arr)) eqn:Hpos; [|eauto].
  apply positive_sum_nonempty in Hpos.
  rewrite Htops. cbn [result_bind]. unfold div_or_raise.
  change (num_div tops h100_tops) with (Qc_div tops h100_tops).
  unfold Qc_div.
  destruct (Qc_eq_bool h100_tops (Q2Qc 0)) eqn:E;
    [apply Qc_eq_bool_correct in E; contradiction|].
  cbn [result_bind].
  destruct percentile_5_50_95 as (H0 & H5_50 & H50_95 & H100).
  assert (Hscaled : scale_array arr (tops / h100_tops)%Qc <> []).
  { destruct arr; [congruence | discriminate]. }
  rewrite !np_percentile_interpolates; auto;
    repeat (eapply Qcle_trans; eauto).
  cbn [result_bind]. eauto.
Qed.

Lemma chip_types_keyed (results : table Qc) quarters versions :
  keyed_by results quarters versions ->
  results <> [] ->
  chip_types_of results = versions.
Proof.
  intros [_ Hrows] Hne. destruct results as [|[q0 row0] rest]; [congruence|].
  apply (Hrows q0). cbn [PyDict.get].
  change (key_eqb q0 q0) with (String.eqb q0 q0).
  now rewrite String.eqb_refl.
Qed.

Section Pipeline.

Context {W : Type}.

Variable sample_revenue : quarter -> W -> Qc * W.
Variable sample_shares : quarter -> W -> dict version Qc * W.
Variable sample_price : quarter -> version -> W -> Qc * W.

Variable quarters : list quarter.
Variable versions : list version.

Hypothesis quarters_distinct : NoDup quarters.
Hypothesis versions_distinct : NoDup versions.

Lemma estimated_cells n_samples w results st q v :
  estimate_chip_sales sample_revenue sample_shares sample_price
    quarters versions n_samples w = Ok (results, st) ->
  In q quarters -> In v versions ->
  exists arr, cell results q v = Some arr /\ List.length arr = n_samples.
Proof.
  intros Hrun Hq Hv.
  pose proof (post_Ok _ _ _ _ _
                (estimate_from_post sample_revenue sample_shares
                   sample_price quarters versions q v n_samples
                   {| world := w; calls := [] |} (Forall_nil _)) Hrun)
    as (Hcov & Hlen & _).
  specialize (Hcov q v Hq Hv). unfold cell_len in Hlen.
  destruct (cell results q v) as [arr|]; [|contradiction].
  exists arr. split; [reflexivity|].
  rewrite Hlen, (occurrences_NoDup q quarters), (occurrences_NoDup v versions);
    auto; lia.
Qed.

Lemma estimated_rectangular n_samples w results st :
  estimate_chip_sales sample_revenue sample_shares sample_price
    quarters versions n_samples w = Ok (results, st) ->
  rectangular results n_samples.
Proof.
  intros Hrun q c Hq Hc.
  pose proof (estimate_chip_sales_keyed sample_revenue sample_shares
                sample_price quarters versions quarters_distinct
                versions_distinct n_samples w results st Hrun) as Hkeyed.
  assert (Hne : results <> []) by (intros ->; destruct Hq).
  rewrite (chip_types_keyed results quarters versions Hkeyed Hne) in Hc.
  rewrite (proj1 Hkeyed) in Hq.
  now apply (estimated_cells n_samples w results st).
Qed.

(** X18. The table of a run can be summarized: for distinct quarters and
    versions, at least one of each, and at least one trial,
    [summarize_quarterly_by_chip] returns on the table that
    [estimate_chip_sales] returned, with one line per quarter -- no
    [KeyError], [IndexError] or [ValueError]. *)
Theorem summarize_after_estimate (format_fn : Qc -> string)
  n_samples w results st :
  quarters <> [] -> versions <> [] -> n_samples <> 0 ->
  estimate_chip_sales sample_revenue sample_shares sample_price
    quarters versions n_samples w = Ok (results, st) ->
  exists df,
    summarize_quarterly_by_chip format_fn results = Ok df /\
    List.length df = List.length quarters.
Proof.
  intros Hquarters Hversions Hn Hrun.
  pose proof (estimated_rectangular n_samples w results st Hrun) as Hrect.
  pose proof (estimate_chip_sales_keyed sample_revenue sample_shares
                sample_price quarters versions quarters_distinct
                versions_distinct n_samples w results st Hrun) as Hkeyed.
  assert (Hne : results <> []).
  { intros ->. destruct Hkeyed as [Hkeys _]. simpl in Hkeys. congruence. }
  destruct (summarize_returns format_fn results n_samples Hrect) as (df & Hdf);
    [lia | exact Hne
     | now rewrite (chip_types_keyed results quarters versions Hkeyed Hne) |].
  exists df. split; [exact Hdf|].
  pose proof (summarize_total format_fn results n_samples df Hrect Hdf)
    as Hlines.
  apply Forall2_length in Hlines. rewrite <- Hlines, (proj1 Hkeyed).
  reflexivity.
Qed.

(** X19. The table of a run can be exported: for distinct quarters and
    versions, a reference throughput that is not zero and a [chip_specs]
    that gives a ['tops'] entry to some of the declared versions and names
    no other, [export_quarterly_by_version] returns on the table that
    [estimate_chip_sales] returned -- no [KeyError] and no
    [ZeroDivisionError]. *)
Theorem export_after_estimate
  (chip_specs : dict version (dict string Qc)) (h100_tops : Qc)
  n_samples w results st :
  h100_tops <> Q2Qc 0 ->
  (forall v, In v (PyDict.keys chip_specs) ->
     In v versions /\ exists tops, spec_tops chip_specs v = Ok tops) ->
  estimate_chip_sales sample_revenue sample_shares sample_price
    quarters versions n_samples w = Ok (results, st) ->
  exists rows,
    export_quarterly_by_version results chip_specs h100_tops = Ok rows.
Proof.
  intros Hh Hspecs Hrun.
  pose proof (estimate_chip_sales_keyed sample_revenue sample_shares
                sample_price quarters versions quarters_distinct
                versions_distinct n_samples w results st Hrun) as [Hkeys _].
  unfold export_quarterly_by_version.
  apply result_fold_returns. intros q rows Hq.
  apply result_fold_returns. intros v rows1 Hv.
  destruct (Hspecs v Hv) as (Hversion & tops & Htops).
  rewrite Hkeys in Hq.
  destruct (estimated_cells n_samples w results st q v Hrun Hq Hversion)
    as (arr & Hcell & _).
  now apply (export_step_returns results chip_specs h100_tops q v rows1
               arr tops).
Qed.

End Pipeline.

Lemma summarize_after_estimate_witness :
  exists results st df,
    estimate_chip_sales
      (Scenario.sample_revenue Scenario.Qc_number)
      (Scenario.sample_shares Scenario.Qc_number)
      (Scenario.sample_price Scenario.Qc_number)
      ["Q1"%string] ["A"%string; "B"%string] 1 tt = Ok (results, st) /\
    summarize_quarterly_by_chip format_thousands results = Ok df /\
    List.length df = 1.
Proof.
  destruct (estimate_chip_sales
              (Scenario.sample_revenue Scenario.Qc_number)
              (Scenario.sample_shares Scenario.Qc_number)
              (Scenario.sample_price Scenario.Qc_number)
              ["Q1"%string] ["A"%string; "B"%string] 1 tt)
    as [[results st]|e] eqn:Hrun.
  - destruct (summarize_after_estimate
                (Scenario.sample_revenue Scenario.Qc_number)
                (Scenario.sample_shares Scenario.Qc_number)
                (Scenario.sample_price Scenario.Qc_number)
                ["Q1"%string] ["A"%string; "B"%string] NoDup_Q1 NoDup_A_B
                format_thousands 1 tt results st)
      as (df & Hdf & Hlen); try discriminate; [exact Hrun|].
    exists results, st, df. auto.
  - vm_compute in Hrun. discriminate.
Defined.

Lemma export_after_estimate_witness :
  exists results st rows,
    estimate_chip_sales
      (Scenario.sample_revenue Scenario.Qc_number)
      (Scenario.sample_shares Scenario.Qc_number)
      (Scenario.sample_price Scenario.Qc_number)
      ["Q1"%string] ["A"%string; "B"%string] 1 tt = Ok (results, st) /\
    export_quarterly_by_version results Tables.two_specs default_h100_tops
    = Ok rows.
Proof.
  destruct (estimate_chip_sales
              (Scenario.sample_revenue Scenario.Qc_number)
              (Scenario.sample_shares Scenario.Qc_number)
              (Scenario.sample_price Scenario.Qc_number)
              ["Q1"%string] ["A"%string; "B"%string] 1 tt)
    as [[results st]|e] eqn:Hrun.
  - destruct (export_after_estimate
                (Scenario.sample_revenue Scenario.Qc_number)
                (Scenario.sample_shares Scenario.Qc_number)
                (Scenario.sample_price Scenario.Qc_number)
                ["Q1"%string] ["A"%string; "B"%string] NoDup_Q1 NoDup_A_B
                Tables.two_specs default_h100_tops 1 tt results st)
      as (rows & Hrows); [| |exact Hrun|].
    + intros Heq. apply (f_equal this) in Heq. vm_compute in Heq.
      discriminate.
    + intros v [<-|[<-|[]]]; (split; [simpl; auto|]); eexists; reflexivity.
    + exists results, st, rows. auto.
  - vm_compute in Hrun. discriminate.
Defined.
